(** * Repository context service: a shallow embedding of the Go sources

    The development follows the layout of the service:
    - [GoStrings]: the fragment of Go's [strings], [unicode/utf8] and [fmt]
      packages that the modelled functions call;
    - [Sha256]: [crypto/sha256.Sum256], used for chunk identities;
    - [Ingest]: [internal/ingest/chunking.go] and [inline.go];
    - [Weaviate]: [internal/query/semantic_weaviate.go];
    - [Upload]: [internal/api/upload.go];
    - [Lexical]: [internal/query/lexical_rg.go] (ripgrep client);
    - [Merger]: the result merger of [internal/query];
    - [Chat]: the chat server ([ChatWithRepository] and its helpers);
    - [UploadServer] and [RepositoryServer]: the status and repository
      handlers of [internal/api];
    - [Semantic]: the search of [internal/query/semantic_weaviate.go];
    - [Processor]: the ingestion pipeline of [internal/ingest/inline.go]
      with [ChunkFiles] and [GenerateEmbeddings];
    - [Truncation]: [TruncateContent] of the result merger;
    - [RepositoryCache]: the cached form of a repository in
      [internal/cache/redis.go].

    Go [int] is a 64-bit and [int32] a 32-bit two's-complement integer; both
    are carried by [Z] with the wrap-around written out. Go strings are byte
    strings and are carried by [string] (one [ascii] per byte). Calls that
    leave the process (Redis, Weaviate, ripgrep, the embedding and LLM
    services, the gRPC stream) are explicit inputs: the outcome of the call is
    an argument of the function that performs it. *)

From Stdlib Require Import ZArith NArith List Ascii String Bool Lia.
From Stdlib Require Import QArith Reals Lra.
From stdpp Require Import base option list strings gmap fin_maps.

Local Open Scope Z_scope.

(** ** Results of Go functions *)

(** A Go [error] value. [status.Errorf] builds a gRPC status error with a
    code; every other error of the sources is built by [fmt.Errorf] or comes
    from a library and only carries its text. [RuntimePanic] stands for a
    run-time panic that unwinds through a handler. *)
Inductive code : Type :=
  | InvalidArgument | NotFound | FailedPrecondition | Internal.

Inductive error : Type :=
  | GoError (msg : string)
  | StatusError (c : code) (msg : string)
  | RuntimePanic (msg : string).

Definition code_name (c : code) : string :=
  match c with
  | InvalidArgument => "InvalidArgument"
  | NotFound => "NotFound"
  | FailedPrecondition => "FailedPrecondition"
  | Internal => "Internal"
  end.

(** [err.Error()], which is what the verbs [%v] and [%w] print. *)
Definition error_string (e : error) : string :=
  match e with
  | GoError m => m
  | StatusError c m => "rpc error: code = " +:+ code_name c +:+ " desc = " +:+ m
  | RuntimePanic m => "panic: " +:+ m
  end.

(** [fmt.Errorf(prefix + ": %w", err)] *)
Definition Errorf (prefix : string) (e : error) : error :=
  GoError (prefix +:+ ": " +:+ error_string e).

(** [status.Errorf(c, prefix + ": %v", err)] *)
Definition status_Errorf (c : code) (prefix : string) (e : error) : error :=
  StatusError c (prefix +:+ ": " +:+ error_string e).

(** What a Go function with results [(A, error)] returns. *)
Inductive result (A : Type) : Type :=
  | Ok (a : A)
  | Err (e : error).
Arguments Ok {A} a.
Arguments Err {A} e.

(** What a run of a modelled function produces: what the function returns,
    a run-time panic, or nothing yet because the bound given for its loop
    was too small. *)
Inductive outcome (A : Type) : Type :=
  | Return (r : result A)
  | Panic
  | OutOfFuel.
Arguments Return {A} r.
Arguments Panic {A}.
Arguments OutOfFuel {A}.

(** ** Machine integers *)

Definition wrap64 (z : Z) : Z := (z + 2 ^ 63) mod 2 ^ 64 - 2 ^ 63.
Definition wrap32 (z : Z) : Z := (z + 2 ^ 31) mod 2 ^ 32 - 2 ^ 31.

Definition int64_range (z : Z) : Prop := - 2 ^ 63 <= z < 2 ^ 63.
Definition int32_range (z : Z) : Prop := - 2 ^ 31 <= z < 2 ^ 31.

(** [s[lo:hi]] on a slice whose capacity equals its length: a run-time panic
    unless [0 <= lo <= hi <= len(s)]. *)
Definition slice {A} (l : list A) (lo hi : Z) : option (list A) :=
  if (0 <=? lo) && (lo <=? hi) && (hi <=? Z.of_nat (length l))
  then Some (take (Z.to_nat (hi - lo)) (drop (Z.to_nat lo) l))
  else None.

(** ** Go strings *)

Module GoStrings.

Local Open Scope N_scope.

Definition byte (c : ascii) : N := N_of_ascii c.

Fixpoint sdrop (n : nat) (s : string) : string :=
  match n, s with
  | O, _ => s
  | S n', String _ s' => sdrop n' s'
  | S _, EmptyString => EmptyString
  end.

Fixpoint stake (n : nat) (s : string) : string :=
  match n, s with
  | S n', String c s' => String c (stake n' s')
  | _, _ => EmptyString
  end.

(** *** [unicode/utf8] *)

Definition RuneError : N := 0xFFFD.

(** The entry of utf8's table [first] for a leading byte [>= 0x80]: the
    length of the sequence and the range accepted for its second byte;
    [None] for the bytes that cannot start a sequence. *)
Definition first (s0 : N) : option (nat * N * N) :=
  if s0 <? 0xC2 then None
  else if s0 <=? 0xDF then Some (2%nat, 0x80, 0xBF)
  else if s0 =? 0xE0 then Some (3%nat, 0xA0, 0xBF)
  else if s0 <=? 0xEC then Some (3%nat, 0x80, 0xBF)
  else if s0 =? 0xED then Some (3%nat, 0x80, 0x9F)
  else if s0 <=? 0xEF then Some (3%nat, 0x80, 0xBF)
  else if s0 =? 0xF0 then Some (4%nat, 0x90, 0xBF)
  else if s0 <=? 0xF3 then Some (4%nat, 0x80, 0xBF)
  else if s0 =? 0xF4 then Some (4%nat, 0x80, 0x8F)
  else None.

Definition between (lo hi b : N) : bool := (lo <=? b) && (b <=? hi).

(** [utf8.DecodeRuneInString]: the first rune of [s] and its width in bytes;
    an invalid or truncated sequence decodes to [RuneError] of width 1. *)
Definition DecodeRuneInString (s : string) : N * nat :=
  match s with
  | EmptyString => (RuneError, 0%nat)
  | String c0 t0 =>
    let s0 := byte c0 in
    if s0 <? 0x80 then (s0, 1%nat)
    else match first s0 with
    | None => (RuneError, 1%nat)
    | Some (sz, lo, hi) =>
      match t0 with
      | EmptyString => (RuneError, 1%nat)
      | String c1 t1 =>
        let s1 := byte c1 in
        if negb (between lo hi s1) then (RuneError, 1%nat)
        else if (sz <=? 2)%nat
        then (N.lor (N.shiftl (N.land s0 0x1F) 6) (N.land s1 0x3F), 2%nat)
        else match t1 with
        | EmptyString => (RuneError, 1%nat)
        | String c2 t2 =>
          let s2 := byte c2 in
          if negb (between 0x80 0xBF s2) then (RuneError, 1%nat)
          else if (sz <=? 3)%nat
          then (N.lor (N.shiftl (N.land s0 0x0F) 12)
                  (N.lor (N.shiftl (N.land s1 0x3F) 6) (N.land s2 0x3F)),
                3%nat)
          else match t2 with
          | EmptyString => (RuneError, 1%nat)
          | String c3 _ =>
            let s3 := byte c3 in
            if negb (between 0x80 0xBF s3) then (RuneError, 1%nat)
            else (N.lor (N.shiftl (N.land s0 0x07) 18)
                    (N.lor (N.shiftl (N.land s1 0x3F) 12)
                       (N.lor (N.shiftl (N.land s2 0x3F) 6) (N.land s3 0x3F))),
                  4%nat)
          end
        end
      end
    end
  end.

(** [unicode.IsSpace] *)
Definition IsSpace (r : N) : bool :=
  between 0x09 0x0D r || (r =? 0x20) || (r =? 0x85) || (r =? 0xA0)
  || (r =? 0x1680) || between 0x2000 0x200A r || (r =? 0x2028)
  || (r =? 0x2029) || (r =? 0x202F) || (r =? 0x205F) || (r =? 0x3000).

(** The runes of [for _, r := range s], each with the bytes it was decoded
    from. A rune takes at least one byte, so [String.length s] steps are
    enough. *)
Fixpoint runes_upto (n : nat) (s : string) : list (N * string) :=
  match n with
  | O => []
  | S n' =>
    match s with
    | EmptyString => []
    | _ =>
      let '(r, w) := DecodeRuneInString s in
      (r, stake w s) :: runes_upto n' (sdrop w s)
    end
  end.

Definition runes (s : string) : list (N * string) :=
  runes_upto (String.length s) s.

(** The test [strings.TrimSpace(s) == ""]. [TrimSpace] first drops the
    leading white space with [TrimLeftFunc], which returns the empty string
    exactly when no rune of [s] is a non-space rune. *)
Definition TrimSpace_is_empty (s : string) : bool :=
  forallb (fun rb => IsSpace (fst rb)) (runes s).

(** [strings.Fields]: the maximal runs of non-space runes. [cur] is the field
    being read, if any. *)
Fixpoint fields_go (cur : option string) (rs : list (N * string))
  : list string :=
  match rs with
  | [] => match cur with Some f => [f] | None => [] end
  | (r, bs) :: rs' =>
    if IsSpace r
    then match cur with
         | Some f => f :: fields_go None rs'
         | None => fields_go None rs'
         end
    else match cur with
         | Some f => fields_go (Some (f +:+ bs)) rs'
         | None => fields_go (Some bs) rs'
         end
  end.

Definition Fields (s : string) : list string := fields_go None (runes s).

(** *** [strings] on bytes *)

(** [strings.Join] *)
Fixpoint Join (elems : list string) (sep : string) : string :=
  match elems with
  | [] => EmptyString
  | [e] => e
  | e :: rest => e +:+ sep +:+ Join rest sep
  end.

(** [strings.HasPrefix] *)
Fixpoint HasPrefix (s p : string) : bool :=
  match p, s with
  | EmptyString, _ => true
  | String a p', String b s' => Ascii.eqb a b && HasPrefix s' p'
  | String _ _, EmptyString => false
  end.

(** [strings.Contains] *)
Fixpoint Contains (s sub : string) : bool :=
  HasPrefix s sub ||
  match s with
  | EmptyString => false
  | String _ s' => Contains s' sub
  end.

(** [strings.TrimPrefix] *)
Definition TrimPrefix (s p : string) : string :=
  if HasPrefix s p then sdrop (String.length p) s else s.

(** [strings.Split(s, "\n")], the only separator the sources split on. *)
Fixpoint split_lines_go (cur : string) (s : string) : list string :=
  match s with
  | EmptyString => [String.rev cur]
  | String c s' =>
    if Ascii.eqb c "010"%char
    then String.rev cur :: split_lines_go EmptyString s'
    else split_lines_go (String c cur) s'
  end.

Definition SplitLines (s : string) : list string :=
  split_lines_go EmptyString s.

(** [strings.ReplaceAll(s, "-", "")], the only replacement the sources make. *)
Fixpoint RemoveHyphens (s : string) : string :=
  match s with
  | EmptyString => EmptyString
  | String c s' =>
    if Ascii.eqb c "-"%char then RemoveHyphens s'
    else String c (RemoveHyphens s')
  end.

Local Close Scope N_scope.

(** *** [fmt] *)

Definition digit_char (d : Z) : ascii :=
  ascii_of_N (Z.to_N (48 + d)).

(** The decimal digits of a non-negative integer, most significant first. *)
Fixpoint digits_upto (n : nat) (z : Z) (acc : string) : string :=
  match n with
  | O => acc
  | S n' =>
    let acc' := String (digit_char (z mod 10)) acc in
    if z <? 10 then acc' else digits_upto n' (z / 10) acc'
  end.

(** The verb [%d] on an integer. *)
Definition itoa (z : Z) : string :=
  if z <? 0
  then String "-"%char (digits_upto (Z.to_nat (- z)) (- z) EmptyString)
  else digits_upto (S (Z.to_nat z)) z EmptyString.

Definition hex_char (d : N) : ascii :=
  ascii_of_N (if (d <? 10)%N then 48 + d else 87 + d)%N.

(** The verb [%x] on a byte array: two lower-case digits per byte. *)
Fixpoint hex (bs : list N) : string :=
  match bs with
  | [] => EmptyString
  | b :: bs' =>
    String (hex_char (b / 16)%N) (String (hex_char (b mod 16)%N) (hex bs'))
  end.

Definition bytes_of (s : string) : list N :=
  map byte (list_ascii_of_string s).

End GoStrings.

(** ** [crypto/sha256] *)

Module Sha256.

Local Open Scope N_scope.

Definition w32 (x : N) : N := x mod 2 ^ 32.
Definition add32 (a b : N) : N := w32 (a + b).
Definition rotr (n x : N) : N :=
  N.lor (N.shiftr x n) (w32 (N.shiftl x (32 - n))).
Definition not32 (x : N) : N := 2 ^ 32 - 1 - x.

Definition Ch (x y z : N) : N := N.lxor (N.land x y) (N.land (not32 x) z).
Definition Maj (x y z : N) : N :=
  N.lxor (N.lxor (N.land x y) (N.land x z)) (N.land y z).
Definition Sigma0 (x : N) : N :=
  N.lxor (N.lxor (rotr 2 x) (rotr 13 x)) (rotr 22 x).
Definition Sigma1 (x : N) : N :=
  N.lxor (N.lxor (rotr 6 x) (rotr 11 x)) (rotr 25 x).
Definition sigma0 (x : N) : N :=
  N.lxor (N.lxor (rotr 7 x) (rotr 18 x)) (N.shiftr x 3).
Definition sigma1 (x : N) : N :=
  N.lxor (N.lxor (rotr 17 x) (rotr 19 x)) (N.shiftr x 10).

(** The round constants: the first 32 bits of the fractional parts of the
    cube roots of the first 64 primes, in decimal. *)
Definition K : list N :=
  [1116352408; 1899447441; 3049323471; 3921009573;
   961987163; 1508970993; 2453635748; 2870763221;
   3624381080; 310598401; 607225278; 1426881987;
   1925078388; 2162078206; 2614888103; 3248222580;
   3835390401; 4022224774; 264347078; 604807628;
   770255983; 1249150122; 1555081692; 1996064986;
   2554220882; 2821834349; 2952996808; 3210313671;
   3336571891; 3584528711; 113926993; 338241895;
   666307205; 773529912; 1294757372; 1396182291;
   1695183700; 1986661051; 2177026350; 2456956037;
   2730485921; 2820302411; 3259730800; 3345764771;
   3516065817; 3600352804; 4094571909; 275423344;
   430227734; 506948616; 659060556; 883997877;
   958139571; 1322822218; 1537002063; 1747873779;
   1955562222; 2024104815; 2227730452; 2361852424;
   2428436474; 2756734187; 3204031479; 3329325298].

Definition state : Type := N * N * N * N * N * N * N * N.

Definition init : state :=
  (1779033703, 3144134277, 1013904242, 2773480762,
   1359893119, 2600822924, 528734635, 1541459225).

(** Big-endian words of a block of bytes. *)
Fixpoint words (bs : list N) : list N :=
  match bs with
  | b0 :: b1 :: b2 :: b3 :: rest =>
    (b0 * 2 ^ 24 + b1 * 2 ^ 16 + b2 * 2 ^ 8 + b3) :: words rest
  | _ => []
  end.

(** The message schedule, most recent word first: [rev_w] holds
    [W_(t-1), W_(t-2), ...]. *)
Fixpoint schedule (n : nat) (rev_w : list N) : list N :=
  match n with
  | O => rev_w
  | S n' =>
    let w := fun i => nth i rev_w 0 in
    let wt :=
      add32 (add32 (sigma1 (w 1%nat)) (w 6%nat))
            (add32 (sigma0 (w 14%nat)) (w 15%nat)) in
    schedule n' (wt :: rev_w)
  end.

Definition round (st : state) (kw : N * N) : state :=
  let '(a, b, c, d, e, f, g, h) := st in
  let '(k, w) := kw in
  let t1 := add32 (add32 (add32 (add32 h (Sigma1 e)) (Ch e f g)) k) w in
  let t2 := add32 (Sigma0 a) (Maj a b c) in
  (add32 t1 t2, a, b, c, add32 d t1, e, f, g).

Definition compress (st : state) (block : list N) : state :=
  let w := rev (schedule 48 (rev (words block))) in
  let '(a, b, c, d, e, f, g, h) := fold_left round (combine K w) st in
  let '(a0, b0, c0, d0, e0, f0, g0, h0) := st in
  (add32 a0 a, add32 b0 b, add32 c0 c, add32 d0 d,
   add32 e0 e, add32 f0 f, add32 g0 g, add32 h0 h).

Fixpoint blocks (n : nat) (bs : list N) (st : state) : state :=
  match n with
  | O => st
  | S n' => blocks n' (drop 64 bs) (compress st (take 64 bs))
  end.

Definition be_bytes (width : nat) (x : N) : list N :=
  map (fun i => (x / 2 ^ (8 * N.of_nat i)) mod 256) (rev (seq 0 width)).

(** The padded message: a [0x80] byte, zero bytes up to 56 modulo 64, and the
    length of the message in bits on 8 bytes. *)
Definition pad (msg : list N) : list N :=
  let len := N.of_nat (length msg) in
  let zeros := N.to_nat ((64 + 55 - len mod 64) mod 64) in
  msg ++ [0x80] ++ repeat 0 zeros ++ be_bytes 8 (8 * len).

(** [sha256.Sum256]: the 32 bytes of the digest. *)
Definition Sum256 (msg : list N) : list N :=
  let p := pad msg in
  let '(a, b, c, d, e, f, g, h) := blocks (length p / 64) p init in
  be_bytes 4 a ++ be_bytes 4 b ++ be_bytes 4 c ++ be_bytes 4 d ++
  be_bytes 4 e ++ be_bytes 4 f ++ be_bytes 4 g ++ be_bytes 4 h.

End Sha256.

Import GoStrings.

(** ** internal/ingest: the chunker *)

Module Ingest.

Record FileInfo : Type := {
  Path : string;
  Size : Z;
  Language : string;
  IsText : bool;
  IsBinary : bool;
  LineCount : Z
}.

Record ChunkOptions : Type := {
  ChunkSize : Z;
  ChunkOverlap : Z;
  ExcludePatterns : list string;
  IncludePatterns : list string;
  MaxFileSize : Z
}.

Record FileChunk : Type := {
  ID : string;
  RepositoryID : string;
  FilePath : string;
  StartLine : Z;
  EndLine : Z;
  Content : string;
  ChunkLanguage : string;
  ChunkSizeBytes : Z;
  Hash : string
}.

(** [fmt.Sprintf("%x", hash)[:16]] for [hash := sha256.Sum256([]byte(s))] *)
Definition sha256_hex16 (s : string) : string :=
  stake 16 (hex (Sha256.Sum256 (bytes_of s))).

Definition generateChunkID (filePath : string) (startLine endLine : Z)
  : string :=
  let content := filePath +:+ ":" +:+ itoa startLine +:+ "-" +:+ itoa endLine in
  sha256_hex16 content.

Definition hashContent (content : string) : string := sha256_hex16 content.

Definition newline : string := String "010"%char EmptyString.

(** The sliding-window loop of [chunkFile], entered with loop variable [i] and
    the chunks appended so far. [lineNumber] is the constant 1 of the
    source. One unit of [fuel] is one evaluation of the loop condition. *)
Fixpoint chunkLoop (fuel : nat) (lines : list string) (fileInfo : FileInfo)
    (options : ChunkOptions) (i : Z) (chunks : list FileChunk)
  : outcome (list FileChunk) :=
  match fuel with
  | O => OutOfFuel
  | S fuel' =>
    let len := Z.of_nat (length lines) in
    let chunkSize := ChunkSize options in
    let overlap := ChunkOverlap options in
    let lineNumber := 1 in
    let next := wrap64 (i + wrap64 (chunkSize - overlap)) in
    if negb (i <? len) then Return (Ok chunks)
    else
      let endIdx := wrap64 (i + chunkSize) in
      let endIdx := if endIdx >? len then len else endIdx in
      if (wrap64 (endIdx - i) <? Z.quot chunkSize 10) && (i >? 0)
      then Return (Ok chunks)
      else
        match slice lines i endIdx with
        | None => Panic
        | Some chunkLines =>
          let content := Join chunkLines newline in
          if TrimSpace_is_empty content
          then chunkLoop fuel' lines fileInfo options next chunks
          else
            let chunk := {|
              ID := generateChunkID (Path fileInfo) (wrap64 (i + lineNumber))
                      (wrap64 (wrap64 (endIdx + lineNumber) - 1));
              RepositoryID := "";
              FilePath := Path fileInfo;
              StartLine := wrap64 (i + lineNumber);
              EndLine := wrap64 (wrap64 (endIdx + lineNumber) - 1);
              Content := content;
              ChunkLanguage := Language fileInfo;
              ChunkSizeBytes := Z.of_nat (String.length content);
              Hash := hashContent content |} in
            let chunks := chunks ++ [chunk] in
            if endIdx >=? len then Return (Ok chunks)
            else chunkLoop fuel' lines fileInfo options next chunks
        end
  end.

(** [chunkFile]. [scanned] is what opening the file and scanning its lines
    gave: the lines, or the error of [os.Open] or of the scanner. *)
Definition chunkFile (fuel : nat) (scanned : result (list string))
    (filePath : string) (fileInfo : FileInfo) (options : ChunkOptions)
  : outcome (list FileChunk) :=
  match scanned with
  | Ok lines => chunkLoop fuel lines fileInfo options 0 []
  | Err e => Return (Err (Errorf ("failed to read file " +:+ filePath) e))
  end.

(** *** The windows of a file

    What the chunker is meant to produce, window by window. Window [k]
    starts [k] steps of [ChunkSize - ChunkOverlap] lines into the file and
    holds [ChunkSize] lines, or what is left of the file. *)

Section Windows.

Variable lines : list string.
Variable fileInfo : FileInfo.
Variable options : ChunkOptions.

Definition window_start (k : nat) : Z :=
  Z.of_nat k * (ChunkSize options - ChunkOverlap options).

Definition window_end (k : nat) : Z :=
  Z.min (window_start k + ChunkSize options) (Z.of_nat (length lines)).

Definition window_length (k : nat) : Z := window_end k - window_start k.

Definition window_lines (k : nat) : list string :=
  take (Z.to_nat (window_length k)) (drop (Z.to_nat (window_start k)) lines).

Definition window_content (k : nat) : string :=
  Join (window_lines k) newline.

(** The final window is the first one that reaches the last line. *)
Definition final_window : nat :=
  let len := Z.of_nat (length lines) in
  let step := ChunkSize options - ChunkOverlap options in
  if len <=? ChunkSize options then 0%nat
  else Z.to_nat ((len - ChunkSize options + step - 1) / step).

(** The chunk of window [k], with 1-based inclusive line numbers. *)
Definition window_chunk (k : nat) : FileChunk := {|
  ID := generateChunkID (Path fileInfo) (window_start k + 1) (window_end k);
  RepositoryID := "";
  FilePath := Path fileInfo;
  StartLine := window_start k + 1;
  EndLine := window_end k;
  Content := window_content k;
  ChunkLanguage := Language fileInfo;
  ChunkSizeBytes := Z.of_nat (String.length (window_content k));
  Hash := hashContent (window_content k)
|}.

(** [short k] says when window [k] counts as too small. A window is emitted
    unless it is blank, or it is the final window, not the first one, and
    too small. *)
Definition emitted (short : nat -> bool) (k : nat) : bool :=
  negb (TrimSpace_is_empty (window_content k))
  && negb ((k =? final_window)%nat && (0 <? k)%nat && short k).

Definition windows (short : nat -> bool) : list FileChunk :=
  map window_chunk (List.filter (emitted short) (seq 0 (S final_window))).

(** Too small as the chunker computes it: fewer lines than the integer
    quotient of [ChunkSize] by 10. *)
Definition below_tenth (k : nat) : bool :=
  window_length k <? ChunkSize options / 10.


End Windows.

(** *** Indexing ([IndexEmbeddings]) *)

(** [interface{}] values stored in a vector's metadata. *)
Inductive any : Type :=
  | AnyString (s : string)
  | AnyStrings (l : list string)
  | AnyInt (z : Z).

Section Indexing.

(** The carrier of [float32]; embeddings are only moved around. *)
Context {float32 : Type}.

Record EmbeddedChunk : Type := {
  Chunk : FileChunk;
  Embedding : list float32;
  EmbeddingModel : string;
  CreatedAt : Z
}.

Record Vector : Type := {
  VectorID : string;
  VectorData : list float32;
  Metadata : gmap string any
}.

(** The [VectorClient] interface, acting on a vector store of type [W]. A
    method returns its [error] ([None] for [nil]) and the store it leaves. *)
Class VectorClient (W : Type) : Type := {
  CreateCollection : string -> Z -> W -> option error * W;
  UpsertVectors : string -> list Vector -> W -> option error * W;
  DeleteCollection : string -> W -> option error * W
}.

Definition toWeaviateClassName (repoID : string) : string :=
  "Repo" +:+ RemoveHyphens (TrimPrefix repoID "repo-").

Definition chunk_vector (chunk : EmbeddedChunk) : Vector := {|
  VectorID := ID (Chunk chunk);
  VectorData := Embedding chunk;
  Metadata :=
    {[ "repository_id" := AnyString (RepositoryID (Chunk chunk));
       "file_path" := AnyString (FilePath (Chunk chunk));
       "start_line" := AnyInt (StartLine (Chunk chunk));
       "end_line" := AnyInt (EndLine (Chunk chunk));
       "language" := AnyString (ChunkLanguage (Chunk chunk));
       "size" := AnyInt (ChunkSizeBytes (Chunk chunk));
       "created_at" := AnyInt (CreatedAt chunk) ]}
|}.

(** The batch loop of [IndexEmbeddings]: [vectors] is what is left from
    index [i] on. The loop variable grows by 100 while vectors remain, so
    [length vectors] steps always suffice. *)
Fixpoint upsertBatches `{VectorClient W} (steps : nat) (className : string)
    (i : Z) (vectors : list Vector) (w : W) : option error * W :=
  match steps, vectors with
  | _, [] => (None, w)
  | O, _ => (None, w)
  | S steps', _ =>
    let batchSize := 100 in
    let batch := take 100 vectors in
    let end_ := i + Z.of_nat (length batch) in
    match UpsertVectors className batch w with
    | (Some e, w') =>
      (Some (Errorf ("failed to upsert vectors batch " +:+ itoa i +:+ "-"
                     +:+ itoa end_) e), w')
    | (None, w') =>
      upsertBatches steps' className (i + batchSize) (drop 100 vectors) w'
    end
  end.

Definition IndexEmbeddings `{VectorClient W} (repoID : string)
    (chunks : list EmbeddedChunk) (w : W) : option error * W :=
  match chunks with
  | [] => (None, w)
  | first :: _ =>
    let dimensions := Z.of_nat (length (Embedding first)) in
    let className := toWeaviateClassName repoID in
    match CreateCollection className dimensions w with
    | (Some e, w') => (Some (Errorf "failed to create collection" e), w')
    | (None, w') =>
      let vectors := map chunk_vector chunks in
      upsertBatches (length vectors) className 0 vectors w'
    end
  end.

End Indexing.

Arguments EmbeddedChunk : clear implicits.
Arguments Vector : clear implicits.
Arguments VectorClient : clear implicits.

End Ingest.

(** ** internal/query/semantic_weaviate.go: the Weaviate client *)

Module Weaviate.

Section Client.

Context {float32 : Type}.

(** [models.Property] and [models.Class] of the Weaviate client library. *)
Record Property : Type := {
  PropName : string;
  DataType : list string
}.

Record Class : Type := {
  ClassName : string;
  Vectorizer : string;
  Properties : list Property;
  Distance : string
}.

(** [models.Object]: a field the client leaves unset is empty. *)
Record Object : Type := {
  ObjClass : string;
  ObjProperties : gmap string Ingest.any;
  ObjVector : list float32
}.

(** The Weaviate server as the client sees it: its schema, the objects it
    holds, and whether it answers requests at all. *)
Record Server : Type := {
  schema : gmap string Class;
  objects : list Object;
  reachable : bool
}.

Definition unreachable : error := GoError "connection refused".

Definition codeChunkClass (name : string) : Class := {|
  ClassName := name;
  Vectorizer := "none";
  Properties :=
    [ {| PropName := "repository_id"; DataType := ["string"] |};
      {| PropName := "file_path"; DataType := ["string"] |};
      {| PropName := "start_line"; DataType := ["int"] |};
      {| PropName := "end_line"; DataType := ["int"] |};
      {| PropName := "content"; DataType := ["text"] |};
      {| PropName := "language"; DataType := ["string"] |};
      {| PropName := "size"; DataType := ["int"] |};
      {| PropName := "created_at"; DataType := ["date"] |} ];
  Distance := "cosine"
|}.

Definition CreateCollection (name : string) (dimensions : Z) (w : Server)
  : option error * Server :=
  if negb (reachable w)
  then (Some (Errorf "failed to check class existence" unreachable), w)
  else
    match schema w !! name with
    | Some _ => (None, w)
    | None =>
      (None, {| schema := <[name := codeChunkClass name]> (schema w);
                objects := objects w;
                reachable := reachable w |})
    end.

(** The loop [for key, value := range vector.Metadata] of [UpsertVectors],
    filling a fresh [properties] map. *)
Definition copyProperties (metadata : gmap string Ingest.any)
  : gmap string Ingest.any :=
  map_fold (fun key value properties => <[key := value]> properties)
    ∅ metadata.

(** The loop [for j, v := range vector.Vector { strVector[j] = v }]. *)
Definition copyVector (v : list float32) : list float32 :=
  map (fun x => x) v.

(** The object built for one vector by the conversion loop of
    [UpsertVectors]. [strVector] is computed and not used again. *)
Definition toObject (collectionName : string)
    (vector : Ingest.Vector float32) : Object :=
  let properties := copyProperties (Ingest.Metadata vector) in
  let strVector := copyVector (Ingest.VectorData vector) in
  {| ObjClass := collectionName;
     ObjProperties := properties;
     ObjVector := [] |}.

Definition UpsertVectors (collectionName : string)
    (vectors : list (Ingest.Vector float32)) (w : Server)
  : option error * Server :=
  match vectors with
  | [] => (None, w)
  | _ =>
    let objs := map (toObject collectionName) vectors in
    if negb (reachable w)
    then (Some (Errorf "failed to batch insert objects" unreachable), w)
    else (None, {| schema := schema w;
                   objects := objects w ++ objs;
                   reachable := reachable w |})
  end.

Definition DeleteCollection (name : string) (w : Server)
  : option error * Server :=
  if negb (reachable w)
  then (Some (Errorf "failed to delete class" unreachable), w)
  else (None, {| schema := delete name (schema w);
                 objects := List.filter
                   (fun o => negb (String.eqb (ObjClass o) name)) (objects w);
                 reachable := reachable w |}).

#[export] Instance WeaviateClient : Ingest.VectorClient float32 Server := {|
  Ingest.CreateCollection := CreateCollection;
  Ingest.UpsertVectors := UpsertVectors;
  Ingest.DeleteCollection := DeleteCollection
|}.

End Client.

Arguments Object : clear implicits.
Arguments Server : clear implicits.

End Weaviate.

(** ** internal/cache and internal/api/upload.go: accepting uploads *)

Module Upload.

Inductive IngestionState : Type :=
  | STATE_UNSPECIFIED | STATE_PENDING | STATE_EXTRACTING | STATE_CHUNKING
  | STATE_EMBEDDING | STATE_INDEXING | STATE_READY | STATE_FAILED.

Inductive RepositorySource : Type :=
  | GitUrl (url ref : string)
  | UploadedFilename (filename ref : string).

Record UploadOptions : Type := {
  OptExcludePatterns : list string;
  OptIncludePatterns : list string;
  MaxFileSizeMb : Z
}.

Record CachedUploadStatus : Type := {
  UploadID : string;
  CachedRepositoryID : string;
  Status : IngestionState;
  ProgressPercent : Z;
  ErrorMessage : string;
  CreatedAt : Z
}.

Record Repository : Type := {
  RepositoryId : string;
  Name : string;
  Description : string;
  Source : RepositorySource;
  IngestionStatus : IngestionState;
  RepoCreatedAt : Z
}.

Record CreateIndexRequest : Type := {
  ReqRepositoryID : string;
  ReqTenantID : string;
  ReqSource : RepositorySource;
  ReqOptions : option UploadOptions;
  ReqIdempotencyKey : string
}.

Record CreateIndexResponse : Type := {
  RespRepositoryID : string;
  IndexID : string;
  RespStatus : IngestionState;
  AcceptedAt : Z
}.

Record IngestionJob : Type := {
  JobID : string;
  JobRepositoryID : string;
  JobTenantID : string;
  JobStatus : IngestionState;
  JobProgress : Z;
  Request : CreateIndexRequest;
  JobCreatedAt : Z
}.

(** What the handlers act on: the Redis keys they read and write, the
    ingestion pipelines started with [go ip.processRepositoryAsync], the
    clock read by [time.Now], and whether Redis answers. *)
Record World : Type := {
  upload_status : gmap string CachedUploadStatus;
  repo_meta : gmap string Repository;
  pipelines : list IngestionJob;
  now : Z;
  redis_up : bool
}.

Definition redis_down : error := GoError "redis: connection refused".

(** [time.Now().UnixNano()]; the clock moves on between two readings. *)
Definition tick (w : World) : Z * World :=
  (now w, {| upload_status := upload_status w; repo_meta := repo_meta w;
             pipelines := pipelines w; now := now w + 1;
             redis_up := redis_up w |}).

(** *** internal/cache/redis.go *)

Definition is_alnum (r : N) : bool :=
  (between 48 57 r || between 65 90 r || between 97 122 r)%N.

(** [regexp.MustCompile(`[^...]`).ReplaceAllString(s, "_")]: every rune
    outside the class is replaced by one underscore. *)
Definition replace_outside (allowed : N -> bool) (s : string) : string :=
  fold_right (fun rb acc =>
                (if allowed (fst rb) then snd rb else "_") +:+ acc)
    EmptyString (runes s).

(** [sanitizeTenantID], class [a-zA-Z0-9\-] *)
Definition sanitizeTenantID (tenantID : string) : string :=
  replace_outside (fun r => is_alnum r || (r =? 45)%N) tenantID.

(** [sanitizeID], class [a-zA-Z0-9\-_] *)
Definition sanitizeID (id : string) : string :=
  replace_outside (fun r => is_alnum r || (r =? 45)%N || (r =? 95)%N) id.

Definition uploadStatusKey (tenantID uploadID : string) : string :=
  "upload_status:" +:+ sanitizeTenantID tenantID +:+ ":"
  +:+ sanitizeID uploadID.

Definition repositoryMetadataKey (tenantID repoID : string) : string :=
  "repo_meta:" +:+ sanitizeTenantID tenantID +:+ ":" +:+ sanitizeID repoID.

Definition SetUploadStatus (tenantID : string) (status : CachedUploadStatus)
    (w : World) : option error * World :=
  if redis_up w
  then (None,
        {| upload_status :=
             <[uploadStatusKey tenantID (UploadID status) := status]>
               (upload_status w);
           repo_meta := repo_meta w; pipelines := pipelines w;
           now := now w; redis_up := redis_up w |})
  else (Some redis_down, w).

(** [GetUploadStatus]: [Ok None] is the pair [(nil, nil)] of a missing key. *)
Definition GetUploadStatus (tenantID uploadID : string) (w : World)
  : result (option CachedUploadStatus) :=
  if redis_up w
  then Ok (upload_status w !! uploadStatusKey tenantID uploadID)
  else Err redis_down.

Definition SetRepositoryMetadata (tenantID : string) (repo : Repository)
    (w : World) : option error * World :=
  if redis_up w
  then (None,
        {| upload_status := upload_status w;
           repo_meta :=
             <[repositoryMetadataKey tenantID (RepositoryId repo) := repo]>
               (repo_meta w);
           pipelines := pipelines w; now := now w; redis_up := redis_up w |})
  else (Some redis_down, w).

(** *** internal/ingest/inline.go: [CreateRepositoryIndex] *)

(** [go ip.processRepositoryAsync(context.Background(), job)] *)
Definition spawn (job : IngestionJob) (w : World) : World :=
  {| upload_status := upload_status w; repo_meta := repo_meta w;
     pipelines := pipelines w ++ [job]; now := now w;
     redis_up := redis_up w |}.

(** The idempotency check at the head of the function is commented out in
    the source ("TEMPORARILY DISABLED"), so the body starts at the job. *)
Definition CreateRepositoryIndex (req : CreateIndexRequest) (w : World)
  : result CreateIndexResponse * World :=
  let '(createdAt, w) := tick w in
  let job := {|
    JobID := ReqIdempotencyKey req;
    JobRepositoryID := ReqRepositoryID req;
    JobTenantID := ReqTenantID req;
    JobStatus := STATE_PENDING;
    JobProgress := 0;
    Request := req;
    JobCreatedAt := createdAt |} in
  let cachedStatus := {|
    UploadID := ReqIdempotencyKey req;
    CachedRepositoryID := ReqRepositoryID req;
    Status := JobStatus job;
    ProgressPercent := JobProgress job;
    ErrorMessage := "";
    CreatedAt := JobCreatedAt job |} in
  match SetUploadStatus (ReqTenantID req) cachedStatus w with
  | (Some e, w) => (Err (Errorf "failed to cache upload status" e), w)
  | (None, w) =>
    let w := spawn job w in
    (Ok {| RespRepositoryID := ReqRepositoryID req;
           IndexID := ReqRepositoryID req;
           RespStatus := JobStatus job;
           AcceptedAt := JobCreatedAt job |}, w)
  end.

(** *** internal/api/upload.go *)

Record GitRepository : Type := {
  Url : string;
  Ref : string
}.

Record UploadGitRepositoryRequest : Type := {
  TenantId : string;
  IdempotencyKey : string;
  GitRepo : option GitRepository;
  Options : option UploadOptions
}.

Record UploadRepositoryResponse : Type := {
  UploadId : string;
  ResponseRepositoryId : string;
  ResponseAcceptedAt : Z;
  ResponseStatus : IngestionState
}.

Definition generateRepositoryID (w : World) : string * World :=
  let '(t, w) := tick w in ("repo-" +:+ itoa t, w).

Definition generateUploadID (w : World) : string * World :=
  let '(t, w) := tick w in ("upload-" +:+ itoa t, w).

(** The last path element of the URL without a [.git] suffix. *)
Fixpoint after_last_slash (cur : option string) (url : string)
  : option string :=
  match url with
  | EmptyString => cur
  | String c rest =>
    if Ascii.eqb c "/"%char then after_last_slash (Some rest) rest
    else after_last_slash cur rest
  end.

Definition extractRepositoryName (gitUrl : string) : string :=
  let len := String.length gitUrl in
  let url :=
    if (4 <? len)%nat && String.eqb (sdrop (len - 4) gitUrl) ".git"
    then stake (len - 4) gitUrl else gitUrl in
  match after_last_slash None url with
  | Some name => if String.eqb name "" then "repository" else name
  | None =>
    (* no slash: [lastSlash] keeps its initial value [len(url) - 1] *)
    "repository"
  end.

Section Handlers.

(** [s.config.Security.DefaultTenant] *)
Variable DefaultTenant : string.

Definition UploadGitRepository (req : UploadGitRepositoryRequest) (w : World)
  : result UploadRepositoryResponse * World :=
  let tenantID :=
    if String.eqb (TenantId req) "" then DefaultTenant else TenantId req in
  let '(repoID, w) := generateRepositoryID w in
  let '(uploadID, w) :=
    if String.eqb (IdempotencyKey req) "" then generateUploadID w
    else (IdempotencyKey req, w) in
  (* the idempotency check is commented out in the source *)
  match GitRepo req with
  | None => (Err (StatusError InvalidArgument "git_repository is required"), w)
  | Some gitRepo =>
    if String.eqb (Url gitRepo) ""
    then (Err (StatusError InvalidArgument "git_repository.url is required"),
          w)
    else
      let ref := if String.eqb (Ref gitRepo) "" then "main" else Ref gitRepo in
      let repositorySource := GitUrl (Url gitRepo) ref in
      let ingestReq := {|
        ReqRepositoryID := repoID;
        ReqTenantID := tenantID;
        ReqSource := repositorySource;
        ReqOptions := Options req;
        ReqIdempotencyKey := uploadID |} in
      match CreateRepositoryIndex ingestReq w with
      | (Ok ingestResp, w) =>
        let repository := {|
          RepositoryId := repoID;
          Name := extractRepositoryName (Url gitRepo);
          Description := "Repository cloned from " +:+ Url gitRepo;
          Source := repositorySource;
          IngestionStatus := RespStatus ingestResp;
          RepoCreatedAt := AcceptedAt ingestResp |} in
        (* a failure to store the metadata is logged and ignored *)
        let w := snd (SetRepositoryMetadata tenantID repository w) in
        (Ok {| UploadId := uploadID;
               ResponseRepositoryId := repoID;
               ResponseAcceptedAt := AcceptedAt ingestResp;
               ResponseStatus := RespStatus ingestResp |}, w)
      | (Err e, w) =>
        (Err (status_Errorf Internal "failed to start ingestion" e), w)
      end
  end.

(** The source of the first message of the streaming upload. *)
Inductive UploadSource : Type :=
  | FileUpload (handled : result string)
  | GitRepositorySource (g : GitRepository)
  | NoSource.

Record UploadRepositoryRequest : Type := {
  FirstTenantId : string;
  FirstIdempotencyKey : string;
  FirstSource : UploadSource;
  FirstOptions : option UploadOptions
}.

(** [UploadRepository], the streaming upload. [first] is what the first
    [stream.Recv] gave; for a file upload, [handled] is what
    [handleFileUpload] returned after writing the chunks to disk. *)
Definition UploadRepository (first : result UploadRepositoryRequest)
    (w : World) : result UploadRepositoryResponse * World :=
  match first with
  | Err e =>
    (Err (status_Errorf InvalidArgument "failed to receive first request" e),
     w)
  | Ok firstReq =>
    let tenantID :=
      if String.eqb (FirstTenantId firstReq) "" then DefaultTenant
      else FirstTenantId firstReq in
    let '(repoID, w) := generateRepositoryID w in
    let '(uploadID, w) :=
      if String.eqb (FirstIdempotencyKey firstReq) "" then generateUploadID w
      else (FirstIdempotencyKey firstReq, w) in
    match GetUploadStatus tenantID uploadID w with
    | Ok (Some existing) =>
      (Ok {| UploadId := UploadID existing;
             ResponseRepositoryId := CachedRepositoryID existing;
             ResponseAcceptedAt := CreatedAt existing;
             ResponseStatus := Status existing |}, w)
    | _ =>
      let source :=
        match FirstSource firstReq with
        | FileUpload (Ok filename) => Ok (UploadedFilename filename "main")
        | FileUpload (Err e) =>
          Err (status_Errorf Internal "file upload failed" e)
        | GitRepositorySource g =>
          Ok (GitUrl (Url g) (if String.eqb (Ref g) "" then "main" else Ref g))
        | NoSource =>
          Err (StatusError InvalidArgument "unsupported source type")
        end in
      match source with
      | Ok repositorySource =>
        let ingestReq := {|
          ReqRepositoryID := repoID;
          ReqTenantID := tenantID;
          ReqSource := repositorySource;
          ReqOptions := FirstOptions firstReq;
          ReqIdempotencyKey := uploadID |} in
        match CreateRepositoryIndex ingestReq w with
        | (Ok ingestResp, w) =>
          (Ok {| UploadId := uploadID;
                 ResponseRepositoryId := repoID;
                 ResponseAcceptedAt := AcceptedAt ingestResp;
                 ResponseStatus := RespStatus ingestResp |}, w)
        | (Err e, w) =>
          (Err (status_Errorf Internal "failed to start ingestion" e), w)
        end
      | Err e => (Err e, w)
      end
    end
  end.

End Handlers.

End Upload.

(** ** proto/gen/repocontext/v1: the messages shared by search and chat *)

Module Proto.

Inductive SearchSource : Type :=
  | SEARCH_SOURCE_UNSPECIFIED
  | SEARCH_SOURCE_LEXICAL
  | SEARCH_SOURCE_SEMANTIC
  | SEARCH_SOURCE_MERGED.

(** [CodeChunk]; [F] carries the [float32] score, line numbers are
    [int32]. *)
Record CodeChunk (F : Type) : Type := {
  RepositoryId : string;
  FilePath : string;
  StartLine : Z;
  EndLine : Z;
  Content : string;
  Language : string;
  Symbol : string;
  Score : F;
  Source : SearchSource
}.
Arguments RepositoryId {F} _.
Arguments FilePath {F} _.
Arguments StartLine {F} _.
Arguments EndLine {F} _.
Arguments Content {F} _.
Arguments Language {F} _.
Arguments Symbol {F} _.
Arguments Score {F} _.
Arguments Source {F} _.

End Proto.

(** ** internal/query/lexical_rg.go: the ripgrep client *)

Module Lexical.

Import Proto.

(** [regexp.QuoteMeta]: a backslash before each of [\.+*?()|[]{}^$]. *)
Definition is_meta (c : ascii) : bool :=
  existsb (Ascii.eqb c) (list_ascii_of_string "\.+*?()|[]{}^$").

Fixpoint QuoteMeta (s : string) : string :=
  match s with
  | EmptyString => EmptyString
  | String c s' =>
    if is_meta c then String "\"%char (String c (QuoteMeta s'))
    else String c (QuoteMeta s')
  end.

(** The table [fuzzyMap] of [generateFuzzyPatterns], in source order. *)
Definition fuzzyMap : list (string * list string) :=
  [ ("auth", ["authentication"; "authorization"; "authorize";
              "authenticated"; "authenticator"]);
    ("authentication", ["auth"; "authenticator"; "authenticate"]);
    ("authorization", ["auth"; "authorize"; "authz"]);
    ("config", ["configuration"; "configure"; "conf"]);
    ("configuration", ["config"; "conf"]);
    ("db", ["database"; "data_base"]);
    ("database", ["db"; "data_base"]);
    ("api", ["endpoint"; "service"; "rest"; "graphql"]);
    ("endpoint", ["api"; "route"; "handler"]);
    ("handler", ["handle"; "controller"; "processor"]);
    ("service", ["svc"; "server"; "api"]);
    ("server", ["srv"; "service"; "daemon"]);
    ("client", ["cli"; "consumer"]);
    ("response", ["resp"; "result"; "reply"]);
    ("request", ["req"; "query"; "input"]);
    ("error", ["err"; "exception"; "failure"]);
    ("function", ["func"; "method"; "procedure"]);
    ("method", ["func"; "function"]);
    ("variable", ["var"; "field"; "property"]);
    ("parameter", ["param"; "arg"; "argument"]);
    ("middleware", ["middleware"; "interceptor"; "filter"]);
    ("route", ["router"; "routing"; "path"]);
    ("controller", ["ctrl"; "handler"; "processor"]);
    ("model", ["schema"; "entity"; "data"]);
    ("view", ["template"; "render"; "display"]);
    ("user", ["users"; "account"; "profile"]);
    ("password", ["pwd"; "pass"; "secret"]);
    ("token", ["jwt"; "bearer"; "session"]);
    ("session", ["sess"; "cookie"; "token"]) ].

Definition mapLanguageToRipgrepType (language : string) : string :=
  let languageMap : list (string * string) :=
    [ ("go", "go"); ("javascript", "js"); ("typescript", "ts");
      ("python", "py"); ("java", "java"); ("cpp", "cpp"); ("c", "c");
      ("csharp", "csharp"); ("ruby", "ruby"); ("php", "php");
      ("shell", "sh"); ("rust", "rust"); ("kotlin", "kotlin");
      ("swift", "swift"); ("scala", "scala"); ("r", "r"); ("sql", "sql");
      ("html", "html"); ("css", "css"); ("json", "json"); ("xml", "xml");
      ("yaml", "yaml"); ("markdown", "md") ] in
  match List.find (fun kv => String.eqb (fst kv) language) languageMap with
  | Some kv => snd kv
  | None => ""
  end.

(** What running [rg] in the repository directory gave. *)
Inductive rg_result : Type :=
  | RgOutput (output : string)
  | RgExit (exitCode : Z)
  | RgFailed (e : error).

Section Client.

Context {F : Type}.

(** [strings.ToLower] and [strings.Title], which follow the Unicode case
    tables. *)
Variable ToLower : string -> string.
Variable Title : string -> string.

(** [exec.CommandContext(ctx, "rg", args...)] run in the directory of the
    repository [repoID] under [workDir]. *)
Variable rg : string -> string -> list string -> rg_result.

(** [parseRipgrepOutput output repoID query]: the chunks decoded from the
    JSON lines of [rg] and scored against the query. It never fails. *)
Variable parseRipgrepOutput : string -> string -> string -> list (CodeChunk F).

Record RipgrepClient : Type := {
  workDir : string;
  maxMatches : Z
}.

(** The patterns are appended in the order of the source; the second loop
    ranges over a Go map, whose iteration order is not fixed, and is taken
    here in the order of the table. *)
Definition generateFuzzyPatterns (term : string) : list string :=
  let direct :=
    match List.find (fun kv => String.eqb (fst kv) term) fuzzyMap with
    | Some (_, expansions) =>
      map (fun expansion => "(?i)" +:+ QuoteMeta expansion) expansions
    | None => []
    end in
  let reverse :=
    flat_map (fun kv =>
                if existsb (String.eqb term) (snd kv)
                then ["(?i)" +:+ QuoteMeta (fst kv)] else [])
      fuzzyMap in
  let cases :=
    if (3 <=? String.length term)%nat
    then [ "(?i)" +:+ QuoteMeta (Title term) +:+ "[A-Z]\w*";
           "(?i)\w*_?" +:+ QuoteMeta term +:+ "_?\w*" ]
    else [] in
  direct ++ reverse ++ cases.

Definition termPattern (term : string) : string :=
  let term := ToLower term in
  let exactPattern := "(?i)" +:+ QuoteMeta term in
  let partial :=
    if (3 <=? String.length term)%nat
    then ["(?i)\w*" +:+ QuoteMeta term +:+ "\w*"] else [] in
  let termPatterns := [exactPattern] ++ partial ++ generateFuzzyPatterns term in
  if (1 <? length termPatterns)%nat
  then "(" +:+ Join termPatterns "|" +:+ ")"
  else exactPattern.

Definition queryToRegex (query : string) : result string :=
  let terms := Fields query in
  match terms with
  | [] => Err (GoError "empty query")
  | _ =>
    let patterns := map termPattern terms in
    match patterns with
    | [p] => Ok p
    | _ => Ok ("(" +:+ Join patterns "|" +:+ ")")
    end
  end.

Definition buildRipgrepArgs (r : RipgrepClient) (query : string) (limit : Z)
    (filters : gmap string Ingest.any) : result (list string) :=
  let args :=
    ["--json"; "--line-number"; "--column"; "--context"; "2"; "--max-count";
     itoa (maxMatches r); "--smart-case"] in
  let args :=
    match filters !! "languages" with
    | Some (Ingest.AnyStrings languages) =>
      args ++ flat_map (fun lang =>
                          let rgType := mapLanguageToRipgrepType lang in
                          if String.eqb rgType "" then []
                          else ["--type"; rgType]) languages
    | _ => args
    end in
  let args :=
    match filters !! "file_patterns" with
    | Some (Ingest.AnyStrings patterns) =>
      args ++ flat_map (fun pattern => ["--glob"; pattern]) patterns
    | _ => args
    end in
  let args :=
    match filters !! "path_prefix" with
    | Some (Ingest.AnyString pathPrefix) =>
      if String.eqb pathPrefix "" then args
      else args ++ ["--glob"; pathPrefix +:+ "*"]
    | _ => args
    end in
  match queryToRegex query with
  | Ok pattern => Ok (args ++ [pattern])
  | Err e => Err (Errorf "failed to convert query to regex" e)
  end.

(** [SearchLexical]. [Ok []] stands for the [nil] slice returned with a
    [nil] error when ripgrep exits with status 1 (no match). *)
Definition SearchLexical (r : RipgrepClient) (repoID query : string)
    (limit : Z) (filters : gmap string Ingest.any)
  : result (list (CodeChunk F)) :=
  match buildRipgrepArgs r query limit filters with
  | Err e => Err (Errorf "failed to build ripgrep args" e)
  | Ok args =>
    match rg (workDir r) repoID args with
    | RgExit 1 => Ok []
    | RgExit _ => Err (Errorf "ripgrep execution failed" (GoError "exit status"))
    | RgFailed e => Err (Errorf "ripgrep execution failed" e)
    | RgOutput output => Ok (parseRipgrepOutput output repoID query)
    end
  end.

End Client.

End Lexical.

(** ** internal/query: the result merger *)

Module Merger.

Import Proto.

(** The number of elements of [strings.Split(content, "\\n")]. *)
Definition line_count (content : string) : nat := length (SplitLines content).

Section Dedup.

Context {F : Type}.

(** The comparison [a > b] of two [float32] scores. *)
Variable gt : F -> F -> bool.

Definition copyChunk (chunk : CodeChunk F) : CodeChunk F := {|
  RepositoryId := RepositoryId chunk;
  FilePath := FilePath chunk;
  StartLine := StartLine chunk;
  EndLine := EndLine chunk;
  Content := Content chunk;
  Score := Score chunk;
  Source := Source chunk;
  Language := Language chunk;
  Symbol := Symbol chunk
|}.

Definition hasOverlap (chunk1 chunk2 : CodeChunk F) : bool :=
  if negb (String.eqb (FilePath chunk1) (FilePath chunk2)) then false
  else (EndLine chunk1 >=? wrap32 (StartLine chunk2 - 5))
       && (StartLine chunk1 <=? wrap32 (EndLine chunk2 + 5)).

Definition combineContent (content1 content2 : string) : string :=
  if (line_count content1 <? line_count content2)%nat then content2
  else content1.

Definition mergeOverlappingChunks (chunk1 chunk2 : CodeChunk F)
  : CodeChunk F :=
  let merged := copyChunk chunk1 in
  let startLine :=
    if StartLine chunk2 <? StartLine merged then StartLine chunk2
    else StartLine merged in
  let endLine :=
    if EndLine chunk2 >? EndLine merged then EndLine chunk2
    else EndLine merged in
  let content :=
    if negb (Contains (Content merged) (Content chunk2))
    then combineContent (Content merged) (Content chunk2)
    else Content merged in
  let score :=
    if gt (Score chunk2) (Score merged) then Score chunk2
    else Score merged in
  {| RepositoryId := RepositoryId merged;
     FilePath := FilePath merged;
     StartLine := startLine;
     EndLine := endLine;
     Content := content;
     Score := score;
     Source := SEARCH_SOURCE_MERGED;
     Language := Language merged;
     Symbol := Symbol merged |}.

(** [sort.Slice(chunks, func(i, j) { chunks[i].StartLine <
    chunks[j].StartLine })]. Up to 12 elements [sort.Slice] is an insertion
    sort, which is what is written here; on longer slices the order Go gives
    to chunks with equal start lines is not specified. *)
Fixpoint insertByStart (c : CodeChunk F) (sorted : list (CodeChunk F))
  : list (CodeChunk F) :=
  match sorted with
  | [] => [c]
  | d :: rest =>
    if StartLine c <? StartLine d then c :: sorted
    else d :: insertByStart c rest
  end.

Definition sortByStart (chunks : list (CodeChunk F)) : list (CodeChunk F) :=
  fold_left (fun sorted c => insertByStart c sorted) chunks [].

(** The inner loop [for j := len(deduplicated) - 1; j >= 0; j--]: merge
    [chunk] into the last element it overlaps, if there is one. *)
Fixpoint mergeIntoLast (deduplicated : list (CodeChunk F))
    (chunk : CodeChunk F) : option (list (CodeChunk F)) :=
  match deduplicated with
  | [] => None
  | d :: rest =>
    match mergeIntoLast rest chunk with
    | Some rest' => Some (d :: rest')
    | None =>
      if hasOverlap d chunk
      then Some (mergeOverlappingChunks d chunk :: rest)
      else None
    end
  end.

Definition deduplicateFileChunks (chunks : list (CodeChunk F))
  : list (CodeChunk F) :=
  if (length chunks <=? 1)%nat then chunks
  else
    fold_left (fun deduplicated chunk =>
                 match mergeIntoLast deduplicated chunk with
                 | Some deduplicated' => deduplicated'
                 | None => deduplicated ++ [copyChunk chunk]
                 end)
      (sortByStart chunks) [].

(** [mergeResults]: tag and concatenate the two lists. *)
Definition withSource (source : SearchSource) (chunk : CodeChunk F)
  : CodeChunk F := {|
  RepositoryId := RepositoryId chunk;
  FilePath := FilePath chunk;
  StartLine := StartLine chunk;
  EndLine := EndLine chunk;
  Content := Content chunk;
  Score := Score chunk;
  Source := source;
  Language := Language chunk;
  Symbol := Symbol chunk
|}.

Definition mergeResults (lexical semantic : list (CodeChunk F))
  : list (CodeChunk F) :=
  map (withSource SEARCH_SOURCE_LEXICAL) lexical
  ++ map (withSource SEARCH_SOURCE_SEMANTIC) semantic.

End Dedup.

(** *** Score normalization

    [normalizeScores] computes in [float64]. Here its arithmetic is exact:
    scores are real numbers, and [sqrt] and [exp] are the real functions. *)

Local Open Scope R_scope.







Local Close Scope R_scope.

End Merger.

(** ** The chat server: [ChatWithRepository] and the LLM composer *)

Module Chat.

Import Proto.

Record ChatOptions : Type := {
  MaxResults : Z;
  StreamTokens : bool;
  Model : string
}.

Record ChatStart : Type := {
  StartRepositoryId : string;
  StartTenantId : string;
  StartOptions : option ChatOptions
}.

Record ChatMessage : Type := {
  Query : string;
  MessageSessionId : string
}.

(** [ChatRequest.Message], a oneof; [ReqUnset] is a request whose oneof
    holds none of the three messages. *)
Inductive ChatRequest : Type :=
  | ReqStart (start : ChatStart)
  | ReqChatMessage (message : ChatMessage)
  | ReqCancel (sessionId : string)
  | ReqUnset.

Record ChatSession : Type := {
  ID : string;
  SessionRepositoryID : string;
  TenantID : string;
  Options : option ChatOptions;
  CreatedAt : Z;
  Active : bool
}.

Inductive HitPhase : Type :=
  | HIT_PHASE_UNSPECIFIED | HIT_PHASE_EARLY | HIT_PHASE_FINAL.

Record Citation : Type := {
  CitationFilePath : string;
  LineNumber : Z;
  Excerpt : string
}.

Record SearchTimings : Type := {
  LexicalMs : Z;
  SemanticMs : Z;
  MergeMs : Z;
  CompositionMs : Z;
  CacheHit : bool
}.

Record SearchStats : Type := {
  LexicalCandidates : Z;
  SemanticCandidates : Z;
  MergedResults : Z;
  ResultsTruncated : bool
}.

Record CompositionResult : Type := {
  FullResponse : string;
  Citations : list Citation;
  TokenCount : Z
}.

Section Server.

Context {F : Type}.

(** [ChatResponse.Message], the events of the stream. *)
Inductive ChatResponse : Type :=
  | SearchStarted (sessionId queryId : string)
  | SearchHit (sessionId queryId : string) (phase : HitPhase) (rank : Z)
      (chunk : CodeChunk F)
  | CompositionStarted (sessionId queryId : string) (contextChunks : Z)
  | CompositionToken (sessionId queryId : string) (text : string)
  | CompositionComplete (sessionId queryId : string) (fullResponse : string)
      (citations : list Citation)
  | Complete (sessionId queryId : string) (timings : SearchTimings)
      (stats : SearchStats).

(** What the collaborators answer while one inbound message is handled. *)
Record Answers : Type := {
  (** [s.cache.GetRepositoryMetadata] *)
  repository : result (option Upload.Repository);
  (** [time.Now()] as read by [generateSessionID] and [generateQueryID] *)
  clock : Z;
  (** [lexicalClient.SearchLexical] *)
  lexical : result (list (CodeChunk F));
  (** [embeddingClient.GenerateEmbeddings] on the query *)
  embeddings : result (list (list F));
  (** [semanticClient.SearchSemantic] on the query embedding *)
  semantic : list F -> result (list (CodeChunk F));
  (** [makeAPICall]: the contents of the choices of the response *)
  completion : result (list string);
  (** the streaming call: the lines read from the body and [scanner.Err()] *)
  event_stream : result (list string * option error);
  (** [compositionTimer.Duration().Milliseconds()] *)
  compositionMs : Z
}.

(** [s.queryService.merger.MergeAndRank], as the list [Chunks] of its
    result, from the lexical and the semantic chunks. *)
Variable MergeAndRank :
  list (CodeChunk F) -> list (CodeChunk F) -> list (CodeChunk F).

(** [json.Unmarshal] of one [data:] payload into a [StreamResponse]: the
    [Delta.Content] of its choices, or [None] when the payload is not valid
    JSON. *)
Variable decodeStreamResponse : string -> option (list string).

(** [s.config.Security.DefaultTenant] and [d.config.StreamTokens] *)
Variable DefaultTenant : string.
Variable composerStreamTokens : bool.

(** [stream.Send] fails with [send_err n] when [n] responses were sent
    before it. *)
Variable send_err : nat -> option error.

(** A step of a handler: from the responses sent so far to a result and
    the responses sent after it. *)
Definition step (A : Type) : Type :=
  list ChatResponse -> A * list ChatResponse.

Definition ret {A} (a : A) : step A := fun sent => (a, sent).

(** [stream.Send(resp)] *)
Definition Send (resp : ChatResponse) : step (option error) :=
  fun sent =>
    match send_err (length sent) with
    | Some e => (Some e, sent)
    | None => (None, sent ++ [resp])
    end.

(** [if err := m; err != nil { return err }; k] *)
Definition andThen (m k : step (option error)) : step (option error) :=
  fun sent =>
    match m sent with
    | (Some e, sent') => (Some e, sent')
    | (None, sent') => k sent'
    end.

Notation "m >>- k" := (andThen m k) (at level 62, right associativity).

(** *** The composer *)

Definition extractCitations (response : string) (chunks : list (CodeChunk F))
  : list Citation :=
  flat_map (fun chunk =>
    if Contains response (FilePath chunk)
    then
      let excerpt := Content chunk in
      let excerpt :=
        if (100 <? String.length excerpt)%nat
        then
          let lines := SplitLines excerpt in
          if (2 <? length lines)%nat
          then Join (take 2 lines) Ingest.newline +:+ "..."
          else stake 100 excerpt +:+ "..."
        else excerpt in
      [ {| CitationFilePath := FilePath chunk;
           LineNumber := StartLine chunk;
           Excerpt := excerpt |} ]
    else [])
    chunks.

Definition ComposeAnswer (a : Answers) (query : string)
    (chunks : list (CodeChunk F)) : result CompositionResult :=
  match completion a with
  | Err e => Err (Errorf "DeepSeek API call failed" e)
  | Ok [] => Err (GoError "no choices in response")
  | Ok (fullResponse :: _) =>
    Ok {| FullResponse := fullResponse;
          Citations := extractCitations fullResponse chunks;
          TokenCount := 0 |}
  end.

(** The scanning loop of [makeStreamingAPICall] over the lines that are
    left, with the response and the token count built so far. The scanner's
    error is met when the lines run out; [data: [DONE]] leaves the loop
    before that. *)
Fixpoint scanEvents (lines : list string) (scanErr : option error)
    (fullResponse : string) (tokenCount : Z)
    (callback : string -> step (option error))
  : step (result (string * Z)) :=
  match lines with
  | [] =>
    match scanErr with
    | Some e => ret (Err (Errorf "failed to read stream" e))
    | None => ret (Ok (fullResponse, tokenCount))
    end
  | line :: rest =>
    let continue_ :=
      scanEvents rest scanErr fullResponse tokenCount callback in
    if String.eqb line "" || HasPrefix line ":" then continue_
    else if HasPrefix line "data: " then
      let data := TrimPrefix line "data: " in
      if String.eqb data "[DONE]" then ret (Ok (fullResponse, tokenCount))
      else
        match decodeStreamResponse data with
        | Some (delta :: _) =>
          if String.eqb delta "" then continue_
          else
            fun sent =>
              match callback delta sent with
              | (Some e, sent') => (Err (Errorf "callback error" e), sent')
              | (None, sent') =>
                scanEvents rest scanErr (fullResponse +:+ delta)
                  (wrap64 (tokenCount + 1)) callback sent'
              end
        | _ => continue_
        end
    else continue_
  end.

Definition makeStreamingAPICall (a : Answers)
    (callback : string -> step (option error))
  : step (result (string * Z)) :=
  match event_stream a with
  | Ok (lines, scanErr) => scanEvents lines scanErr "" 0 callback
  | Err e => ret (Err e)
  end.

Definition ComposeAnswerStream (a : Answers) (query : string)
    (chunks : list (CodeChunk F)) (callback : string -> step (option error))
  : step (result CompositionResult) :=
  if negb composerStreamTokens
  then
    match ComposeAnswer a query chunks with
    | Ok result =>
      fun sent =>
        match callback (FullResponse result) sent with
        | (Some e, sent') => (Err e, sent')
        | (None, sent') => (Ok result, sent')
        end
    | other => ret other
    end
  else
    fun sent =>
      match makeStreamingAPICall a callback sent with
      | (Ok (fullResponse, tokenCount), sent') =>
        (Ok {| FullResponse := fullResponse;
               Citations := extractCitations fullResponse chunks;
               TokenCount := tokenCount |}, sent')
      | (Err e, sent') =>
        (Err (Errorf "DeepSeek streaming API call failed" e), sent')
      end.

(** *** The search *)

Definition getTopK (options : option ChatOptions) : Z :=
  match options with
  | Some o => if MaxResults o >? 0 then MaxResults o else 10
  | None => 10
  end.

Definition generateQueryEmbedding (a : Answers) (queryText : string)
  : result (list F) :=
  match embeddings a with
  | Err e => Err (Errorf "failed to generate embedding" e)
  | Ok [] => Err (GoError "received empty embedding")
  | Ok ([] :: _) => Err (GoError "received empty embedding")
  | Ok (embedding :: _) => Ok embedding
  end.

(** [performDualSearch]; the slice expression at its end panics when
    [limit] is negative. *)
Definition performDualSearch (a : Answers) (repositoryID queryText : string)
    (limit : Z) : outcome (list (CodeChunk F)) :=
  match lexical a with
  | Err e => Return (Err (Errorf "lexical search failed" e))
  | Ok lexicalResults =>
    match generateQueryEmbedding a queryText with
    | Err e => Return (Err (Errorf "failed to generate query embedding" e))
    | Ok queryEmbedding =>
      match semantic a queryEmbedding with
      | Err e => Return (Err (Errorf "semantic search failed" e))
      | Ok semanticResults =>
        let merged := MergeAndRank lexicalResults semanticResults in
        let maxResults := limit in
        let maxResults :=
          if Z.of_nat (length merged) <? maxResults
          then Z.of_nat (length merged) else maxResults in
        match slice merged 0 maxResults with
        | Some results => Return (Ok results)
        | None => Panic
        end
      end
    end
  end.

(** *** One query cycle *)

Definition generateSessionID (a : Answers) : string :=
  "session-" +:+ itoa (clock a).

Definition generateQueryID (a : Answers) : string :=
  "query-" +:+ itoa (clock a).

(** A loop [for i, result := range results] that sends one [SearchHit] per
    result, [i] counting from [idx]. *)
Fixpoint sendHits (sessionId queryId : string) (phase : HitPhase) (idx : Z)
    (results : list (CodeChunk F)) : step (option error) :=
  match results with
  | [] => ret None
  | result :: rest =>
    Send (SearchHit sessionId queryId phase (wrap32 (idx + 1)) result) >>-
    sendHits sessionId queryId phase (idx + 1) rest
  end.

Definition handleChatMessage (a : Answers) (session : ChatSession)
    (message : ChatMessage) : step (option error) :=
  let queryID := generateQueryID a in
  Send (SearchStarted (ID session) queryID) >>-
  match performDualSearch a (SessionRepositoryID session) (Query message)
          (getTopK (Options session)) with
  | Return (Err e) => ret (Some (status_Errorf Internal "search failed" e))
  | Panic | OutOfFuel => ret (Some (RuntimePanic "slice bounds out of range"))
  | Return (Ok searchResults) =>
    let earlyHitsSent := (3 <=? length searchResults)%nat in
    (if earlyHitsSent
     then sendHits (ID session) queryID HIT_PHASE_EARLY 0
            (take 3 searchResults)
     else ret None) >>-
    let startIdx := if earlyHitsSent then 3%nat else 0%nat in
    sendHits (ID session) queryID HIT_PHASE_FINAL (Z.of_nat startIdx)
      (drop startIdx searchResults) >>-
    Send (CompositionStarted (ID session) queryID
            (wrap32 (Z.of_nat (length searchResults)))) >>-
    let sendComplete (result : CompositionResult) :=
      Send (CompositionComplete (ID session) queryID (FullResponse result)
              (Citations result)) in
    let composed : step (option error) :=
      match Options session with
      | Some {| StreamTokens := true |} =>
        fun sent =>
          match ComposeAnswerStream a (Query message) searchResults
                  (fun token =>
                     Send (CompositionToken (ID session) queryID token))
                  sent with
          | (Ok result, sent') => sendComplete result sent'
          | (Err e, sent') =>
            (Some (status_Errorf Internal "composition failed" e), sent')
          end
      | _ =>
        match ComposeAnswer a (Query message) searchResults with
        | Ok result => sendComplete result
        | Err e => ret (Some (status_Errorf Internal "composition failed" e))
        end
      end in
    composed >>-
    Send (Complete (ID session) queryID
            {| LexicalMs := 100; SemanticMs := 200; MergeMs := 10;
               CompositionMs := wrap32 (compositionMs a);
               CacheHit := false |}
            {| LexicalCandidates := wrap32 (Z.of_nat (length searchResults));
               SemanticCandidates := wrap32 (Z.of_nat (length searchResults));
               MergedResults := wrap32 (Z.of_nat (length searchResults));
               ResultsTruncated := false |})
  end.

(** *** The session *)

(** The server's table of sessions and the sessions whose [CancelFunc] was
    called. *)
Record ServerState : Type := {
  sessions : gmap string ChatSession;
  cancelled : list string
}.

Definition handleChatStart (a : Answers) (start : ChatStart)
    (st : ServerState) : result ChatSession * ServerState :=
  let tenantID :=
    if String.eqb (StartTenantId start) "" then DefaultTenant
    else StartTenantId start in
  match repository a with
  | Err e => (Err (status_Errorf Internal "failed to get repository" e), st)
  | Ok None => (Err (StatusError NotFound "repository not found"), st)
  | Ok (Some repo) =>
    match Upload.IngestionStatus repo with
    | Upload.STATE_READY =>
      let sessionID := generateSessionID a in
      let session := {|
        ID := sessionID;
        SessionRepositoryID := StartRepositoryId start;
        TenantID := tenantID;
        Options := StartOptions start;
        CreatedAt := clock a;
        Active := true |} in
      (Ok session,
       {| sessions := <[sessionID := session]> (sessions st);
          cancelled := cancelled st |})
    | _ =>
      (Err (StatusError FailedPrecondition "repository is not ready"), st)
    end
  end.

Definition cancel (sessionID : string) (st : ServerState) : ServerState :=
  {| sessions := sessions st; cancelled := cancelled st ++ [sessionID] |}.

Definition cleanupSession (sessionID : string) (st : ServerState)
  : ServerState :=
  match sessions st !! sessionID with
  | Some _ =>
    {| sessions := delete sessionID (sessions st);
       cancelled := cancelled st ++ [sessionID] |}
  | None => st
  end.

(** The deferred function of [ChatWithRepository]. *)
Definition deferred (session : option ChatSession) (st : ServerState)
  : ServerState :=
  match session with
  | Some sess => cleanupSession (ID sess) st
  | None => st
  end.

(** The message loop of [ChatWithRepository]. [inbound] are the requests
    that [stream.Recv] delivers, each with the answers of the collaborators
    while it is handled; after them [Recv] fails with [recvErr] ([io.EOF]
    when the client closed the stream). The result is the error returned
    ([None] for [nil]), the server state after the deferred clean-up and the
    responses sent. *)
Fixpoint chatLoop (inbound : list (ChatRequest * Answers)) (recvErr : error)
    (session : option ChatSession) (st : ServerState)
    (sent : list ChatResponse)
  : option error * ServerState * list ChatResponse :=
  match inbound with
  | [] => (Some recvErr, deferred session st, sent)
  | (req, a) :: rest =>
    match req with
    | ReqStart start =>
      match handleChatStart a start st with
      | (Ok session', st') => chatLoop rest recvErr (Some session') st' sent
      | (Err e, st') => (Some e, deferred None st', sent)
      end
    | ReqChatMessage message =>
      match session with
      | None =>
        (Some (StatusError FailedPrecondition "session not initialized"),
         deferred session st, sent)
      | Some sess =>
        match handleChatMessage a sess message sent with
        | (Some e, sent') => (Some e, deferred session st, sent')
        | (None, sent') => chatLoop rest recvErr session st sent'
        end
      end
    | ReqCancel _ =>
      let st' :=
        match session with
        | Some sess => cancel (ID sess) st
        | None => st
        end in
      (None, deferred session st', sent)
    | ReqUnset =>
      (Some (StatusError InvalidArgument "unknown message type"),
       deferred session st, sent)
    end
  end.

Definition ChatWithRepository (inbound : list (ChatRequest * Answers))
    (recvErr : error) (st : ServerState)
  : option error * ServerState * list ChatResponse :=
  chatLoop inbound recvErr None st [].

(** *** The events of a query cycle, in the order the specification gives

    The hit of 0-based position [i] among [total] results is EARLY when
    there are at least 3 results and it is one of the first 3, FINAL
    otherwise; its rank is [i + 1]. *)
Definition hit_phase (total i : nat) : HitPhase :=
  if (3 <=? total)%nat && (i <? 3)%nat then HIT_PHASE_EARLY
  else HIT_PHASE_FINAL.

Definition expected_hits (sessionId queryId : string)
    (results : list (CodeChunk F)) : list ChatResponse :=
  imap (fun i chunk =>
          SearchHit sessionId queryId (hit_phase (length results) i)
            (Z.of_nat i + 1) chunk)
    results.

Definition cycle_events (sessionId queryId : string)
    (results : list (CodeChunk F)) (tokens : list string)
    (result : CompositionResult) (timings : SearchTimings)
    (stats : SearchStats) : list ChatResponse :=
  [SearchStarted sessionId queryId]
  ++ expected_hits sessionId queryId results
  ++ [CompositionStarted sessionId queryId (Z.of_nat (length results))]
  ++ map (CompositionToken sessionId queryId) tokens
  ++ [CompositionComplete sessionId queryId (FullResponse result)
        (Citations result);
      Complete sessionId queryId timings stats].

(** The code of the error a handler returned, if it is a status error. *)
Definition error_code (err : option error) : option code :=
  match err with
  | Some (StatusError c _) => Some c
  | _ => None
  end.

End Server.

Arguments ChatResponse : clear implicits.
Arguments Answers : clear implicits.

End Chat.

(** ** internal/api/upload.go: the status query and the file upload *)

Module UploadServer.

Import Upload.

Record GetUploadStatusRequest : Type := {
  StatusTenantId : string;
  StatusUploadId : string
}.

Record GetUploadStatusResponse : Type := {
  StatusOfUploadId : string;
  StatusOfRepositoryId : string;
  StatusOfState : IngestionState;
  StatusOfProgress : Z;
  StatusOfErrorMessage : string
}.

Section Handlers.

(** [s.config.Security.DefaultTenant] *)
Variable DefaultTenant : string.

(** [UploadServer.GetUploadStatus] *)
Definition GetUploadStatus (req : GetUploadStatusRequest) (w : World)
  : result GetUploadStatusResponse :=
  let tenantID :=
    if String.eqb (StatusTenantId req) "" then DefaultTenant
    else StatusTenantId req in
  match Upload.GetUploadStatus tenantID (StatusUploadId req) w with
  | Err e => Err (status_Errorf Internal "failed to get upload status" e)
  | Ok None => Err (StatusError NotFound "upload not found")
  | Ok (Some uploadStatus) =>
    Ok {| StatusOfUploadId := UploadID uploadStatus;
          StatusOfRepositoryId := CachedRepositoryID uploadStatus;
          StatusOfState := Status uploadStatus;
          StatusOfProgress := ProgressPercent uploadStatus;
          StatusOfErrorMessage := ErrorMessage uploadStatus |}
  end.

End Handlers.

End UploadServer.

(** ** internal/query/semantic_weaviate.go: reading search results *)

Module Semantic.

Import Proto.

#[local] Set Warnings "-register-all".

(** A value decoded from JSON into [interface{}]: [nil], [bool],
    [float64], [string], [[]interface{}] or [map[string]interface{}].
    [N] carries [float64]. *)
Inductive value (N : Type) : Type :=
  | VNull
  | VBool (b : bool)
  | VNumber (x : N)
  | VString (s : string)
  | VArray (items : list (value N))
  | VObject (fields : gmap string (value N)).
Arguments VNull {N}.
Arguments VBool {N} b.
Arguments VNumber {N} x.
Arguments VString {N} s.
Arguments VArray {N} items.
Arguments VObject {N} fields.

(** [models.GraphQLResponse] *)
Record GraphQLResponse (N : Type) : Type := {
  Data : gmap string (value N);
  Errors : list string
}.
Arguments Data {N} _.
Arguments Errors {N} _.

Section Client.

(** [F] carries [float32] and [N] carries [float64]. *)
Context {F N : Type}.

(** The conversions [int32(x)] and [float32(x)] of a [float64], and the
    zero value of [float32]. *)
Variable int32_of : N -> Z.
Variable float32_of : N -> F.
Variable zero : F.

(** [fmt.Sprintf("%v", result.Errors)] *)
Variable show_errors : list string -> string.

(** [query.Do(ctx)] for the query built from the class name, the vector,
    the limit and the filters. *)
Variable run_query :
  string -> list F -> Z -> gmap string Ingest.any -> result (GraphQLResponse N).

(** The type assertions [data[key].(string)] and [data[key].(float64)]. *)
Definition string_field (data : gmap string (value N)) (key : string)
  : option string :=
  match data !! key with
  | Some (VString s) => Some s
  | _ => None
  end.

Definition number_field (data : gmap string (value N)) (key : string)
  : option N :=
  match data !! key with
  | Some (VNumber x) => Some x
  | _ => None
  end.

(** [parseChunkFromResult]; it never returns an error. A field that is
    missing or of another type keeps its zero value. *)
Definition parseChunkFromResult (data : gmap string (value N))
    (repoID : string) : CodeChunk F := {|
  RepositoryId := repoID;
  Source := SEARCH_SOURCE_SEMANTIC;
  FilePath := default "" (string_field data "file_path");
  Content := default "" (string_field data "content");
  Language := default "" (string_field data "language");
  StartLine := default 0 (int32_of <$> number_field data "start_line");
  EndLine := default 0 (int32_of <$> number_field data "end_line");
  Score :=
    match data !! "_additional" with
    | Some (VObject additional) =>
      default zero (float32_of <$> number_field additional "certainty")
    | _ => zero
    end;
  Symbol := ""
|}.

(** [parseSearchResults]. [Ok []] is the [nil] slice returned with a [nil]
    error. *)
Definition parseSearchResults (response : GraphQLResponse N)
    (repoID : string) : result (list (CodeChunk F)) :=
  match Errors response with
  | _ :: _ => Err (GoError ("GraphQL errors: "
                            +:+ show_errors (Errors response)))
  | [] =>
    match Data response !! "Get" with
    | Some (VObject data) =>
      match data !! repoID with
      | Some (VArray classData) =>
        Ok (flat_map (fun item =>
                        match item with
                        | VObject itemMap =>
                          [parseChunkFromResult itemMap repoID]
                        | _ => []
                        end)
              classData)
      | _ => Ok []
      end
    | _ => Err (GoError "invalid response structure: missing Get")
    end
  end.

(** [SearchSemantic]: the query asks for the class of the repository. *)
Definition SearchSemantic (repoID : string) (queryVector : list F)
    (limit : Z) (filters : gmap string Ingest.any)
  : result (list (CodeChunk F)) :=
  match run_query (Ingest.toWeaviateClassName repoID) queryVector limit
          filters with
  | Err e => Err (Errorf "failed to execute search query" e)
  | Ok response =>
    match parseSearchResults response repoID with
    | Err e => Err (Errorf "failed to parse search results" e)
    | Ok chunks => Ok chunks
    end
  end.

End Client.

End Semantic.

(** ** The repository service: [GetRepository] *)

Module RepositoryServer.

Import Upload.

(** [RedisCache.GetRepositoryMetadata]: [Ok None] is the pair [(nil, nil)]
    of a missing key. *)
Definition GetRepositoryMetadata (tenantID repoID : string) (w : World)
  : result (option Repository) :=
  if redis_up w
  then Ok (repo_meta w !! repositoryMetadataKey tenantID repoID)
  else Err redis_down.

(** [InlineProcessor.GetIndexStatus], "a simplified version": it answers
    READY for every repository. *)
Definition GetIndexStatus (repoID : string) : result IngestionState :=
  Ok STATE_READY.

Record GetRepositoryRequest : Type := {
  GetTenantId : string;
  GetRepositoryId : string
}.

Definition withStatus (repository : Repository) (state : IngestionState)
  : Repository := {|
  RepositoryId := RepositoryId repository;
  Name := Name repository;
  Description := Description repository;
  Source := Source repository;
  IngestionStatus := state;
  RepoCreatedAt := RepoCreatedAt repository
|}.

Definition is_state (a b : IngestionState) : bool :=
  match a, b with
  | STATE_UNSPECIFIED, STATE_UNSPECIFIED | STATE_PENDING, STATE_PENDING
  | STATE_EXTRACTING, STATE_EXTRACTING | STATE_CHUNKING, STATE_CHUNKING
  | STATE_EMBEDDING, STATE_EMBEDDING | STATE_INDEXING, STATE_INDEXING
  | STATE_READY, STATE_READY | STATE_FAILED, STATE_FAILED => true
  | _, _ => false
  end.

Section Handlers.

(** [s.config.Security.DefaultTenant] *)
Variable DefaultTenant : string.

(** [RepositoryServer.GetRepository] *)
Definition GetRepository (req : GetRepositoryRequest) (w : World)
  : result Repository * World :=
  let tenantID :=
    if String.eqb (GetTenantId req) "" then DefaultTenant
    else GetTenantId req in
  match GetRepositoryMetadata tenantID (GetRepositoryId req) w with
  | Err e => (Err (status_Errorf Internal "failed to get repository" e), w)
  | Ok None => (Err (StatusError NotFound "repository not found"), w)
  | Ok (Some repository) =>
    if negb (is_state (IngestionStatus repository) STATE_READY)
       && negb (is_state (IngestionStatus repository) STATE_FAILED)
    then
      match GetIndexStatus (GetRepositoryId req) with
      | Ok currentStatus =>
        let repository := withStatus repository currentStatus in
        (* the error of [SetRepositoryMetadata] is dropped *)
        let w := snd (SetRepositoryMetadata tenantID repository w) in
        (Ok repository, w)
      | Err _ => (Ok repository, w)
      end
    else (Ok repository, w)
  end.

End Handlers.

End RepositoryServer.

(** ** internal/ingest: the ingestion pipeline *)

Module Processor.

Import Ingest Upload.

(** [ExtractResult], without the statistics, which the pipeline only hands
    on. *)
Record ExtractResult : Type := {
  RepositoryPath : string;
  CommitSHA : string;
  Files : list FileInfo
}.

(** What a pipeline acts on: the cache with its upload statuses and
    repository metadata, the routing keys [repo_idx:...] of the cache, and
    the vector store behind the [VectorClient]. *)
Record Backends (W : Type) : Type := {
  cache : World;
  routing : gmap string string;
  store : W
}.
Arguments cache {W} b.
Arguments routing {W} b.
Arguments store {W} b.

(** [strings.Split(s, sep)] for a separator of one byte. *)
Fixpoint split_go (sep : ascii) (cur : string) (s : string) : list string :=
  match s with
  | EmptyString => [String.rev cur]
  | String c s' =>
    if Ascii.eqb c sep
    then String.rev cur :: split_go sep EmptyString s'
    else split_go sep (String c cur) s'
  end.

Definition Split (s : string) (sep : ascii) : list string :=
  split_go sep EmptyString s.

(** [strings.TrimSuffix] *)
Definition TrimSuffix (s suffix : string) : string :=
  let n := String.length s in
  let k := String.length suffix in
  if (k <=? n)%nat && String.eqb (sdrop (n - k) s) suffix
  then stake (n - k) s else s.

(** [sanitizeRepoKey], class [a-zA-Z0-9\-_/@\.] *)
Definition sanitizeRepoKey (repoKey : string) : string :=
  replace_outside
    (fun r => is_alnum r || (r =? 45)%N || (r =? 95)%N || (r =? 47)%N
              || (r =? 64)%N || (r =? 46)%N) repoKey.

Definition repositoryKey (tenantID repoKey : string) : string :=
  "repo_idx:" +:+ sanitizeTenantID tenantID +:+ ":" +:+ sanitizeRepoKey repoKey.

(** [generateRepoKey]; the sources that the upload handlers build carry no
    commit, so the reference is used. *)
Definition generateRepoKey (source : RepositorySource) : string :=
  match source with
  | GitUrl url ref => url +:+ "@" +:+ ref
  | UploadedFilename filename _ => filename
  end.

Section Processor.

Context {float32 W : Type} `{!VectorClient float32 W}.

(** The collaborators of the processor. *)

(** [ip.ExtractRepository], from the source and the target directory *)
Variable ExtractRepository : RepositorySource -> string -> result ExtractResult.
(** [filepath.Join], [filepath.Base] and [filepath.Ext] *)
Variable filepath_Join : string -> string -> string.
Variable filepath_Base : string -> string.
Variable filepath_Ext : string -> string.
(** [ip.workDir] *)
Variable workDir : string.
(** [regexp.Compile(pattern)] gave no error, and [MatchString] of the
    compiled pattern on a path *)
Variable compiles : string -> bool.
Variable MatchString : string -> string -> bool.
(** opening the file at a path and scanning its lines *)
Variable scan : string -> result (list string).
(** the bound on the turns of the loop of [chunkFile] *)
Variable fuel : nat.
(** [ip.embeddingClient]: [GetDefaultModel] and [GenerateEmbeddings] *)
Variable GetDefaultModel : string.
Variable embeddingClient :
  list string -> string -> result (list (list float32)).
(** [time.Now()], in seconds, when the embedded chunk of an index is made *)
Variable clock : nat -> Z.

(** *** chunking.go: [ChunkFiles] *)

(** The patterns are kept as strings; one that does not compile is dropped. *)
Definition compilePatterns (patterns : list string) : list string :=
  List.filter compiles patterns.

Definition matchesPatterns (path : string) (patterns : list string) : bool :=
  existsb (fun pattern => MatchString pattern path) patterns.

(** The loop over the files; an error of [chunkFile] is logged and the
    file left out. *)
Fixpoint chunkEach (repositoryPath : string) (options : ChunkOptions)
    (excludeRegexes includeRegexes : list string) (files : list FileInfo)
    (allChunks : list FileChunk) : outcome (list FileChunk) :=
  match files with
  | [] => Return (Ok allChunks)
  | fileInfo :: files' =>
    let continue :=
      chunkEach repositoryPath options excludeRegexes includeRegexes files' in
    if matchesPatterns (Path fileInfo) excludeRegexes then continue allChunks
    else if (0 <? length includeRegexes)%nat
            && negb (matchesPatterns (Path fileInfo) includeRegexes)
    then continue allChunks
    else if (MaxFileSize options >? 0)
            && (Size fileInfo >? MaxFileSize options)
    then continue allChunks
    else if IsBinary fileInfo || negb (IsText fileInfo)
    then continue allChunks
    else
      let filePath := filepath_Join repositoryPath (Path fileInfo) in
      match chunkFile fuel (scan filePath) filePath fileInfo options with
      | Return (Ok chunks) => continue (allChunks ++ chunks)
      | Return (Err _) => continue allChunks
      | Panic => Panic
      | OutOfFuel => OutOfFuel
      end
  end.

Definition ChunkFiles (extractResult : ExtractResult) (options : ChunkOptions)
  : outcome (list FileChunk) :=
  let excludeRegexes := compilePatterns (ExcludePatterns options) in
  let includeRegexes := compilePatterns (IncludePatterns options) in
  chunkEach (RepositoryPath extractResult) options excludeRegexes
    includeRegexes (Files extractResult) [].

(** *** chunking.go: [GenerateEmbeddings] *)

(** The first loop: a chunk without repository gets the constant
    ["repo-id"]. *)
Definition withRepositoryID (chunk : FileChunk) : FileChunk :=
  if String.eqb (RepositoryID chunk) ""
  then {| ID := ID chunk; RepositoryID := "repo-id";
          FilePath := FilePath chunk; StartLine := StartLine chunk;
          EndLine := EndLine chunk; Content := Content chunk;
          ChunkLanguage := ChunkLanguage chunk;
          ChunkSizeBytes := ChunkSizeBytes chunk; Hash := Hash chunk |}
  else chunk.

(** [fmt.Sprintf("File: %s\nLanguage: %s\nContent:\n%s", ...)] *)
Definition embeddingText (chunk : FileChunk) : string :=
  "File: " +:+ FilePath chunk +:+ newline +:+ "Language: "
  +:+ ChunkLanguage chunk +:+ newline +:+ "Content:" +:+ newline
  +:+ Content chunk.

Definition GenerateEmbeddings (chunks : list FileChunk)
  : result (list (EmbeddedChunk float32)) :=
  match chunks with
  | [] => Ok []
  | _ =>
    let chunks := map withRepositoryID chunks in
    let texts := map embeddingText chunks in
    let embeddingModel := GetDefaultModel in
    match embeddingClient texts embeddingModel with
    | Err e => Err (Errorf "failed to generate embeddings" e)
    | Ok embeddings =>
      if negb (length embeddings =? length chunks)%nat
      then Err (GoError ("embedding count mismatch: got "
                         +:+ itoa (Z.of_nat (length embeddings))
                         +:+ ", expected "
                         +:+ itoa (Z.of_nat (length chunks))))
      else
        Ok (imap (fun i ce =>
                    {| Chunk := fst ce;
                       Embedding := snd ce;
                       EmbeddingModel := "text-embedding-3-small";
                       Ingest.CreatedAt := clock i |})
              (zip chunks embeddings))
    end
  end.

(** *** inline.go: the pipeline of one job *)

Definition withState (job : IngestionJob) (state : IngestionState)
  : IngestionJob := {|
  JobID := JobID job; JobRepositoryID := JobRepositoryID job;
  JobTenantID := JobTenantID job; JobStatus := state;
  JobProgress := JobProgress job; Request := Request job;
  JobCreatedAt := JobCreatedAt job |}.

Definition withProgress (job : IngestionJob) (percent : Z) : IngestionJob := {|
  JobID := JobID job; JobRepositoryID := JobRepositoryID job;
  JobTenantID := JobTenantID job; JobStatus := JobStatus job;
  JobProgress := percent; Request := Request job;
  JobCreatedAt := JobCreatedAt job |}.

Definition withCache (b : Backends W) (w : World) : Backends W :=
  {| cache := w; routing := routing b; store := store b |}.

(** The status that [updateJobStatus] and [processRepositoryAsync] write
    for a job. *)
Definition cachedStatus (job : IngestionJob) (errorMessage : string)
  : CachedUploadStatus := {|
  UploadID := JobID job;
  CachedRepositoryID := JobRepositoryID job;
  Status := JobStatus job;
  ProgressPercent := JobProgress job;
  ErrorMessage := errorMessage;
  Upload.CreatedAt := JobCreatedAt job |}.

(** [updateJobStatus]. The error message of a job is empty until
    [processRepositoryAsync] sets it; the error of [SetUploadStatus] is
    dropped. *)
Definition updateJobStatus (job : IngestionJob) (b : Backends W)
  : Backends W :=
  withCache b (snd (SetUploadStatus (JobTenantID job) (cachedStatus job "")
                      (cache b))).

(** [SetRepositoryIndex] *)
Definition SetRepositoryIndex (tenantID repoKey indexID : string)
    (b : Backends W) : option error * Backends W :=
  if redis_up (cache b)
  then (None, {| cache := cache b;
                 routing := <[repositoryKey tenantID repoKey := indexID]>
                              (routing b);
                 store := store b |})
  else (Some redis_down, b).

(** [extractRepositoryName] of inline.go *)
Definition extractRepositoryName (source : RepositorySource) : string :=
  match source with
  | GitUrl url _ =>
    match last (Split url "/") with
    | Some name => TrimSuffix name ".git"
    | None => "unknown"
    end
  | UploadedFilename filename _ =>
    let name := filepath_Base filename in
    TrimSuffix name (filepath_Ext name)
  end.

(** [processRepository]: the error it returns ([Ok tt] for [nil]), the job
    as it leaves it, and the backends. *)
Definition processRepository (job : IngestionJob) (b : Backends W)
  : outcome unit * IngestionJob * Backends W :=
  let req := Request job in
  let job := withState job STATE_EXTRACTING in
  let b := updateJobStatus job b in
  match ExtractRepository (ReqSource req)
          (filepath_Join workDir (ReqRepositoryID req)) with
  | Err e => (Return (Err (Errorf "failed to extract repository" e)), job, b)
  | Ok extractResult =>
    let job := withState job STATE_CHUNKING in
    let b := updateJobStatus job b in
    let excludePatterns :=
      match ReqOptions req with
      | Some o => OptExcludePatterns o
      | None => []
      end in
    let includePatterns :=
      match ReqOptions req with
      | Some o => OptIncludePatterns o
      | None => []
      end in
    let maxFileSizeMb :=
      match ReqOptions req with
      | Some o => if MaxFileSizeMb o >? 0 then MaxFileSizeMb o else 10
      | None => 10
      end in
    let chunkOptions := {|
      ChunkSize := 100;
      ChunkOverlap := 10;
      ExcludePatterns := excludePatterns;
      IncludePatterns := includePatterns;
      MaxFileSize := wrap64 (wrap64 (maxFileSizeMb * 1024) * 1024) |} in
    match ChunkFiles extractResult chunkOptions with
    | Panic => (Panic, job, b)
    | OutOfFuel => (OutOfFuel, job, b)
    | Return (Err e) =>
      (Return (Err (Errorf "failed to chunk files" e)), job, b)
    | Return (Ok chunks) =>
      let job := withState job STATE_EMBEDDING in
      let b := updateJobStatus job b in
      match GenerateEmbeddings chunks with
      | Err e =>
        (Return (Err (Errorf "failed to generate embeddings" e)), job, b)
      | Ok embeddedChunks =>
        let job := withState job STATE_INDEXING in
        let b := updateJobStatus job b in
        match IndexEmbeddings (ReqRepositoryID req) embeddedChunks (store b)
        with
        | (Some e, s) =>
          (Return (Err (Errorf "failed to index embeddings" e)), job,
           {| cache := cache b; routing := routing b; store := s |})
        | (None, s) =>
          let b := {| cache := cache b; routing := routing b; store := s |} in
          let job := withProgress (withState job STATE_READY) 100 in
          let b := updateJobStatus job b in
          let repository := {|
            RepositoryId := ReqRepositoryID req;
            Name := extractRepositoryName (ReqSource req);
            Description := "";
            Source := ReqSource req;
            IngestionStatus := JobStatus job;
            RepoCreatedAt := JobCreatedAt job |} in
          match SetRepositoryMetadata (ReqTenantID req) repository (cache b)
          with
          | (Some e, w) =>
            (Return (Err (Errorf "failed to store repository metadata" e)),
             job, withCache b w)
          | (None, w) =>
            let b := withCache b w in
            let repoKey := generateRepoKey (ReqSource req) in
            match SetRepositoryIndex (ReqTenantID req) repoKey
                    (ReqRepositoryID req) b with
            | (Some e, b) =>
              (Return (Err (Errorf "failed to set repository routing" e)),
               job, b)
            | (None, b) => (Return (Ok tt), job, b)
            end
          end
        end
      end
    end
  end.

(** [processRepositoryAsync], the body of the goroutine that
    [CreateRepositoryIndex] starts: a panic of the pipeline is not
    recovered. *)
Definition processRepositoryAsync (job : IngestionJob) (b : Backends W)
  : outcome unit * Backends W :=
  match processRepository job b with
  | (Return (Err e), job, b) =>
    let job := withState job STATE_FAILED in
    (Return (Ok tt),
     withCache b
       (snd (SetUploadStatus (JobTenantID job)
               (cachedStatus job (error_string e)) (cache b))))
  | (r, _, b) => (r, b)
  end.

End Processor.

End Processor.

(** ** internal/query/lexical_rg.go: [TruncateContent] *)

Module Truncation.

Import Proto.
Import Ingest (newline).

Section Truncate.

Context {F : Type}.

Definition len (s : string) : Z := Z.of_nat (String.length s).




End Truncate.

End Truncation.

(** ** internal/cache/redis.go: the cached form of a repository *)

Module RepositoryCache.

Section Cache.

(** The messages [IngestionStatus] and [RepositoryStats], which the
    conversions only hand on. *)
Context {IngestionStatus RepositoryStats : Type}.

(** The [oneof source] of a [RepositorySource]. *)
Inductive isRepositorySource_Source : Type :=
  | RepositorySource_GitUrl (GitUrl : string)
  | RepositorySource_UploadedFilename (UploadedFilename : string).

Record RepositorySource : Type := {
  Source : option isRepositorySource_Source;
  Ref : string;
  CommitSha : string
}.

(** [Repository]; a message that is not set is [None]. A timestamp is the
    time it stands for. *)
Record Repository : Type := {
  RepositoryId : string;
  Name : string;
  Description : string;
  RepoSource : option RepositorySource;
  RepoIngestionStatus : option IngestionStatus;
  Stats : option RepositoryStats;
  CreatedAt : option Z;
  UpdatedAt : option Z
}.

Record CachedRepositoryMetadata : Type := {
  CachedRepositoryID : string;
  CachedName : string;
  CachedDescription : string;
  GitURL : string;
  UploadedFile : string;
  CachedRef : string;
  CachedCommitSha : string;
  CachedIngestionStatus : option IngestionStatus;
  CachedStats : option RepositoryStats;
  CachedCreatedAt : Z;
  CachedUpdatedAt : Z
}.

(** [Timestamp.AsTime]: the time of a timestamp that is not set is the
    start of the epoch. *)
Definition AsTime (t : option Z) : Z :=
  match t with
  | Some time => time
  | None => 0
  end.

(** [timestamppb.New] *)
Definition timestamppb_New (time : Z) : option Z := Some time.

Definition toCachedRepo (repo : Repository) : CachedRepositoryMetadata :=
  let ref :=
    match RepoSource repo with
    | Some source => Ref source
    | None => ""
    end in
  let commitSha :=
    match RepoSource repo with
    | Some source => CommitSha source
    | None => ""
    end in
  let gitURL :=
    match RepoSource repo with
    | Some {| Source := Some (RepositorySource_GitUrl url) |} => url
    | _ => ""
    end in
  let uploadedFile :=
    match RepoSource repo with
    | Some {| Source := Some (RepositorySource_UploadedFilename name) |} =>
      name
    | _ => ""
    end in
  {| CachedRepositoryID := RepositoryId repo;
     CachedName := Name repo;
     CachedDescription := Description repo;
     GitURL := gitURL;
     UploadedFile := uploadedFile;
     CachedRef := ref;
     CachedCommitSha := commitSha;
     CachedIngestionStatus := RepoIngestionStatus repo;
     CachedStats := Stats repo;
     CachedCreatedAt := AsTime (CreatedAt repo);
     CachedUpdatedAt := AsTime (UpdatedAt repo) |}.

Definition fromCachedRepo (cached : CachedRepositoryMetadata) : Repository :=
  let source :=
    if negb (String.eqb (GitURL cached) "")
       || negb (String.eqb (UploadedFile cached) "")
    then
      Some {| Ref := CachedRef cached;
              CommitSha := CachedCommitSha cached;
              Source :=
                if negb (String.eqb (GitURL cached) "")
                then Some (RepositorySource_GitUrl (GitURL cached))
                else if negb (String.eqb (UploadedFile cached) "")
                then Some (RepositorySource_UploadedFilename
                             (UploadedFile cached))
                else None |}
    else None in
  {| RepositoryId := CachedRepositoryID cached;
     Name := CachedName cached;
     Description := CachedDescription cached;
     RepoSource := source;
     RepoIngestionStatus := CachedIngestionStatus cached;
     Stats := CachedStats cached;
     CreatedAt := timestamppb_New (CachedCreatedAt cached);
     UpdatedAt := timestamppb_New (CachedUpdatedAt cached) |}.

End Cache.

Arguments Repository : clear implicits.
Arguments CachedRepositoryMetadata : clear implicits.

End RepositoryCache.

(** * Facts *)

(** ** Machine integers *)

Lemma wrap64_id z : int64_range z -> wrap64 z = z.
Proof.
  unfold int64_range, wrap64. intros H.
  rewrite Z.mod_small by lia. lia.
Qed.

Lemma wrap32_id z : int32_range z -> wrap32 z = z.
Proof.
  unfold int32_range, wrap32. intros H.
  rewrite Z.mod_small by lia. lia.
Qed.

(** ** Go strings *)

Module GoStringsFacts.

Lemma length_sdrop n s : String.length (sdrop n s) = (String.length s - n)%nat.
Proof.
  revert s. induction n as [|n IH]; intros [|c s]; simpl; auto with lia.
Qed.

Lemma sdrop_app n x y :
  (n <= String.length x)%nat -> sdrop n (x +:+ y) = sdrop n x +:+ y.
Proof.
  revert x. induction n as [|n IH]; intros [|c x] H; simpl in *;
    try reflexivity; try lia.
  apply IH. lia.
Qed.

Lemma stake_app n x y :
  (n <= String.length x)%nat -> stake n (x +:+ y) = stake n x.
Proof.
  revert x. induction n as [|n IH]; intros [|c x] H; simpl in *;
    try reflexivity; try lia.
  f_equal. apply IH. lia.
Qed.

Lemma append_cons c s t : String c s +:+ t = String c (s +:+ t).
Proof. reflexivity. Qed.

Lemma append_empty t : EmptyString +:+ t = t.
Proof. reflexivity. Qed.

Lemma first_lo s0 sz lo hi :
  first s0 = Some (sz, lo, hi) -> (0x80 <= lo)%N.
Proof.
  unfold first.
  repeat match goal with
         | |- context [if ?b then _ else _] => destruct b
         end; intros H; inversion H; subst; lia.
Qed.

Lemma between_newline lo hi :
  (0x80 <= lo)%N -> between lo hi 10 = false.
Proof.
  intros H. unfold between.
  destruct (N.leb_spec lo 10); [lia | reflexivity].
Qed.

(** The width of a rune is at least one byte and stays within the string. *)
Lemma decode_width s r w :
  s <> EmptyString -> DecodeRuneInString s = (r, w) ->
  (1 <= w <= String.length s)%nat.
Proof.
  destruct s as [|c0 t0]; [congruence|]. intros _. unfold DecodeRuneInString.
  destruct (byte c0 <? 128)%N; [intros [= <- <-]; simpl; lia|].
  destruct (first (byte c0)) as [[[sz lo] hi]|]; [|intros [= <- <-]; simpl; lia].
  destruct t0 as [|c1 t1]; [intros [= <- <-]; simpl; lia|].
  destruct (negb (between lo hi (byte c1))); [intros [= <- <-]; simpl; lia|].
  destruct (sz <=? 2)%nat; [intros [= <- <-]; simpl; lia|].
  destruct t1 as [|c2 t2]; [intros [= <- <-]; simpl; lia|].
  destruct (negb (between 128 191 (byte c2))); [intros [= <- <-]; simpl; lia|].
  destruct (sz <=? 3)%nat; [intros [= <- <-]; simpl; lia|].
  destruct t2 as [|c3 t3]; [intros [= <- <-]; simpl; lia|].
  destruct (negb (between 128 191 (byte c3))); intros [= <- <-]; simpl; lia.
Qed.

(** A newline after [x] is never taken for a continuation byte, so the first
    rune of [x] does not depend on what follows the newline. *)
Lemma decode_before_newline x y :
  x <> EmptyString ->
  DecodeRuneInString (x +:+ String "010" y) = DecodeRuneInString x.
Proof.
  destruct x as [|c0 t0]; [congruence|]. intros _.
  rewrite append_cons. unfold DecodeRuneInString.
  destruct (byte c0 <? 128)%N; [reflexivity|].
  destruct (first (byte c0)) as [[[sz lo] hi]|] eqn:Hf; [|reflexivity].
  apply first_lo in Hf.
  destruct t0 as [|c1 t1]; rewrite ?append_cons, ?append_empty.
  { change (byte "010") with 10%N. rewrite between_newline by assumption.
    reflexivity. }
  destruct (negb (between lo hi (byte c1))); [reflexivity|].
  destruct (sz <=? 2)%nat; [reflexivity|].
  destruct t1 as [|c2 t2]; rewrite ?append_cons, ?append_empty.
  { change (byte "010") with 10%N. rewrite between_newline by lia.
    reflexivity. }
  destruct (negb (between 128 191 (byte c2))); [reflexivity|].
  destruct (sz <=? 3)%nat; [reflexivity|].
  destruct t2 as [|c3 t3]; rewrite ?append_cons, ?append_empty.
  { change (byte "010") with 10%N. rewrite between_newline by lia.
    reflexivity. }
  reflexivity.
Qed.

Lemma runes_upto_enough n s :
  (String.length s <= n)%nat -> runes_upto n s = runes s.
Proof.
  unfold runes.
  remember (String.length s) as m eqn:Hm.
  revert n s Hm. induction m as [m IH] using lt_wf_ind. intros n s Hm Hn.
  destruct s as [|c t].
  { subst m. destruct n; reflexivity. }
  destruct n as [|n]; [simpl in Hm; lia|].
  destruct m as [|m]; [simpl in Hm; lia|].
  cbn [runes_upto].
  destruct (DecodeRuneInString (String c t)) as [r w] eqn:Hd.
  apply decode_width in Hd as Hw; [|congruence].
  f_equal.
  assert (Hlen : String.length (sdrop w (String c t)) = (S m - w)%nat)
    by (rewrite length_sdrop; lia).
  rewrite (IH (S m - w)%nat ltac:(lia) n _ (eq_sym Hlen) ltac:(lia)).
  rewrite (IH (S m - w)%nat ltac:(lia) m _ (eq_sym Hlen) ltac:(lia)).
  reflexivity.
Qed.

Lemma runes_cons s r w :
  s <> EmptyString -> DecodeRuneInString s = (r, w) ->
  runes s = (r, stake w s) :: runes (sdrop w s).
Proof.
  intros Hs Hd. apply decode_width in Hd as Hw; [|assumption].
  unfold runes at 1. destruct s as [|c t]; [congruence|].
  cbn [String.length runes_upto]. rewrite Hd. f_equal.
  apply runes_upto_enough. rewrite length_sdrop. simpl. lia.
Qed.

Lemma runes_empty : runes EmptyString = [].
Proof. reflexivity. Qed.

(** Decoding stops at a newline and starts again after it. *)
Lemma runes_app_newline x y :
  runes (x +:+ String "010" y)
  = runes x ++ (10%N, String "010" EmptyString) :: runes y.
Proof.
  remember (String.length x) as m eqn:Hm.
  revert x Hm. induction m as [m IH] using lt_wf_ind. intros x Hm.
  destruct x as [|c t].
  { rewrite append_empty, runes_empty. simpl.
    rewrite (runes_cons (String "010" y) 10%N 1%nat); [|congruence|reflexivity].
    reflexivity. }
  destruct (DecodeRuneInString (String c t)) as [r w] eqn:Hd.
  apply decode_width in Hd as Hw; [|congruence].
  rewrite (runes_cons _ r w); [|rewrite append_cons; congruence|].
  2:{ rewrite decode_before_newline by congruence. exact Hd. }
  rewrite (runes_cons (String c t) r w); [|congruence|exact Hd].
  rewrite stake_app by lia. rewrite sdrop_app by lia.
  rewrite (IH (String.length (sdrop w (String c t)))); [reflexivity| |reflexivity].
  rewrite length_sdrop. subst m. lia.
Qed.

Lemma blank_app_newline x y :
  TrimSpace_is_empty (x +:+ String "010" y)
  = TrimSpace_is_empty x && TrimSpace_is_empty y.
Proof.
  unfold TrimSpace_is_empty. rewrite runes_app_newline.
  rewrite forallb_app. simpl. reflexivity.
Qed.

Lemma blank_empty : TrimSpace_is_empty EmptyString = true.
Proof. reflexivity. Qed.

(** A window of lines is blank exactly when each of its lines is. *)
Lemma blank_join lines :
  TrimSpace_is_empty (Join lines Ingest.newline)
  = forallb TrimSpace_is_empty lines.
Proof.
  induction lines as [|x [|y rest] IH].
  - reflexivity.
  - simpl. rewrite andb_true_r. reflexivity.
  - change (Join (x :: y :: rest) Ingest.newline)
      with (x +:+ Ingest.newline +:+ Join (y :: rest) Ingest.newline).
    unfold Ingest.newline at 1. rewrite append_cons, append_empty.
    rewrite blank_app_newline, IH. reflexivity.
Qed.

Lemma blank_join_drop lines n :
  TrimSpace_is_empty (Join lines Ingest.newline) = true ->
  TrimSpace_is_empty (Join (drop n lines) Ingest.newline) = true.
Proof.
  rewrite !blank_join, !forallb_forall. intros H x Hx. apply H.
  apply list_elem_of_In. apply list_elem_of_In in Hx.
  eapply subseteq_drop. exact Hx.
Qed.

(** No field starts in a string without a non-space rune. *)
Lemma Fields_blank s : TrimSpace_is_empty s = true -> Fields s = [].
Proof.
  unfold TrimSpace_is_empty, Fields.
  induction (runes s) as [|[r bs] rs IH]; [reflexivity|].
  simpl. intros H. apply andb_prop in H as [Hr Hrs].
  rewrite Hr. auto.
Qed.

End GoStringsFacts.

(** ** The chunker *)

Module IngestFacts.

Import Ingest.
Import GoStringsFacts.

Section ChunkLoop.

Variable lines : list string.
Variable fileInfo : FileInfo.
Variable options : ChunkOptions.

Hypothesis size_pos : 0 < ChunkSize options < 2 ^ 61.
Hypothesis overlap_less : - 2 ^ 61 < ChunkOverlap options < ChunkSize options.
Hypothesis len_small : Z.of_nat (length lines) < 2 ^ 61.

Lemma before_final k :
  (k < final_window lines options)%nat ->
  window_start options k + ChunkSize options < Z.of_nat (length lines).
Proof.
  unfold final_window, window_start.
  set (len := Z.of_nat (length lines)).
  set (step := ChunkSize options - ChunkOverlap options).
  set (size := ChunkSize options) in *.
  destruct (Z.leb_spec len size); [lia|]. intros Hk.
  assert (0 < step) by (unfold step; lia).
  pose proof (Z.mul_div_le (len - size + step - 1) step ltac:(lia)) as Hq.
  revert Hk Hq. generalize ((len - size + step - 1) / step). intros q Hk Hq.
  assert (step * (Z.of_nat k + 1) <= step * q)
    by (apply Z.mul_le_mono_nonneg_l; lia).
  lia.
Qed.

Lemma final_reaches_end :
  Z.of_nat (length lines)
  <= window_start options (final_window lines options) + ChunkSize options.
Proof.
  unfold final_window, window_start.
  set (len := Z.of_nat (length lines)).
  set (step := ChunkSize options - ChunkOverlap options).
  set (size := ChunkSize options) in *.
  destruct (Z.leb_spec len size); [lia|].
  assert (0 < step) by (unfold step; lia).
  rewrite Z2Nat.id by (apply Z.div_pos; lia).
  pose proof (Z.mod_pos_bound (len - size + step - 1) step ltac:(lia)) as Hm.
  pose proof (Z.div_mod (len - size + step - 1) step ltac:(lia)) as Hd.
  revert Hm Hd. generalize ((len - size + step - 1) / step).
  generalize ((len - size + step - 1) mod step). intros m q Hm Hd.
  lia.
Qed.

(** The chunk the loop builds at index [i] for the window ending at
    [endIdx]. *)
Definition loop_chunk (i endIdx : Z) : FileChunk :=
  let content :=
    Join (take (Z.to_nat (endIdx - i)) (drop (Z.to_nat i) lines)) newline in
  {| ID := generateChunkID (Path fileInfo) (i + 1) endIdx;
     RepositoryID := "";
     FilePath := Path fileInfo;
     StartLine := i + 1;
     EndLine := endIdx;
     Content := content;
     ChunkLanguage := Language fileInfo;
     ChunkSizeBytes := Z.of_nat (String.length content);
     Hash := hashContent content |}.

(** One turn of the loop, away from the limits of [int]. *)
Lemma chunkLoop_turn fuel i chunks :
  0 <= i < Z.of_nat (length lines) ->
  chunkLoop (S fuel) lines fileInfo options i chunks =
  let endIdx := Z.min (i + ChunkSize options) (Z.of_nat (length lines)) in
  let next := i + (ChunkSize options - ChunkOverlap options) in
  if (endIdx - i <? ChunkSize options / 10) && (0 <? i)
  then Return (Ok chunks)
  else if TrimSpace_is_empty (Content (loop_chunk i endIdx))
  then chunkLoop fuel lines fileInfo options next chunks
  else if Z.of_nat (length lines) <=? endIdx
  then Return (Ok (chunks ++ [loop_chunk i endIdx]))
  else chunkLoop fuel lines fileInfo options next
         (chunks ++ [loop_chunk i endIdx]).
Proof.
  intros Hi. cbn [chunkLoop]. cbv zeta.
  assert (Hlt : (i <? Z.of_nat (length lines)) = true) by lia.
  rewrite Hlt. cbn [negb].
  rewrite (wrap64_id (i + ChunkSize options)) by (unfold int64_range; lia).
  replace (if i + ChunkSize options >? Z.of_nat (length lines)
           then Z.of_nat (length lines) else i + ChunkSize options)
    with (Z.min (i + ChunkSize options) (Z.of_nat (length lines)))
    by (destruct (Z.gtb_spec (i + ChunkSize options) (Z.of_nat (length lines)));
        lia).
  set (endIdx := Z.min (i + ChunkSize options) (Z.of_nat (length lines))).
  assert (Hend : i < endIdx <= Z.of_nat (length lines)) by (unfold endIdx; lia).
  rewrite (wrap64_id (endIdx - i)) by (unfold int64_range; lia).
  rewrite (wrap64_id (ChunkSize options - ChunkOverlap options))
    by (unfold int64_range; lia).
  rewrite (wrap64_id (i + _)) by (unfold int64_range; lia).
  rewrite (wrap64_id (i + 1)) by (unfold int64_range; lia).
  rewrite (wrap64_id (endIdx + 1)) by (unfold int64_range; lia).
  rewrite (wrap64_id (endIdx + 1 - 1)) by (unfold int64_range; lia).
  replace (endIdx + 1 - 1) with endIdx by lia.
  rewrite Z.quot_div_nonneg by lia.
  rewrite (Z.gtb_ltb i 0).
  destruct ((endIdx - i <? ChunkSize options / 10) && (0 <? i));
    [reflexivity|].
  unfold slice.
  assert (Hs : (0 <=? i) && (i <=? endIdx)
               && (endIdx <=? Z.of_nat (length lines)) = true) by lia.
  rewrite Hs.
  rewrite (Z.geb_leb endIdx).
  reflexivity.
Qed.

Lemma loop_chunk_window k :
  loop_chunk (window_start options k) (window_end lines options k)
  = window_chunk lines fileInfo options k.
Proof. reflexivity. Qed.

Lemma window_start_succ k :
  window_start options (S k)
  = window_start options k + (ChunkSize options - ChunkOverlap options).
Proof. unfold window_start. lia. Qed.

Lemma window_start_nonneg k : 0 <= window_start options k.
Proof. unfold window_start. nia. Qed.

(** Once a blank window has reached the last line, the windows after it lie
    inside it: the loop goes on and adds nothing. *)
Lemma chunkLoop_blank_tail fuel : forall i0 i chunks,
  0 <= i0 <= i -> 0 < i ->
  TrimSpace_is_empty (Join (drop (Z.to_nat i0) lines) newline) = true ->
  Z.of_nat (length lines) <= i + ChunkSize options ->
  Z.max 0 (Z.of_nat (length lines) - i) < Z.of_nat fuel ->
  chunkLoop fuel lines fileInfo options i chunks = Return (Ok chunks).
Proof.
  induction fuel as [|fuel IH]; intros i0 i chunks Hi0 Hi Hblank Hend Hfuel;
    [lia|].
  destruct (Z.ltb_spec i (Z.of_nat (length lines))) as [Hlt|Hge].
  2:{ cbn [chunkLoop]. cbv zeta.
      assert (Hf : (i <? Z.of_nat (length lines)) = false) by lia.
      rewrite Hf. reflexivity. }
  rewrite chunkLoop_turn by lia. cbv zeta.
  rewrite Z.min_r by lia.
  destruct ((Z.of_nat (length lines) - i <? ChunkSize options / 10)
            && (0 <? i)); [reflexivity|].
  assert (Hb : TrimSpace_is_empty
                 (Content (loop_chunk i (Z.of_nat (length lines)))) = true).
  { cbn [Content loop_chunk].
    rewrite take_ge by (rewrite length_drop; lia).
    replace (Z.to_nat i) with (Z.to_nat i0 + (Z.to_nat i - Z.to_nat i0))%nat
      by lia.
    rewrite <- drop_drop. apply blank_join_drop. exact Hblank. }
  rewrite Hb.
  apply (IH i0); try lia. exact Hblank.
Qed.

(** The loop entered at window [k] emits the windows from [k] on. *)
Lemma chunkLoop_windows fuel : forall k chunks,
  (k <= final_window lines options)%nat ->
  Z.max 0 (Z.of_nat (length lines) - window_start options k) < Z.of_nat fuel ->
  chunkLoop fuel lines fileInfo options (window_start options k) chunks
  = Return (Ok (chunks ++
      map (window_chunk lines fileInfo options)
        (List.filter (emitted lines options (below_tenth lines options))
           (seq k (S (final_window lines options) - k))))).
Proof.
  induction fuel as [|fuel IH]; intros k chunks Hk Hfuel; [lia|].
  pose proof (window_start_nonneg k) as Hnn.
  replace (S (final_window lines options) - k)%nat
    with (S (final_window lines options - k)) by lia.
  cbn [seq List.filter].
  destruct (Nat.eq_dec k (final_window lines options)) as [Hfin|Hne].
  - (* the final window *)
    pose proof final_reaches_end as Hreach. rewrite <- Hfin in Hreach.
    replace (final_window lines options - k)%nat with 0%nat by lia.
    cbn [seq List.filter].
    destruct (Z.ltb_spec (window_start options k) (Z.of_nat (length lines)))
      as [Hlt|Hge].
    2:{ (* the file ended before this window: it is empty *)
        cbn [chunkLoop]. cbv zeta.
        assert (Hf : (window_start options k <? Z.of_nat (length lines))
                     = false) by lia.
        rewrite Hf. cbn [negb].
        assert (He : emitted lines options (below_tenth lines options) k
                     = false).
        { unfold emitted, window_content, window_lines, window_length,
            window_end.
          rewrite Z.min_r by lia.
          replace (Z.to_nat (Z.of_nat (length lines) - window_start options k))
            with 0%nat by lia.
          reflexivity. }
        rewrite He. cbn [map]. rewrite app_nil_r. reflexivity. }
    rewrite chunkLoop_turn by lia. cbv zeta.
    fold (window_end lines options k). rewrite loop_chunk_window.
    unfold emitted at 1. rewrite <- Hfin, Nat.eqb_refl.
    unfold below_tenth, window_length.
    assert (Hpos : (0 <? window_start options k) = (0 <? k)%nat).
    { unfold window_start.
      destruct k; [reflexivity|].
      assert (0 < Z.of_nat (S k) * (ChunkSize options - ChunkOverlap options))
        by nia.
      destruct (Z.ltb_spec 0
        (Z.of_nat (S k) * (ChunkSize options - ChunkOverlap options)));
        [reflexivity | lia]. }
    rewrite Hpos. cbn [andb].
    cbn [Content window_chunk].
    destruct ((window_end lines options k - window_start options k
               <? ChunkSize options / 10) && (0 <? k)%nat) eqn:Hshort.
    + rewrite andb_comm in Hshort. rewrite Hshort.
      cbn [negb]. rewrite andb_false_r. cbn [map]. rewrite app_nil_r.
      reflexivity.
    + rewrite andb_comm in Hshort. rewrite Hshort. cbn [negb].
      rewrite andb_true_r.
      destruct (TrimSpace_is_empty (window_content lines options k))
        eqn:Hblank.
      * cbn [negb map]. rewrite app_nil_r.
        apply (chunkLoop_blank_tail fuel (window_start options k)).
        -- lia.
        -- lia.
        -- unfold window_content, window_lines, window_length, window_end
             in Hblank.
           rewrite Z.min_r in Hblank by lia.
           rewrite take_ge in Hblank by (rewrite length_drop; lia).
           exact Hblank.
        -- lia.
        -- lia.
      * cbn [negb map].
        assert (Hle : (Z.of_nat (length lines) <=? window_end lines options k)
                      = true) by (unfold window_end; lia).
        rewrite Hle. reflexivity.
  - (* a window before the final one holds [ChunkSize] lines *)
    assert (Hlt : (k < final_window lines options)%nat) by lia.
    pose proof (before_final k Hlt) as Hfull.
    rewrite chunkLoop_turn by lia. cbv zeta.
    fold (window_end lines options k). rewrite loop_chunk_window.
    rewrite <- window_start_succ.
    assert (Hend : window_end lines options k
                   = window_start options k + ChunkSize options)
      by (unfold window_end; lia).
    assert (Hshort : (window_end lines options k - window_start options k
                      <? ChunkSize options / 10) = false).
    { rewrite Hend.
      pose proof (Z.div_lt (ChunkSize options) 10 ltac:(lia) ltac:(lia)).
      lia. }
    rewrite Hshort. cbn [andb].
    unfold emitted at 1.
    assert (Hk' : (k =? final_window lines options)%nat = false)
      by (apply Nat.eqb_neq; assumption).
    rewrite Hk'. cbn [andb negb]. rewrite andb_true_r.
    cbn [Content window_chunk].
    replace (final_window lines options - k)%nat
      with (S (final_window lines options) - S k)%nat by lia.
    destruct (TrimSpace_is_empty (window_content lines options k)).
    + cbn [negb]. apply IH; [lia|]. rewrite window_start_succ. lia.
    + cbn [negb map].
      assert (Hle : (Z.of_nat (length lines) <=? window_end lines options k)
                    = false) by lia.
      rewrite Hle. rewrite IH; [|lia|rewrite window_start_succ; lia].
      rewrite <- app_assoc. reflexivity.
Qed.


End ChunkLoop.

Definition example_file : FileInfo := {|
  Path := "a.go"; Size := 32; Language := "go";
  IsText := true; IsBinary := false; LineCount := 16
|}.

Definition example_options (chunkSize overlap : Z) : ChunkOptions := {|
  ChunkSize := chunkSize; ChunkOverlap := overlap;
  ExcludePatterns := []; IncludePatterns := []; MaxFileSize := 0
|}.


Definition short_file : list string := repeat "x" 16.



(** *** Chunk identities *)

Lemma length_stake n s :
  String.length (stake n s) = Nat.min n (String.length s).
Proof.
  revert s. induction n as [|n IH]; intros [|c s]; simpl; auto.
Qed.

Lemma length_hex bs : String.length (hex bs) = (2 * length bs)%nat.
Proof. induction bs as [|b bs IH]; simpl; lia. Qed.

Lemma length_Sum256 msg : length (Sha256.Sum256 msg) = 32%nat.
Proof.
  unfold Sha256.Sum256.
  destruct (Sha256.blocks _ _ _) as [[[[[[[a b] c] d] e] f] g] h].
  reflexivity.
Qed.

Lemma length_sha256_hex16 s : String.length (sha256_hex16 s) = 16%nat.
Proof.
  unfold sha256_hex16. rewrite length_stake, length_hex, length_Sum256.
  reflexivity.
Qed.

(** The identity of a chunk is computed from its path and line numbers. *)
Definition well_identified (c : FileChunk) : Prop :=
  ID c = generateChunkID (FilePath c) (StartLine c) (EndLine c).

Lemma chunkLoop_identified fuel lines fileInfo options :
  forall i chunks result,
  Forall well_identified chunks ->
  chunkLoop fuel lines fileInfo options i chunks = Return (Ok result) ->
  Forall well_identified result.
Proof.
  induction fuel as [|fuel IH]; intros i chunks result Hacc; [discriminate|].
  cbn [chunkLoop]. cbv zeta.
  repeat match goal with
         | |- context [if ?b then _ else _] => destruct b
         | |- context [match slice ?l ?a ?b with _ => _ end] =>
           destruct (slice l a b)
         | |- Return (Ok _) = Return (Ok _) -> _ =>
           intros [= <-]; try assumption
         | |- chunkLoop _ _ _ _ _ _ = _ -> _ =>
           apply IH; try assumption
         | |- Panic = _ -> _ => discriminate
         end.
  all: apply Forall_app; split; [assumption|];
    constructor; [reflexivity | constructor].
Qed.

(** More fuel does not change what a run returns. *)
Lemma chunkLoop_more_fuel fuel lines fileInfo options :
  forall fuel' i chunks r,
  chunkLoop fuel lines fileInfo options i chunks = Return r ->
  (fuel <= fuel')%nat ->
  chunkLoop fuel' lines fileInfo options i chunks = Return r.
Proof.
  induction fuel as [|fuel IH]; intros fuel' i chunks r; [discriminate|].
  intros H Hle. destruct fuel' as [|fuel']; [lia|].
  revert H. cbn [chunkLoop]. cbv zeta.
  repeat match goal with
         | |- context [if ?b then _ else _] => destruct b
         | |- context [match slice ?l ?a ?b with _ => _ end] =>
           destruct (slice l a b)
         | |- Return _ = Return _ -> _ => intros H; exact H
         | |- Panic = _ -> _ => discriminate
         | |- chunkLoop _ _ _ _ _ _ = _ -> _ =>
           intros H; apply IH; [exact H | lia]
         end.
Qed.

(** C9. Every chunk that [chunkFile] returns carries the first 16
    hexadecimal characters of the SHA-256 digest of
    [filepath:start_line-end_line], built from the chunk's own path and line
    numbers; so two chunks with the same path and line numbers have the same
    identity whatever file contents, options or run they come from, and two
    runs on the same file with the same options return the same chunks. *)
Theorem chunk_identity
    (fuel fuel' : nat) (lines lines' : list string)
    (filePath filePath' : string) (fileInfo fileInfo' : FileInfo)
    (options options' : ChunkOptions) (chunks chunks' : list FileChunk) :
  chunkFile fuel (Ok lines) filePath fileInfo options = Return (Ok chunks) ->
  chunkFile fuel' (Ok lines') filePath' fileInfo' options'
  = Return (Ok chunks') ->
  (forall c, In c chunks ->
     ID c = stake 16 (hex (Sha256.Sum256 (bytes_of
              (FilePath c +:+ ":" +:+ itoa (StartLine c) +:+ "-"
               +:+ itoa (EndLine c)))))
     /\ String.length (ID c) = 16%nat)
  /\ (forall c c', In c chunks -> In c' chunks' ->
        FilePath c = FilePath c' -> StartLine c = StartLine c' ->
        EndLine c = EndLine c' -> ID c = ID c')
  /\ (lines = lines' -> fileInfo = fileInfo' -> options = options' ->
      chunks = chunks').
Proof.
  unfold chunkFile. intros Hrun Hrun'.
  pose proof (chunkLoop_identified _ _ _ _ _ _ _ (List.Forall_nil _) Hrun) as Hid.
  pose proof (chunkLoop_identified _ _ _ _ _ _ _ (List.Forall_nil _) Hrun') as Hid'.
  rewrite List.Forall_forall in Hid, Hid'.
  split; [|split].
  - intros c Hc. specialize (Hid c Hc). red in Hid. split.
    + exact Hid.
    + rewrite Hid. apply length_sha256_hex16.
  - intros c c' Hc Hc' Hp Hs He.
    rewrite (Hid c Hc), (Hid' c' Hc'), Hp, Hs, He. reflexivity.
  - intros <- <- <-.
    apply (chunkLoop_more_fuel _ _ _ _ (Nat.max fuel fuel')) in Hrun;
      [|lia].
    apply (chunkLoop_more_fuel _ _ _ _ (Nat.max fuel fuel')) in Hrun';
      [|lia].
    congruence.
Qed.

Definition short_file_chunks : list FileChunk :=
  windows short_file example_file (example_options 15 0)
    (below_tenth short_file (example_options 15 0)).

Lemma chunk_identity_witness :
  chunkFile 17 (Ok short_file) "/work/a.go" example_file
    (example_options 15 0)
  = Return (Ok short_file_chunks)
  /\ chunkFile 40 (Ok short_file) "/work/a.go" example_file
       (example_options 15 0)
     = Return (Ok short_file_chunks)
  /\ (forall c, In c short_file_chunks ->
        ID c = stake 16 (hex (Sha256.Sum256 (bytes_of
                 (FilePath c +:+ ":" +:+ itoa (StartLine c) +:+ "-"
                  +:+ itoa (EndLine c)))))
        /\ String.length (ID c) = 16%nat)
  /\ (forall c c', In c short_file_chunks -> In c' short_file_chunks ->
        FilePath c = FilePath c' -> StartLine c = StartLine c' ->
        EndLine c = EndLine c' -> ID c = ID c')
  /\ (short_file = short_file -> example_file = example_file ->
      example_options 15 0 = example_options 15 0 ->
      short_file_chunks = short_file_chunks).
Proof.
  assert (Hrun : chunkFile 17 (Ok short_file) "/work/a.go" example_file
                   (example_options 15 0)
                 = Return (Ok short_file_chunks))
    by (vm_compute; reflexivity).
  assert (Hrun' : chunkFile 40 (Ok short_file) "/work/a.go" example_file
                    (example_options 15 0)
                  = Return (Ok short_file_chunks))
    by (vm_compute; reflexivity).
  split; [exact Hrun|]. split; [exact Hrun'|].
  exact (chunk_identity 17 40 short_file short_file "/work/a.go" "/work/a.go"
           example_file example_file (example_options 15 0)
           (example_options 15 0) short_file_chunks short_file_chunks
           Hrun Hrun').
Defined.

Example generateChunkID_example :
  generateChunkID "a.go" 1 15 = "eb22b66c09e49c3f".
Proof. vm_compute. reflexivity. Qed.

End IngestFacts.

(** ** Indexing into Weaviate *)

Module WeaviateFacts.

Import Ingest Weaviate.

Section Upsert.

Context {float32 : Type}.

Lemma copyProperties_id (metadata : gmap string any) :
  copyProperties metadata = metadata.
Proof.
  unfold copyProperties.
  apply (map_fold_weak_ind (fun properties m => properties = m)).
  - reflexivity.
  - intros key value m properties _ ->. reflexivity.
Qed.

(** The object that [UpsertVectors] writes for a vector: its metadata, and
    no vector. *)
Definition stored (collectionName : string) (vector : Vector float32)
  : Object float32 :=
  {| ObjClass := collectionName;
     ObjProperties := Metadata vector;
     ObjVector := [] |}.

Lemma toObject_stored collectionName (vector : Vector float32) :
  toObject collectionName vector = stored collectionName vector.
Proof. unfold toObject, stored. rewrite copyProperties_id. reflexivity. Qed.

Lemma UpsertVectors_ok collectionName (vectors : list (Vector float32))
    (w w' : Server float32) :
  Weaviate.UpsertVectors collectionName vectors w = (None, w') ->
  objects w' = objects w ++ map (stored collectionName) vectors
  /\ schema w' = schema w /\ reachable w' = reachable w.
Proof.
  unfold Weaviate.UpsertVectors. destruct vectors as [|v vs].
  - intros [= <-]. rewrite app_nil_r. auto.
  - destruct (negb (reachable w)); [discriminate|].
    intros [= <-]. cbn [objects schema reachable map].
    rewrite toObject_stored.
    rewrite (List.map_ext _ _ (toObject_stored collectionName)). auto.
Qed.

Lemma upsertBatches_ok steps className :
  forall i (vectors : list (Vector float32)) (w w' : Server float32),
  (length vectors <= steps)%nat ->
  upsertBatches steps className i vectors w = (None, w') ->
  objects w' = objects w ++ map (stored className) vectors.
Proof.
  induction steps as [|steps IH]; intros i vectors w w' Hlen.
  - destruct vectors; [|simpl in Hlen; lia].
    intros [= <-]. rewrite app_nil_r. reflexivity.
  - destruct vectors as [|v vs].
    { intros [= <-]. rewrite app_nil_r. reflexivity. }
    cbn [upsertBatches]. cbv zeta.
    destruct (Ingest.UpsertVectors className (take 100 (v :: vs)) w)
      as [[e|] w1] eqn:Hup; [discriminate|].
    intros Hrest.
    apply UpsertVectors_ok in Hup as (Hobj & _ & _).
    apply IH in Hrest.
    2:{ rewrite length_drop. simpl in *. lia. }
    rewrite Hrest, Hobj, <- app_assoc, <- map_app, take_drop. reflexivity.
Qed.

(** C1, the code. Whatever the repository and the batch of embedded chunks,
    a successful [IndexEmbeddings] adds one object per chunk to the
    collection; the object holds the chunk's metadata, and its vector is
    empty: the embedding passed in is not written. *)
Theorem IndexEmbeddings_writes_no_vector (repoID : string)
    (chunks : list (EmbeddedChunk float32)) (w w' : Server float32) :
  IndexEmbeddings repoID chunks w = (None, w') ->
  objects w'
  = objects w
    ++ map (fun chunk =>
              {| ObjClass := toWeaviateClassName repoID;
                 ObjProperties := Metadata (chunk_vector chunk);
                 ObjVector := [] |})
         chunks.
Proof.
  unfold IndexEmbeddings. destruct chunks as [|c cs].
  { intros [= <-]. rewrite app_nil_r. reflexivity. }
  destruct (Ingest.CreateCollection _ _ w) as [[e|] w1] eqn:Hcreate;
    [discriminate|].
  intros Hup. apply upsertBatches_ok in Hup; [|reflexivity].
  assert (Hobj : objects w1 = objects w).
  { revert Hcreate. cbn. unfold Weaviate.CreateCollection.
    destruct (negb (reachable w)); [discriminate|].
    destruct (schema w !! _); intros [= <-]; reflexivity. }
  rewrite Hup, Hobj, map_map. reflexivity.
Qed.

(** The metadata written for a chunk has the seven fields of the record. *)
Lemma chunk_vector_fields (chunk : EmbeddedChunk float32) :
  dom (Metadata (chunk_vector chunk))
  = list_to_set ["repository_id"; "file_path"; "start_line"; "end_line";
                 "language"; "size"; "created_at"].
Proof.
  unfold chunk_vector. cbn [Metadata].
  rewrite !dom_insert_L, dom_singleton_L. cbn. set_solver.
Qed.

End Upsert.

Definition example_chunk : EmbeddedChunk Q := {|
  Chunk := {| ID := "eb22b66c09e49c3f"; RepositoryID := "repo-1";
              FilePath := "a.go"; StartLine := 1; EndLine := 15;
              Content := "package a"; ChunkLanguage := "go";
              ChunkSizeBytes := 9; Hash := "" |};
  Embedding := [1 # 2; 1 # 4; 3 # 4]%Q;
  EmbeddingModel := "text-embedding-3-small";
  CreatedAt := 1700000000
|}.

Definition empty_server : Server Q :=
  {| schema := ∅; objects := []; reachable := true |}.

Definition example_indexed : Server Q :=
  snd (IndexEmbeddings "repo-1" [example_chunk] empty_server).

(** C1 at a concrete input: a chunk with the embedding [1/2, 1/4, 3/4] is
    indexed into an empty store. The call succeeds and the store holds one
    object of class [Repo1] with the chunk's metadata and no vector. *)
Lemma IndexEmbeddings_writes_no_vector_witness :
  IndexEmbeddings "repo-1" [example_chunk] empty_server
  = (None, example_indexed)
  /\ objects example_indexed
     = objects empty_server
       ++ map (fun chunk =>
                 {| ObjClass := toWeaviateClassName "repo-1";
                    ObjProperties := Metadata (chunk_vector chunk);
                    ObjVector := [] |})
            [example_chunk].
Proof.
  assert (H : IndexEmbeddings "repo-1" [example_chunk] empty_server
              = (None, example_indexed)) by reflexivity.
  split; [exact H|].
  exact (IndexEmbeddings_writes_no_vector "repo-1" [example_chunk]
           empty_server example_indexed H).
Defined.

Example example_indexed_vector :
  map ObjVector (objects example_indexed) = [[]]
  /\ Embedding example_chunk <> [].
Proof. split; [reflexivity | discriminate]. Qed.

End WeaviateFacts.

(** ** Accepting uploads *)

Module UploadFacts.

Import Upload.

Definition empty_world : World := {|
  upload_status := ∅; repo_meta := ∅; pipelines := [];
  now := 1000; redis_up := true
|}.

Definition example_request : UploadGitRepositoryRequest := {|
  TenantId := "local";
  IdempotencyKey := "k1";
  GitRepo := Some {| Url := "https://host/x/y.git"; Ref := "main" |};
  Options := None
|}.

Definition after_first : World :=
  snd (UploadGitRepository "local" example_request empty_world).

Definition after_second : World :=
  snd (UploadGitRepository "local" example_request after_first).

(** C3 at a concrete input. The request of scenario S1 is submitted twice.
    The first call stores a PENDING job for [repo-1000] under the key of
    ([local], [k1]) and starts its pipeline. The second call finds that job
    in the store but does not look: it answers with a new repository
    [repo-1002], starts a second pipeline and overwrites the stored job. *)
Theorem UploadGitRepository_resubmit_starts_again :
  fst (UploadGitRepository "local" example_request empty_world)
  = Ok {| UploadId := "k1"; ResponseRepositoryId := "repo-1000";
          ResponseAcceptedAt := 1001; ResponseStatus := STATE_PENDING |}
  /\ CachedRepositoryID
       <$> upload_status after_first !! uploadStatusKey "local" "k1"
     = Some "repo-1000"
  /\ length (pipelines after_first) = 1%nat
  /\ fst (UploadGitRepository "local" example_request after_first)
     = Ok {| UploadId := "k1"; ResponseRepositoryId := "repo-1002";
             ResponseAcceptedAt := 1003; ResponseStatus := STATE_PENDING |}
  /\ map JobRepositoryID (pipelines after_second) = ["repo-1000"; "repo-1002"]
  /\ CachedRepositoryID
       <$> upload_status after_second !! uploadStatusKey "local" "k1"
     = Some "repo-1002".
Proof. vm_compute. repeat split; reflexivity. Qed.

(** The streaming upload keeps the check: the same resubmission returns the
    stored job and starts nothing. *)
Example UploadRepository_resubmit_returns_existing :
  UploadRepository "local"
    (Ok {| FirstTenantId := "local"; FirstIdempotencyKey := "k1";
           FirstSource :=
             GitRepositorySource
               {| Url := "https://host/x/y.git"; Ref := "main" |};
           FirstOptions := None |})
    after_first
  = (Ok {| UploadId := "k1"; ResponseRepositoryId := "repo-1000";
           ResponseAcceptedAt := 1001; ResponseStatus := STATE_PENDING |},
     snd (generateRepositoryID after_first)).
Proof. vm_compute. reflexivity. Qed.

Section Resubmission.

Variable DefaultTenant : string.

(** In general: when Redis answers and the request names a Git URL,
    [UploadGitRepository] accepts the upload whatever the store holds for
    its key. The repository id in its answer is made from the clock, and
    one pipeline is started for it. *)
Lemma UploadGitRepository_always_starts (req : UploadGitRepositoryRequest)
    (g : GitRepository) (w : World) :
  redis_up w = true ->
  IdempotencyKey req <> "" ->
  GitRepo req = Some g ->
  Url g <> "" ->
  exists resp w' job,
    UploadGitRepository DefaultTenant req w = (Ok resp, w')
    /\ UploadId resp = IdempotencyKey req
    /\ ResponseRepositoryId resp = "repo-" +:+ itoa (now w)
    /\ pipelines w' = pipelines w ++ [job]
    /\ JobRepositoryID job = "repo-" +:+ itoa (now w).
Proof.
  intros Hup Hkey Hgit Hurl.
  unfold UploadGitRepository, generateRepositoryID, tick.
  apply String.eqb_neq in Hkey. rewrite Hkey, Hgit.
  apply String.eqb_neq in Hurl. rewrite Hurl.
  unfold CreateRepositoryIndex, tick, SetUploadStatus. cbn.
  rewrite Hup. cbn. unfold SetRepositoryMetadata. cbn. rewrite ?Hup. cbn.
  eexists _, _, _. repeat split; reflexivity.
Qed.

End Resubmission.

End UploadFacts.

(** ** The ripgrep client *)

Module LexicalFacts.

Import Lexical GoStringsFacts.

Section Search.

Context {F : Type}.
Variable ToLower : string -> string.
Variable Title : string -> string.
Variable rg : string -> string -> list string -> rg_result.
Variable parseRipgrepOutput :
  string -> string -> string -> list (Proto.CodeChunk F).

(** C10. A query in which no rune is a non-space rune has no fields, so
    [queryToRegex] fails with "empty query" and [SearchLexical] returns that
    error, wrapped, whatever the repository, the limit, the filters and the
    state of the working tree; ripgrep is not even run. *)
Theorem SearchLexical_blank_query (r : RipgrepClient) (repoID query : string)
    (limit : Z) (filters : gmap string Ingest.any) :
  forallb IsSpace (map fst (runes query)) = true ->
  SearchLexical ToLower Title rg parseRipgrepOutput r repoID query limit
    filters
  = Err (Errorf "failed to build ripgrep args"
           (Errorf "failed to convert query to regex"
              (GoError "empty query"))).
Proof.
  intros Hblank.
  assert (Hfields : Fields query = []).
  { apply Fields_blank. unfold TrimSpace_is_empty.
    revert Hblank. induction (runes query) as [|rb rs IH]; [reflexivity|].
    cbn [map forallb]. intros H. apply andb_prop in H as [-> H].
    exact (IH H). }
  unfold SearchLexical, buildRipgrepArgs, queryToRegex.
  rewrite Hfields. reflexivity.
Qed.

End Search.

Definition example_client : RipgrepClient :=
  {| workDir := "/data/repos"; maxMatches := 1000 |}.

Lemma SearchLexical_blank_query_witness :
  forallb IsSpace (map fst (runes "  	 ")) = true
  /\ SearchLexical (F := Q) (fun s => s) (fun s => s)
       (fun _ _ _ => RgOutput "") (fun _ _ _ => [])
       example_client "repo-1" "  	 " 10 ∅
     = Err (Errorf "failed to build ripgrep args"
              (Errorf "failed to convert query to regex"
                 (GoError "empty query"))).
Proof.
  assert (H : forallb IsSpace (map fst (runes "  	 ")) = true)
    by reflexivity.
  split; [exact H|].
  exact (SearchLexical_blank_query (fun s => s) (fun s => s)
           (fun _ _ _ => RgOutput "") (fun _ _ _ => [])
           example_client "repo-1" "  	 " 10 ∅ H).
Defined.

End LexicalFacts.

(** ** The result merger *)

Module MergerFacts.

Import Proto Merger.

(** *** Lines of a content *)







(** *** De-duplication of two chunks *)

(** Line numbers for which [StartLine - 5] and [EndLine + 5] do not wrap
    around in [int32]. *)
Definition lines_in_range {F} (c : CodeChunk F) : Prop :=
  - 2 ^ 31 + 5 <= StartLine c /\ EndLine c <= 2 ^ 31 - 6
  /\ int32_range (StartLine c) /\ int32_range (EndLine c).


Section Pair.

Context {F : Type}.
Variable gt : F -> F -> bool.

(** [>] on floating-point numbers is irreflexive and asymmetric. *)
Hypothesis gt_irrefl : forall x, gt x x = false.
Hypothesis gt_asym : forall x y, gt x y = true -> gt y x = false.




End Pair.

(** [a > b] on rational scores *)
Definition Qgt (a b : Q) : bool := negb (Qle_bool a b).



Definition example_chunk (startLine endLine : Z) (content : string)
    (score : Q) (source : SearchSource) : CodeChunk Q := {|
  RepositoryId := "repo-1"; FilePath := "auth.go";
  StartLine := startLine; EndLine := endLine;
  Content := content; Language := "go"; Symbol := "";
  Score := score; Source := source
|}.

Definition two_lines : string := "if ok {" +:+ Ingest.newline +:+ "}".

Definition lexical_hit : CodeChunk Q :=
  example_chunk 10 30 two_lines (1 # 2) SEARCH_SOURCE_LEXICAL.

Definition semantic_hit : CodeChunk Q :=
  example_chunk 12 28 "return authenticate(user, password)" (7 # 10)
    SEARCH_SOURCE_SEMANTIC.

Definition merged_hit : CodeChunk Q :=
  example_chunk 10 30 two_lines (7 # 10) SEARCH_SOURCE_MERGED.



(** *** Score normalization *)

Section Normalization.

Local Open Scope R_scope.
























End Normalization.

End MergerFacts.

(** ** The chat server *)

Module ChatFacts.

Import Proto Chat.

Section Server.

Context {F : Type}.
Variable MergeAndRank :
  list (CodeChunk F) -> list (CodeChunk F) -> list (CodeChunk F).
Variable decodeStreamResponse : string -> option (list string).
Variable DefaultTenant : string.
Variable composerStreamTokens : bool.
Variable send_err : nat -> option error.

(** *** Sending *)

Lemma Send_ok resp (sent sent' : list (ChatResponse F)) :
  Send send_err resp sent = (None, sent') -> sent' = sent ++ [resp].
Proof.
  unfold Send. destruct (send_err (length sent)); [discriminate|].
  intros [= <-]. reflexivity.
Qed.

Lemma andThen_ok (m k : step (F := F) (option error)) sent sent' :
  andThen m k sent = (None, sent') ->
  exists mid, m sent = (None, mid) /\ k mid = (None, sent').
Proof.
  unfold andThen. destruct (m sent) as [[e|] mid]; [discriminate|].
  intros H. exists mid. auto.
Qed.

Lemma sendHits_ok sessionId queryId phase (results : list (CodeChunk F)) :
  forall idx (sent sent' : list (ChatResponse F)),
  sendHits send_err sessionId queryId phase idx results sent = (None, sent') ->
  sent' = sent ++ imap (fun j chunk =>
                          SearchHit sessionId queryId phase
                            (wrap32 (idx + Z.of_nat j + 1)) chunk)
                    results.
Proof.
  induction results as [|r rs IH]; intros idx sent sent'; cbn [sendHits].
  - intros [= <-]. rewrite app_nil_r. reflexivity.
  - intros H. apply andThen_ok in H as (mid & Hsend & Hrest).
    apply Send_ok in Hsend as ->. apply IH in Hrest as ->.
    rewrite <- app_assoc. cbn [imap app]. rewrite Z.add_0_r.
    do 2 f_equal. apply imap_ext. intros j x _. cbn.
    do 2 f_equal. lia.
Qed.

(** The hits of a cycle, sent in two loops, are the expected hits. *)
Lemma hits_expected sessionId queryId (results : list (CodeChunk F)) :
  Z.of_nat (length results) < 2 ^ 31 ->
  (if (3 <=? length results)%nat
   then imap (fun j chunk =>
                SearchHit sessionId queryId HIT_PHASE_EARLY
                  (wrap32 (0 + Z.of_nat j + 1)) chunk)
          (take 3 results)
   else [])
  ++ imap (fun j chunk =>
             SearchHit sessionId queryId HIT_PHASE_FINAL
               (wrap32 (Z.of_nat (if (3 <=? length results)%nat
                                  then 3%nat else 0%nat)
                        + Z.of_nat j + 1)) chunk)
       (drop (if (3 <=? length results)%nat then 3%nat else 0%nat) results)
  = expected_hits sessionId queryId results.
Proof.
  intros Hlen. unfold expected_hits.
  destruct (Nat.leb_spec 3 (length results)) as [Hge|Hlt].
  - transitivity
      (imap (fun i chunk =>
               SearchHit sessionId queryId (hit_phase (length results) i)
                 (Z.of_nat i + 1) chunk)
         (take 3 results ++ drop 3 results));
      [|rewrite take_drop; reflexivity].
    rewrite imap_app. f_equal.
    + apply imap_ext. intros j x Hj. cbn.
      apply lookup_lt_Some in Hj. rewrite length_take in Hj.
      unfold hit_phase.
      destruct (Nat.leb_spec 3 (length results)); [|lia].
      destruct (Nat.ltb_spec j 3); [|lia]. cbn [andb].
      rewrite wrap32_id by (unfold int32_range; lia). f_equal.
    + apply imap_ext. intros j x Hj. cbn.
      apply lookup_lt_Some in Hj. rewrite length_drop in Hj.
      rewrite length_take. unfold hit_phase.
      destruct (Nat.ltb_spec (3 `min` length results + j) 3); [lia|].
      rewrite andb_false_r.
      rewrite wrap32_id by (unfold int32_range; lia). f_equal. lia.
  - cbn [app drop]. apply imap_ext. intros j x Hj. cbn.
    apply lookup_lt_Some in Hj. unfold hit_phase.
    destruct (Nat.leb_spec 3 (length results)); [lia|]. cbn [andb].
    rewrite wrap32_id by (unfold int32_range; lia). f_equal.
Qed.

(** *** The composer only sends tokens *)

Lemma scanEvents_tokens sessionId queryId scanErr lines :
  forall fullResponse tokenCount (sent sent' : list (ChatResponse F)) r,
  scanEvents decodeStreamResponse lines scanErr fullResponse tokenCount
    (fun token => Send send_err (CompositionToken sessionId queryId token))
    sent = (r, sent') ->
  exists tokens,
    sent' = sent ++ map (CompositionToken sessionId queryId) tokens.
Proof.
  induction lines as [|line rest IH];
    intros fullResponse tokenCount sent sent' r; cbn [scanEvents].
  - destruct scanErr; intros [= <- <-]; exists []; rewrite app_nil_r;
      reflexivity.
  - destruct (String.eqb line "" || HasPrefix line ":"); [apply IH|].
    destruct (HasPrefix line "data: "); [|apply IH].
    destruct (String.eqb (TrimPrefix line "data: ") "[DONE]").
    { intros [= <- <-]. exists []. rewrite app_nil_r. reflexivity. }
    destruct (decodeStreamResponse _) as [[|delta deltas]|]; try apply IH.
    destruct (String.eqb delta ""); [apply IH|].
    unfold Send at 1. destruct (send_err (length sent)).
    { intros [= <- <-]. exists []. rewrite app_nil_r. reflexivity. }
    intros H. apply IH in H as [tokens ->].
    exists (delta :: tokens). rewrite <- app_assoc. reflexivity.
Qed.

Lemma ComposeAnswerStream_tokens sessionId queryId a query chunks
    (sent sent' : list (ChatResponse F)) r :
  ComposeAnswerStream decodeStreamResponse composerStreamTokens a query chunks
    (fun token => Send send_err (CompositionToken sessionId queryId token))
    sent = (r, sent') ->
  exists tokens,
    sent' = sent ++ map (CompositionToken sessionId queryId) tokens.
Proof.
  unfold ComposeAnswerStream. destruct (negb composerStreamTokens).
  - destruct (ComposeAnswer a query chunks) as [result|e].
    + unfold Send. destruct (send_err (length sent)).
      * intros [= <- <-]. exists []. rewrite app_nil_r. reflexivity.
      * intros [= <- <-]. exists [FullResponse result]. reflexivity.
    + intros [= <- <-]. exists []. rewrite app_nil_r. reflexivity.
  - unfold makeStreamingAPICall.
    destruct (event_stream a) as [[lines scanErr]|e].
    + destruct (scanEvents _ _ _ _ _ _ sent) as [r0 sent0] eqn:Hscan.
      apply scanEvents_tokens in Hscan as [tokens ->].
      destruct r0 as [[fullResponse tokenCount]|e]; intros [= <- <-];
        exists tokens; reflexivity.
    + intros [= <- <-]. exists []. rewrite app_nil_r. reflexivity.
Qed.

(** *** The search *)

Lemma getTopK_range options :
  (forall o, options = Some o -> int32_range (MaxResults o)) ->
  0 < getTopK options < 2 ^ 31.
Proof.
  intros Hrange. unfold getTopK. destruct options as [o|]; [|lia].
  specialize (Hrange o eq_refl). unfold int32_range in Hrange.
  destruct (Z.gtb_spec (MaxResults o) 0); lia.
Qed.

Lemma performDualSearch_length a repositoryID queryText limit results :
  performDualSearch MergeAndRank a repositoryID queryText limit
  = Return (Ok results) ->
  Z.of_nat (length results) <= limit.
Proof.
  unfold performDualSearch.
  destruct (lexical a) as [lexicalResults|]; [|discriminate].
  destruct (generateQueryEmbedding a queryText) as [queryEmbedding|];
    [|discriminate].
  destruct (semantic a queryEmbedding) as [semanticResults|]; [|discriminate].
  unfold slice.
  destruct (_ && _) eqn:Hb; [|discriminate].
  intros [= <-]. rewrite length_take, length_drop.
  destruct (Z.ltb_spec
              (Z.of_nat (length (MergeAndRank lexicalResults semanticResults)))
              limit); lia.
Qed.

(** C2, the code. [performDualSearch] asks the lexical backend, the
    embedder and the semantic backend one after the other and returns at
    the first error. So when the lexical search fails it returns that error,
    whatever the semantic backend would answer; and when the lexical search
    succeeds and the semantic search fails it returns that error and drops
    the lexical results. In both cases the caller gets an error and no
    result. *)
Theorem performDualSearch_fails_fast (a : Answers F)
    (repositoryID queryText : string) (limit : Z) (e : error) :
  lexical a = Err e
  \/ (exists lexicalResults queryEmbedding,
        lexical a = Ok lexicalResults
        /\ generateQueryEmbedding a queryText = Ok queryEmbedding
        /\ semantic a queryEmbedding = Err e) ->
  performDualSearch MergeAndRank a repositoryID queryText limit
  = Return (Err (Errorf
                   match lexical a with
                   | Err _ => "lexical search failed"
                   | Ok _ => "semantic search failed"
                   end e)).
Proof.
  unfold performDualSearch.
  intros [-> | (lexicalResults & queryEmbedding & -> & -> & ->)];
    reflexivity.
Qed.

(** *** One query cycle *)

(** C4. A query cycle that runs to its end - [handleChatMessage] returns no
    error - has sent, after what the stream held before, exactly: one
    SearchStarted; one SearchHit per result, in rank order with ranks 1, 2,
    ..., the first three EARLY and the others FINAL when there are at
    least three results, all FINAL otherwise; one CompositionStarted with
    the number of results; the CompositionToken events; one
    CompositionComplete; one Complete. [MaxResults] is an [int32]. *)
Theorem handleChatMessage_cycle (a : Answers F) (session : ChatSession)
    (message : ChatMessage) (sent sent' : list (ChatResponse F)) :
  (forall o, Options session = Some o -> int32_range (MaxResults o)) ->
  handleChatMessage MergeAndRank decodeStreamResponse composerStreamTokens
    send_err a session message sent = (None, sent') ->
  exists results tokens result timings stats,
    performDualSearch MergeAndRank a (SessionRepositoryID session)
      (Query message) (getTopK (Options session)) = Return (Ok results)
    /\ sent' = sent ++ cycle_events (ID session) (generateQueryID a) results
                         tokens result timings stats.
Proof.
  intros Hrange. unfold handleChatMessage.
  intros H. apply andThen_ok in H as (s1 & Hstart & H).
  apply Send_ok in Hstart as ->.
  destruct (performDualSearch _ _ _ _ _) as [[results|e]| |] eqn:Hsearch;
    try discriminate.
  assert (Hlen : Z.of_nat (length results) < 2 ^ 31).
  { apply performDualSearch_length in Hsearch.
    pose proof (getTopK_range _ Hrange). lia. }
  apply andThen_ok in H as (s2 & Hearly & H).
  apply andThen_ok in H as (s3 & Hfinal & H).
  apply andThen_ok in H as (s4 & Hcomp & H).
  apply andThen_ok in H as (s5 & Hcomposed & Hcomplete).
  assert (Hc : exists tokens result,
             s5 = s4 ++ map (CompositionToken (ID session) (generateQueryID a))
                          tokens
                  ++ [CompositionComplete (ID session) (generateQueryID a)
                        (FullResponse result) (Citations result)]).
  { revert Hcomposed.
    assert (Hplain :
      match ComposeAnswer a (Query message) results with
      | Ok result =>
        Send send_err
          (CompositionComplete (ID session) (generateQueryID a)
             (FullResponse result) (Citations result))
      | Err e => ret (Some (status_Errorf Internal "composition failed" e))
      end s4 = (None, s5) ->
      exists tokens result,
        s5 = s4 ++ map (CompositionToken (ID session) (generateQueryID a))
                     tokens
             ++ [CompositionComplete (ID session) (generateQueryID a)
                   (FullResponse result) (Citations result)]).
    { destruct (ComposeAnswer a (Query message) results) as [result|e];
        [|discriminate].
      intros Hs. apply Send_ok in Hs as ->. exists [], result. reflexivity. }
    destruct (Options session) as [[maxResults [|] model]|]; try exact Hplain.
    cbv beta.
    destruct (ComposeAnswerStream _ _ _ _ _ _ s4) as [[result|e] s4']
      eqn:Hstream; [|discriminate].
    apply ComposeAnswerStream_tokens in Hstream as [tokens ->].
    intros Hs. apply Send_ok in Hs as ->.
    exists tokens, result. rewrite <- app_assoc. reflexivity. }
  destruct Hc as (tokens & result & ->).
  apply Send_ok in Hcomp as ->. apply Send_ok in Hcomplete as ->.
  apply sendHits_ok in Hfinal as ->.
  assert (Hs2 : s2 = (sent ++ [SearchStarted (ID session) (generateQueryID a)])
                     ++ (if (3 <=? length results)%nat
                         then imap (fun j chunk =>
                                SearchHit (ID session) (generateQueryID a)
                                  HIT_PHASE_EARLY
                                  (wrap32 (0 + Z.of_nat j + 1)) chunk)
                                (take 3 results)
                         else [])).
  { destruct (3 <=? length results)%nat.
    - apply sendHits_ok in Hearly. exact Hearly.
    - revert Hearly. unfold ret. intros [= <-]. rewrite app_nil_r.
      reflexivity. }
  subst s2.
  eexists results, tokens, result, _, _. split; [reflexivity|].
  unfold cycle_events.
  rewrite <- (hits_expected (ID session) (generateQueryID a) results Hlen).
  rewrite (wrap32_id (Z.of_nat (length results)))
    by (unfold int32_range; lia).
  rewrite <- !app_assoc. reflexivity.
Qed.

(** *** The session *)

(** C5 (as amended). A ChatMessage that arrives before any Start - the
    session is not set - ends the stream with FAILED_PRECONDITION and sends
    nothing; only a request that holds none of the three messages ends it
    with INVALID_ARGUMENT, wherever it comes; and a Cancel ends the stream
    without error, also before any Start. *)
Theorem ChatMessage_before_Start (message : ChatMessage) (a : Answers F)
    (rest : list (ChatRequest * Answers F)) (recvErr : error)
    (st : ServerState) :
  ChatWithRepository MergeAndRank decodeStreamResponse DefaultTenant
    composerStreamTokens send_err ((ReqChatMessage message, a) :: rest)
    recvErr st
  = (Some (StatusError FailedPrecondition "session not initialized"), st, [])
  /\ (forall session sent,
        chatLoop MergeAndRank decodeStreamResponse DefaultTenant
          composerStreamTokens send_err ((ReqUnset, a) :: rest) recvErr
          session st sent
        = (Some (StatusError InvalidArgument "unknown message type"),
           deferred session st, sent))
  /\ (forall sessionId,
        ChatWithRepository MergeAndRank decodeStreamResponse DefaultTenant
          composerStreamTokens send_err ((ReqCancel sessionId, a) :: rest)
          recvErr st
        = (None, st, [])).
Proof. repeat split. Qed.

End Server.

(** *** Concrete runs *)

Definition example_hit (path : string) (score : Q) (source : SearchSource)
  : CodeChunk Q := {|
  RepositoryId := "repo-1"; FilePath := path; StartLine := 10;
  EndLine := 12; Content := "func main() {}"; Language := "go";
  Symbol := ""; Score := score; Source := source
|}.

(** All collaborators answer: two lexical hits, two semantic hits, and an
    LLM that completes with one choice or streams two tokens. *)
Definition all_up : Answers Q := {|
  repository := Ok None;
  clock := 42;
  lexical := Ok [example_hit "main.go" (1 # 2) SEARCH_SOURCE_LEXICAL;
                 example_hit "auth.go" (1 # 4) SEARCH_SOURCE_LEXICAL];
  embeddings := Ok [[1 # 3; 2 # 3]%Q];
  semantic := fun _ =>
    Ok [example_hit "user.go" (9 # 10) SEARCH_SOURCE_SEMANTIC;
        example_hit "db.go" (8 # 10) SEARCH_SOURCE_SEMANTIC];
  completion := Ok ["See main.go"];
  event_stream := Ok (["data: a"; ""; "data: b"; "data: [DONE]"], None);
  compositionMs := 7
|}.

(** Ripgrep cannot be run; the semantic backend would answer. *)
Definition lexical_down : Answers Q := {|
  repository := repository all_up; clock := clock all_up;
  lexical := Err (GoError "ripgrep execution failed: exit status 2");
  embeddings := embeddings all_up; semantic := semantic all_up;
  completion := completion all_up; event_stream := event_stream all_up;
  compositionMs := compositionMs all_up
|}.

(** Weaviate cannot be reached; ripgrep answers. *)
Definition semantic_down : Answers Q := {|
  repository := repository all_up; clock := clock all_up;
  lexical := lexical all_up; embeddings := embeddings all_up;
  semantic := fun _ => Err (GoError "failed to execute search query");
  completion := completion all_up; event_stream := event_stream all_up;
  compositionMs := compositionMs all_up
|}.

(** A merger for the runs: the concatenation of the two lists. *)
Definition concat_merge (lexical semantic : list (CodeChunk Q))
  : list (CodeChunk Q) := lexical ++ semantic.

(** The payload of a [data:] line is taken as the token itself. *)
Definition token_of_payload (data : string) : option (list string) :=
  Some [data].

Definition never_fails (n : nat) : option error := None.

Definition example_session (streaming : bool) : ChatSession := {|
  ID := "session-1"; SessionRepositoryID := "repo-1"; TenantID := "local";
  Options := Some {| MaxResults := 10; StreamTokens := streaming;
                     Model := "" |};
  CreatedAt := 1; Active := true
|}.

Definition example_message : ChatMessage :=
  {| Query := "auth"; MessageSessionId := "session-1" |}.

(** C2 at a concrete input: ripgrep answers with two hits and Weaviate
    cannot be reached. The search returns the error of the semantic backend
    and none of the lexical hits. *)
Lemma performDualSearch_fails_fast_witness :
  (lexical semantic_down = Err (GoError "failed to execute search query")
   \/ (exists lexicalResults queryEmbedding,
         lexical semantic_down = Ok lexicalResults
         /\ generateQueryEmbedding semantic_down "auth" = Ok queryEmbedding
         /\ semantic semantic_down queryEmbedding
            = Err (GoError "failed to execute search query")))
  /\ performDualSearch concat_merge semantic_down "repo-1" "auth" 10
     = Return (Err (GoError
         "semantic search failed: failed to execute search query")).
Proof.
  assert (H : lexical semantic_down
              = Err (GoError "failed to execute search query")
              \/ (exists lexicalResults queryEmbedding,
                    lexical semantic_down = Ok lexicalResults
                    /\ generateQueryEmbedding semantic_down "auth"
                       = Ok queryEmbedding
                    /\ semantic semantic_down queryEmbedding
                       = Err (GoError "failed to execute search query"))).
  { right. eexists _, _. repeat split; reflexivity. }
  split; [exact H|].
  exact (performDualSearch_fails_fast concat_merge semantic_down "repo-1"
           "auth" 10 (GoError "failed to execute search query") H).
Defined.

(** With one backend down and the other answering, the search returns the
    error of the backend that is down, and the query cycle ends with an
    INTERNAL error right after SearchStarted. *)
Example performDualSearch_one_backend_down :
  performDualSearch concat_merge lexical_down "repo-1" "auth" 10
  = Return (Err (GoError
      "lexical search failed: ripgrep execution failed: exit status 2"))
  /\ performDualSearch concat_merge semantic_down "repo-1" "auth" 10
     = Return (Err (GoError
         "semantic search failed: failed to execute search query"))
  /\ semantic lexical_down [1 # 3; 2 # 3]%Q = semantic all_up [1 # 3; 2 # 3]%Q
  /\ lexical semantic_down = lexical all_up
  /\ handleChatMessage concat_merge token_of_payload true never_fails
       semantic_down (example_session true) example_message []
     = (Some (StatusError Internal
          "search failed: semantic search failed: failed to execute search query"),
        [SearchStarted "session-1" "query-42"]).
Proof. vm_compute. repeat split; reflexivity. Qed.

Definition example_cycle : list (ChatResponse Q) :=
  snd (handleChatMessage concat_merge token_of_payload true never_fails
         all_up (example_session true) example_message []).

Lemma handleChatMessage_cycle_witness :
  (forall o, Options (example_session true) = Some o ->
             int32_range (MaxResults o))
  /\ handleChatMessage concat_merge token_of_payload true never_fails
       all_up (example_session true) example_message []
     = (None, example_cycle)
  /\ exists results tokens result timings stats,
       performDualSearch concat_merge all_up
         (SessionRepositoryID (example_session true)) (Query example_message)
         (getTopK (Options (example_session true))) = Return (Ok results)
       /\ example_cycle
          = [] ++ cycle_events (ID (example_session true))
                    (generateQueryID all_up) results tokens result timings
                    stats.
Proof.
  assert (Hrange : forall o, Options (example_session true) = Some o ->
                             int32_range (MaxResults o)).
  { intros o [= <-]. unfold int32_range. cbn. lia. }
  assert (Hrun : handleChatMessage concat_merge token_of_payload true
                   never_fails all_up (example_session true) example_message
                   []
                 = (None, example_cycle)) by (vm_compute; reflexivity).
  split; [exact Hrange|]. split; [exact Hrun|].
  exact (handleChatMessage_cycle concat_merge token_of_payload true
           never_fails all_up (example_session true) example_message []
           example_cycle Hrange Hrun).
Defined.

Example example_cycle_events :
  example_cycle
  = [ SearchStarted "session-1" "query-42";
      SearchHit "session-1" "query-42" HIT_PHASE_EARLY 1
        (example_hit "main.go" (1 # 2) SEARCH_SOURCE_LEXICAL);
      SearchHit "session-1" "query-42" HIT_PHASE_EARLY 2
        (example_hit "auth.go" (1 # 4) SEARCH_SOURCE_LEXICAL);
      SearchHit "session-1" "query-42" HIT_PHASE_EARLY 3
        (example_hit "user.go" (9 # 10) SEARCH_SOURCE_SEMANTIC);
      SearchHit "session-1" "query-42" HIT_PHASE_FINAL 4
        (example_hit "db.go" (8 # 10) SEARCH_SOURCE_SEMANTIC);
      CompositionStarted "session-1" "query-42" 4;
      CompositionToken "session-1" "query-42" "a";
      CompositionToken "session-1" "query-42" "b";
      CompositionComplete "session-1" "query-42" "ab" [];
      Complete "session-1" "query-42"
        {| LexicalMs := 100; SemanticMs := 200; MergeMs := 10;
           CompositionMs := 7; CacheHit := false |}
        {| LexicalCandidates := 4; SemanticCandidates := 4;
           MergedResults := 4; ResultsTruncated := false |} ].
Proof. vm_compute. reflexivity. Qed.

Definition no_sessions : ServerState := {| sessions := ∅; cancelled := [] |}.

Definition EOF : error := GoError "EOF".

(** C5 (as stated) fails: a stream whose first message is a ChatMessage
    ends with the code FAILED_PRECONDITION, not INVALID_ARGUMENT; and a
    stream whose first message is a Cancel, which is out of order as well,
    ends without any error. *)
Lemma ChatMessage_first_counterexample :
  error_code
    (fst (fst (ChatWithRepository concat_merge token_of_payload "local" true
                 never_fails [(ReqChatMessage example_message, all_up)] EOF
                 no_sessions)))
  = Some FailedPrecondition
  /\ Some FailedPrecondition <> Some InvalidArgument
  /\ fst (fst (ChatWithRepository concat_merge token_of_payload "local" true
                 never_fails [(ReqCancel "session-1", all_up)] EOF
                 no_sessions))
     = None.
Proof. repeat split; discriminate. Qed.

End ChatFacts.

Module FmtFacts.

Import GoStringsFacts.

(** The value of a string of decimal digits, read from the left. *)
Fixpoint decimal_go (acc : Z) (s : string) : Z :=
  match s with
  | EmptyString => acc
  | String c s' => decimal_go (10 * acc + (Z.of_N (N_of_ascii c) - 48)) s'
  end.

Definition decimal (s : string) : Z := decimal_go 0 s.

Definition is_digit (c : ascii) : bool :=
  (48 <=? N_of_ascii c)%N && (N_of_ascii c <=? 57)%N.

Fixpoint all_chars (p : ascii -> bool) (s : string) : bool :=
  match s with
  | EmptyString => true
  | String c s' => p c && all_chars p s'
  end.

Lemma all_chars_app p s t :
  all_chars p (s +:+ t) = all_chars p s && all_chars p t.
Proof.
  induction s as [|c s IH]; cbn [all_chars]; rewrite ?append_empty,
    ?append_cons.
  - reflexivity.
  - cbn [all_chars]. rewrite IH, andb_assoc. reflexivity.
Qed.

Lemma append_assoc (s t u : string) : (s +:+ t) +:+ u = s +:+ (t +:+ u).
Proof.
  induction s as [|c s IH]; [reflexivity|].
  rewrite !append_cons, IH. reflexivity.
Qed.

Lemma digit_char_code d :
  0 <= d < 10 -> N_of_ascii (digit_char d) = Z.to_N (48 + d).
Proof.
  intros Hd. unfold digit_char. apply N_ascii_embedding. lia.
Qed.

Lemma digit_char_digit d : 0 <= d < 10 -> is_digit (digit_char d) = true.
Proof.
  intros Hd. unfold is_digit. rewrite digit_char_code by assumption.
  apply andb_true_intro. split; apply N.leb_le; lia.
Qed.

Lemma digits_upto_app n : forall z acc,
  digits_upto n z acc = digits_upto n z EmptyString +:+ acc.
Proof.
  induction n as [|n IH]; intros z acc; cbn [digits_upto].
  - reflexivity.
  - destruct (z <? 10); [reflexivity|].
    rewrite IH. rewrite (IH _ (String _ EmptyString)).
    rewrite append_assoc. reflexivity.
Qed.

Lemma decimal_go_app s : forall acc t,
  decimal_go acc (s +:+ t) = decimal_go (decimal_go acc s) t.
Proof.
  induction s as [|c s IH]; intros acc t; [reflexivity|].
  rewrite append_cons. cbn [decimal_go]. apply IH.
Qed.

(** [digits_upto] writes the decimal digits of [z] when it is given at least
    as many steps as [z] itself. *)
Lemma digits_upto_decimal n : forall z,
  (1 <= n)%nat -> 0 <= z <= Z.of_nat n ->
  decimal (digits_upto n z EmptyString) = z
  /\ all_chars is_digit (digits_upto n z EmptyString) = true
  /\ digits_upto n z EmptyString <> EmptyString.
Proof.
  induction n as [|n IH]; intros z Hn Hz; [lia|].
  cbn [digits_upto].
  assert (Hd : 0 <= z mod 10 < 10) by (apply Z.mod_pos_bound; lia).
  destruct (Z.ltb_spec z 10) as [Hlt|Hge].
  - unfold decimal. cbn [decimal_go all_chars].
    rewrite digit_char_code, digit_char_digit by assumption.
    rewrite Z.mod_small by lia. repeat split; [lia|discriminate].
  - assert (Hq : 0 <= z / 10 <= Z.of_nat n).
    { split; [apply Z.div_pos; lia|].
      assert (z / 10 < z) by (apply Z.div_lt; lia). lia. }
    destruct (IH (z / 10) ltac:(lia) Hq) as (Hval & Hall & Hne).
    rewrite digits_upto_app. unfold decimal in *.
    rewrite decimal_go_app, Hval, all_chars_app, Hall.
    cbn [decimal_go all_chars].
    rewrite digit_char_code, digit_char_digit by assumption.
    repeat split.
    + pose proof (Z.div_mod z 10 ltac:(lia)). lia.
    + destruct (digits_upto n (z / 10) EmptyString); [congruence|discriminate].
Qed.

(** What [itoa] prints for a number that is not negative: its decimal
    digits, at least one, and nothing else. *)
Lemma itoa_nonneg z :
  0 <= z ->
  decimal (itoa z) = z /\ all_chars is_digit (itoa z) = true
  /\ itoa z <> EmptyString.
Proof.
  intros Hz. unfold itoa. destruct (Z.ltb_spec z 0); [lia|].
  apply digits_upto_decimal; lia.
Qed.

Lemma itoa_negative z :
  z < 0 ->
  exists digits, itoa z = String "-"%char digits
    /\ decimal digits = - z /\ all_chars is_digit digits = true.
Proof.
  intros Hz. unfold itoa. destruct (Z.ltb_spec z 0); [|lia].
  eexists. split; [reflexivity|].
  destruct (digits_upto_decimal (Z.to_nat (- z)) (- z)) as (Hv & Hall & _);
    [lia|lia|]. auto.
Qed.

Lemma length_append (s t : string) :
  String.length (s +:+ t) = (String.length s + String.length t)%nat.
Proof.
  induction s as [|c s IH]; [reflexivity|].
  rewrite append_cons. cbn [String.length]. rewrite IH. reflexivity.
Qed.


Lemma sdrop_length_app (s t : string) : sdrop (String.length s) (s +:+ t) = t.
Proof. induction s as [|c s IH]; [reflexivity|exact IH]. Qed.

Lemma stake_length_app (s t : string) : stake (String.length s) (s +:+ t) = s.
Proof.
  induction s as [|c s IH]; [destruct t; reflexivity|].
  rewrite append_cons. cbn [String.length stake]. rewrite IH. reflexivity.
Qed.

(** [%d] prints different numbers differently. *)
Lemma itoa_inj z1 z2 : itoa z1 = itoa z2 -> z1 = z2.
Proof.
  intros H.
  destruct (Z.lt_ge_cases z1 0) as [H1|H1], (Z.lt_ge_cases z2 0) as [H2|H2].
  - destruct (itoa_negative z1 H1) as (d1 & E1 & V1 & _).
    destruct (itoa_negative z2 H2) as (d2 & E2 & V2 & _).
    rewrite E1, E2 in H. injection H as ->. lia.
  - destruct (itoa_negative z1 H1) as (d1 & E1 & _).
    destruct (itoa_nonneg z2 H2) as (_ & Hall & Hne).
    rewrite <- H, E1 in Hall. discriminate.
  - destruct (itoa_negative z2 H2) as (d2 & E2 & _).
    destruct (itoa_nonneg z1 H1) as (_ & Hall & Hne).
    rewrite H, E2 in Hall. discriminate.
  - destruct (itoa_nonneg z1 H1) as (V1 & _).
    destruct (itoa_nonneg z2 H2) as (V2 & _).
    rewrite H in V1. lia.
Qed.

End FmtFacts.

(** ** Sessions of the chat server *)

Module SessionFacts.

Import Proto Chat FmtFacts.

(** The requests that open a session. *)
Definition is_start (req : ChatRequest) : bool :=
  match req with
  | ReqStart _ => true
  | _ => false
  end.

Section Server.

Context {F : Type}.
Variable MergeAndRank :
  list (CodeChunk F) -> list (CodeChunk F) -> list (CodeChunk F).
Variable decodeStreamResponse : string -> option (list string).
Variable DefaultTenant : string.
Variable composerStreamTokens : bool.
Variable send_err : nat -> option error.

(** The requests of [inbound] open no session. *)
Definition no_start (inbound : list (ChatRequest * Answers F)) : Prop :=
  forallb (fun ra => negb (is_start (fst ra))) inbound = true.

(** *** The search *)

Lemma getTopK_positive options : 0 < getTopK options.
Proof.
  unfold getTopK. destruct options as [o|]; [|lia].
  destruct (Z.gtb_spec (MaxResults o) 0); lia.
Qed.

(** When the lexical search, the query embedding and the semantic search
    succeed, [performDualSearch] with the limit [getTopK options] returns
    the first [getTopK options] merged results, or all of them when there
    are fewer; the slice expression at its end does not panic. *)
Theorem performDualSearch_top_k (a : Answers F)
    (repositoryID queryText : string) (options : option ChatOptions)
    (lexicalResults semanticResults : list (CodeChunk F))
    (queryEmbedding : list F) :
  lexical a = Ok lexicalResults ->
  generateQueryEmbedding a queryText = Ok queryEmbedding ->
  semantic a queryEmbedding = Ok semanticResults ->
  performDualSearch MergeAndRank a repositoryID queryText (getTopK options)
  = Return (Ok (take (Z.to_nat (getTopK options))
                  (MergeAndRank lexicalResults semanticResults))).
Proof.
  intros Hlex Hemb Hsem. unfold performDualSearch.
  rewrite Hlex, Hemb, Hsem. cbv zeta.
  pose proof (getTopK_positive options) as Hk.
  set (merged := MergeAndRank lexicalResults semanticResults).
  set (k := getTopK options) in *.
  unfold slice.
  destruct (Z.ltb_spec (Z.of_nat (length merged)) k) as [Hlt|Hge].
  - replace ((0 <=? 0) && (0 <=? Z.of_nat (length merged))
             && (Z.of_nat (length merged) <=? Z.of_nat (length merged)))
      with true by (symmetry; rewrite !andb_true_iff, !Z.leb_le; lia).
    rewrite Z.sub_0_r, Nat2Z.id. change (Z.to_nat 0) with 0%nat.
    rewrite drop_0. rewrite (take_ge merged (length merged)) by lia.
    rewrite (take_ge merged (Z.to_nat k)) by lia. reflexivity.
  - replace ((0 <=? 0) && (0 <=? k) && (k <=? Z.of_nat (length merged)))
      with true by (symmetry; rewrite !andb_true_iff, !Z.leb_le; lia).
    rewrite Z.sub_0_r. change (Z.to_nat 0) with 0%nat. rewrite drop_0.
    reflexivity.
Qed.

(** *** The session table *)

Lemma cleanupSession_sessions sessionID (st : ServerState) :
  sessions (cleanupSession sessionID st) = delete sessionID (sessions st).
Proof.
  unfold cleanupSession. destruct (sessions st !! sessionID) eqn:E.
  - reflexivity.
  - symmetry. apply delete_id. exact E.
Qed.

(** Once a session is open and no further Start arrives, the stream ends
    with the session removed from the table, however it ends. *)
Lemma chatLoop_removes_session (inbound : list (ChatRequest * Answers F))
    (recvErr : error) (sess : ChatSession) (st : ServerState) :
  no_start inbound ->
  forall sent,
    sessions (snd (fst (chatLoop MergeAndRank decodeStreamResponse
                          DefaultTenant composerStreamTokens send_err
                          inbound recvErr (Some sess) st sent)))
    = delete (ID sess) (sessions st).
Proof.
  unfold no_start.
  induction inbound as [|[req a] rest IH]; intros Hno sent; cbn [chatLoop].
  - cbn. apply cleanupSession_sessions.
  - cbn [forallb fst] in Hno. apply andb_prop in Hno as [Hreq Hrest].
    destruct req as [start|message|sessionId|]; cbn in Hreq;
      [discriminate| | |].
    + destruct (handleChatMessage _ _ _ _ _ _ _ _) as [[e|] sent'].
      * cbn. apply cleanupSession_sessions.
      * apply IH. exact Hrest.
    + cbn. rewrite cleanupSession_sessions. reflexivity.
    + cbn. apply cleanupSession_sessions.
Qed.

(** A stream with a single Start leaves the session table as it found it:
    whether the Start is rejected, a query fails, the client cancels or
    closes the stream, the session that the stream opened is gone when
    [ChatWithRepository] returns. The session id, made from the clock, is
    assumed not to be in the table already. *)
Theorem ChatWithRepository_restores_sessions (start : ChatStart)
    (a : Answers F) (rest : list (ChatRequest * Answers F))
    (recvErr : error) (st : ServerState) :
  no_start rest ->
  sessions st !! generateSessionID a = None ->
  sessions (snd (fst (ChatWithRepository MergeAndRank decodeStreamResponse
                        DefaultTenant composerStreamTokens send_err
                        ((ReqStart start, a) :: rest) recvErr st)))
  = sessions st.
Proof.
  intros Hno Hfresh. unfold ChatWithRepository. cbn [chatLoop].
  unfold handleChatStart.
  destruct (repository a) as [[repo|]|e]; try reflexivity.
  destruct (Upload.IngestionStatus repo); try reflexivity.
  rewrite chatLoop_removes_session by exact Hno.
  cbn [ID sessions]. rewrite delete_insert_eq. apply delete_id. exact Hfresh.
Qed.

(** A second Start on the same stream opens a second session and the first
    one is never cleaned up: when the stream ends, the session of the first
    Start is still in the table. *)
Theorem second_Start_leaks_session (start1 start2 : ChatStart)
    (a1 a2 : Answers F) (repo1 repo2 : Upload.Repository)
    (rest : list (ChatRequest * Answers F)) (recvErr : error)
    (st : ServerState) :
  repository a1 = Ok (Some repo1) ->
  Upload.IngestionStatus repo1 = Upload.STATE_READY ->
  repository a2 = Ok (Some repo2) ->
  Upload.IngestionStatus repo2 = Upload.STATE_READY ->
  clock a1 <> clock a2 ->
  no_start rest ->
  exists session1,
    sessions (snd (fst (ChatWithRepository MergeAndRank decodeStreamResponse
                          DefaultTenant composerStreamTokens send_err
                          ((ReqStart start1, a1) :: (ReqStart start2, a2)
                           :: rest) recvErr st)))
    !! generateSessionID a1 = Some session1
    /\ ID session1 = generateSessionID a1
    /\ SessionRepositoryID session1 = StartRepositoryId start1.
Proof.
  intros Hrepo1 Hready1 Hrepo2 Hready2 Hclock Hno.
  unfold ChatWithRepository. cbn [chatLoop]. unfold handleChatStart.
  rewrite Hrepo1, Hready1, Hrepo2, Hready2.
  rewrite chatLoop_removes_session by exact Hno.
  cbn [ID sessions].
  assert (Hid : generateSessionID a2 <> generateSessionID a1).
  { unfold generateSessionID. intros H.
    apply String.app_inj in H. apply itoa_inj in H. congruence. }
  eexists. rewrite delete_insert_eq.
  rewrite lookup_delete_ne by exact Hid.
  rewrite lookup_insert_eq. repeat split; reflexivity.
Qed.

(** A Start for a repository that cannot be read, is unknown or is not
    READY is rejected with INTERNAL, NOT_FOUND or FAILED_PRECONDITION; the
    stream ends there, no session is created and nothing is sent. *)
Theorem Start_rejected_unless_ready (start : ChatStart) (a : Answers F)
    (rest : list (ChatRequest * Answers F)) (recvErr : error)
    (st : ServerState) :
  (forall repo, repository a = Ok (Some repo) ->
                Upload.IngestionStatus repo <> Upload.STATE_READY) ->
  exists e,
    ChatWithRepository MergeAndRank decodeStreamResponse DefaultTenant
      composerStreamTokens send_err ((ReqStart start, a) :: rest) recvErr st
    = (Some e, st, [])
    /\ error_code (Some e)
       = Some match repository a with
              | Err _ => Internal
              | Ok None => NotFound
              | Ok (Some _) => FailedPrecondition
              end.
Proof.
  intros Hnot. unfold ChatWithRepository. cbn [chatLoop].
  unfold handleChatStart.
  destruct (repository a) as [[repo|]|e].
  - specialize (Hnot repo eq_refl).
    destruct (Upload.IngestionStatus repo); try congruence;
      eexists; split; reflexivity.
  - eexists. split; reflexivity.
  - eexists. split; reflexivity.
Qed.

(** When the lexical search fails during a query, the stream sends
    SearchStarted and ends with an INTERNAL error that carries the error of
    the backend: no Error event is sent, the requests that follow are not
    read, and the session is removed. *)
Theorem failed_search_ends_stream (message : ChatMessage) (a : Answers F)
    (rest : list (ChatRequest * Answers F)) (recvErr : error)
    (sess : ChatSession) (st : ServerState)
    (sent : list (ChatResponse F)) (e : error) :
  send_err (length sent) = None ->
  lexical a = Err e ->
  chatLoop MergeAndRank decodeStreamResponse DefaultTenant
    composerStreamTokens send_err ((ReqChatMessage message, a) :: rest)
    recvErr (Some sess) st sent
  = (Some (StatusError Internal
             ("search failed: lexical search failed: " +:+ error_string e)),
     cleanupSession (ID sess) st,
     sent ++ [SearchStarted (ID sess) (generateQueryID a)]).
Proof.
  intros Hsend Hlex. cbn [chatLoop].
  unfold handleChatMessage, andThen, Send, performDualSearch.
  rewrite Hsend, Hlex. reflexivity.
Qed.

(** *** The streaming composer *)

Fixpoint joined (tokens : list string) : string :=
  match tokens with
  | [] => EmptyString
  | token :: rest => token +:+ joined rest
  end.

Lemma scanEvents_response sessionId queryId scanErr lines :
  forall fullResponse tokenCount (sent sent' : list (ChatResponse F))
         fullResponse' tokenCount',
  0 <= tokenCount ->
  tokenCount + Z.of_nat (length lines) < 2 ^ 63 ->
  scanEvents decodeStreamResponse lines scanErr fullResponse tokenCount
    (fun token => Send send_err (CompositionToken sessionId queryId token))
    sent = (Ok (fullResponse', tokenCount'), sent') ->
  exists tokens,
    sent' = sent ++ map (CompositionToken sessionId queryId) tokens
    /\ fullResponse' = fullResponse +:+ joined tokens
    /\ tokenCount' = tokenCount + Z.of_nat (length tokens)
    /\ (length tokens <= length lines)%nat
    /\ Forall (fun token => token <> EmptyString) tokens.
Proof.
  assert (Hnone : forall fullResponse tokenCount (sent : list (ChatResponse F)),
             exists tokens : list string,
               sent = sent ++ map (CompositionToken sessionId queryId) tokens
               /\ fullResponse = fullResponse +:+ joined tokens
               /\ tokenCount = tokenCount + Z.of_nat (length tokens)
               /\ tokens = []).
  { intros fr tc s. exists []. cbn. rewrite app_nil_r.
    repeat split; [|lia].
    clear. induction fr as [|c fr IH]; [reflexivity|].
    rewrite GoStringsFacts.append_cons, <- IH. reflexivity. }
  induction lines as [|line rest IH];
    intros fullResponse tokenCount sent sent' fullResponse' tokenCount'
      Hcount Hbound; cbn [scanEvents].
  - destruct scanErr; [discriminate|]. unfold ret. intros [= <- <- <-].
    destruct (Hnone fullResponse tokenCount sent) as (ts & H1 & H2 & H3 & ->).
    exists []. repeat split; auto.
  - assert (Hskip :
      scanEvents decodeStreamResponse rest scanErr fullResponse tokenCount
        (fun token => Send send_err (CompositionToken sessionId queryId token))
        sent = (Ok (fullResponse', tokenCount'), sent') ->
      exists tokens,
        sent' = sent ++ map (CompositionToken sessionId queryId) tokens
        /\ fullResponse' = fullResponse +:+ joined tokens
        /\ tokenCount' = tokenCount + Z.of_nat (length tokens)
        /\ (length tokens <= length (line :: rest))%nat
        /\ Forall (fun token => token <> EmptyString) tokens).
    { intros H. apply IH in H as (tokens & ? & ? & ? & ? & ?);
        [|lia|cbn [length] in Hbound; lia].
      exists tokens. cbn [length]. repeat split; auto. }
    destruct (String.eqb line "" || HasPrefix line ":"); [exact Hskip|].
    destruct (HasPrefix line "data: "); [|exact Hskip].
    destruct (String.eqb (TrimPrefix line "data: ") "[DONE]").
    { unfold ret. intros [= <- <- <-].
      destruct (Hnone fullResponse tokenCount sent)
        as (ts & H1 & H2 & H3 & ->).
      exists []. repeat split; auto. cbn. lia. }
    destruct (decodeStreamResponse _) as [[|delta deltas]|]; try exact Hskip.
    destruct (String.eqb_spec delta "") as [|Hdelta]; [exact Hskip|].
    unfold Send at 1. destruct (send_err (length sent)); [discriminate|].
    cbn [length] in Hbound.
    rewrite wrap64_id by (unfold int64_range; lia).
    intros H. apply IH in H as (tokens & -> & -> & -> & Hlen & Hall);
      [|lia|lia].
    exists (delta :: tokens). cbn [map joined length].
    rewrite <- app_assoc, append_assoc. repeat split; auto.
    + lia.
    + lia.
Qed.

(** When the composer streams, the response it returns is what it sent:
    [FullResponse] is the concatenation of the tokens passed to the
    callback, in order, [TokenCount] is their number, no token is empty,
    and nothing else is sent. *)
Theorem ComposeAnswerStream_response_is_tokens sessionId queryId
    (a : Answers F) (query : string) (chunks : list (CodeChunk F))
    (lines : list string) (scanErr : option error)
    (sent sent' : list (ChatResponse F)) (result : CompositionResult) :
  composerStreamTokens = true ->
  event_stream a = Ok (lines, scanErr) ->
  Z.of_nat (length lines) < 2 ^ 63 ->
  ComposeAnswerStream decodeStreamResponse composerStreamTokens a query
    chunks
    (fun token => Send send_err (CompositionToken sessionId queryId token))
    sent = (Ok result, sent') ->
  exists tokens,
    sent' = sent ++ map (CompositionToken sessionId queryId) tokens
    /\ FullResponse result = joined tokens
    /\ TokenCount result = Z.of_nat (length tokens)
    /\ Forall (fun token => token <> EmptyString) tokens
    /\ Citations result = extractCitations (joined tokens) chunks.
Proof.
  intros Hstream Hlines Hbound. unfold ComposeAnswerStream.
  rewrite Hstream. cbn [negb]. unfold makeStreamingAPICall. rewrite Hlines.
  destruct (scanEvents _ _ _ _ _ _ sent) as [[[fullResponse tokenCount]|e] s]
    eqn:Hscan; [|discriminate].
  intros [= <- <-].
  apply scanEvents_response in Hscan as (tokens & -> & -> & -> & _ & Hall);
    [|lia|lia].
  exists tokens. cbn [FullResponse TokenCount Citations].
  repeat split; auto.
Qed.

End Server.

(** *** Concrete runs *)

Import ChatFacts.

(** The answers of the collaborators when the repository is stored with
    the given state and the clock reads [time]. *)
Definition answers_for (state : Upload.IngestionState) (time : Z)
  : Answers Q := {|
  repository :=
    Ok (Some {| Upload.RepositoryId := "repo-1"; Upload.Name := "service";
                Upload.Description := "";
                Upload.Source := Upload.GitUrl "https://host/x/y.git" "main";
                Upload.IngestionStatus := state;
                Upload.RepoCreatedAt := 1 |});
  clock := time;
  lexical := lexical all_up; embeddings := embeddings all_up;
  semantic := semantic all_up; completion := completion all_up;
  event_stream := event_stream all_up;
  compositionMs := compositionMs all_up
|}.

Definition example_start : ChatStart := {|
  StartRepositoryId := "repo-1"; StartTenantId := "local";
  StartOptions := Some {| MaxResults := 3; StreamTokens := true; Model := "" |}
|}.

(** A query, then a cancellation. *)
Definition query_then_cancel : list (ChatRequest * Answers Q) :=
  [(ReqChatMessage example_message, all_up); (ReqCancel "session-42", all_up)].

Lemma performDualSearch_top_k_witness :
  lexical all_up
  = Ok [example_hit "main.go" (1 # 2) SEARCH_SOURCE_LEXICAL;
        example_hit "auth.go" (1 # 4) SEARCH_SOURCE_LEXICAL]
  /\ generateQueryEmbedding all_up "auth" = Ok [1 # 3; 2 # 3]%Q
  /\ semantic all_up [1 # 3; 2 # 3]%Q
     = Ok [example_hit "user.go" (9 # 10) SEARCH_SOURCE_SEMANTIC;
           example_hit "db.go" (8 # 10) SEARCH_SOURCE_SEMANTIC]
  /\ performDualSearch concat_merge all_up "repo-1" "auth"
       (getTopK (StartOptions example_start))
     = Return (Ok (take (Z.to_nat (getTopK (StartOptions example_start)))
                     (concat_merge
                        [example_hit "main.go" (1 # 2) SEARCH_SOURCE_LEXICAL;
                         example_hit "auth.go" (1 # 4) SEARCH_SOURCE_LEXICAL]
                        [example_hit "user.go" (9 # 10) SEARCH_SOURCE_SEMANTIC;
                         example_hit "db.go" (8 # 10)
                           SEARCH_SOURCE_SEMANTIC]))).
Proof.
  assert (Hlex : lexical all_up
                 = Ok [example_hit "main.go" (1 # 2) SEARCH_SOURCE_LEXICAL;
                       example_hit "auth.go" (1 # 4) SEARCH_SOURCE_LEXICAL])
    by reflexivity.
  assert (Hemb : generateQueryEmbedding all_up "auth" = Ok [1 # 3; 2 # 3]%Q)
    by reflexivity.
  assert (Hsem : semantic all_up [1 # 3; 2 # 3]%Q
                 = Ok [example_hit "user.go" (9 # 10) SEARCH_SOURCE_SEMANTIC;
                       example_hit "db.go" (8 # 10) SEARCH_SOURCE_SEMANTIC])
    by reflexivity.
  repeat (split; [assumption|]).
  exact (performDualSearch_top_k concat_merge all_up "repo-1" "auth"
           (StartOptions example_start) _ _ _ Hlex Hemb Hsem).
Defined.

Lemma ChatWithRepository_restores_sessions_witness :
  no_start query_then_cancel
  /\ sessions no_sessions !! generateSessionID (answers_for Upload.STATE_READY
    42)
     = None
  /\ sessions (snd (fst (ChatWithRepository concat_merge token_of_payload
                           "local" true never_fails
                           ((ReqStart example_start,
                             answers_for Upload.STATE_READY 42)
                            :: query_then_cancel) EOF no_sessions)))
     = sessions no_sessions.
Proof.
  assert (Hno : no_start query_then_cancel) by reflexivity.
  assert (Hfresh : sessions no_sessions
                   !! generateSessionID (answers_for Upload.STATE_READY 42)
                   = None) by reflexivity.
  split; [exact Hno|]. split; [exact Hfresh|].
  exact (ChatWithRepository_restores_sessions concat_merge token_of_payload
           "local" true never_fails example_start
           (answers_for Upload.STATE_READY 42) query_then_cancel EOF
           no_sessions Hno Hfresh).
Defined.

Lemma second_Start_leaks_session_witness :
  clock (answers_for Upload.STATE_READY 42)
  <> clock (answers_for Upload.STATE_READY 43)
  /\ no_start query_then_cancel
  /\ exists session1,
       sessions (snd (fst (ChatWithRepository concat_merge token_of_payload
                             "local" true never_fails
                             ((ReqStart example_start,
                               answers_for Upload.STATE_READY 42)
                              :: (ReqStart example_start,
                                  answers_for Upload.STATE_READY 43)
                              :: query_then_cancel) EOF no_sessions)))
       !! generateSessionID (answers_for Upload.STATE_READY 42)
       = Some session1
       /\ ID session1 = generateSessionID (answers_for Upload.STATE_READY 42)
       /\ SessionRepositoryID session1 = StartRepositoryId example_start.
Proof.
  assert (Hclock : clock (answers_for Upload.STATE_READY 42)
                   <> clock (answers_for Upload.STATE_READY 43))
    by (cbn; lia).
  assert (Hno : no_start query_then_cancel) by reflexivity.
  split; [exact Hclock|]. split; [exact Hno|].
  exact (second_Start_leaks_session concat_merge token_of_payload "local"
           true never_fails example_start example_start
           (answers_for Upload.STATE_READY 42)
           (answers_for Upload.STATE_READY 43) _ _ query_then_cancel EOF
           no_sessions eq_refl eq_refl eq_refl eq_refl Hclock Hno).
Defined.

Lemma Start_rejected_unless_ready_witness :
  (forall repo,
     repository (answers_for Upload.STATE_CHUNKING 42) = Ok (Some repo) ->
     Upload.IngestionStatus repo <> Upload.STATE_READY)
  /\ exists e,
       ChatWithRepository concat_merge token_of_payload "local" true
         never_fails
         ((ReqStart example_start, answers_for Upload.STATE_CHUNKING 42)
          :: query_then_cancel) EOF no_sessions
       = (Some e, no_sessions, [])
       /\ error_code (Some e)
          = Some match repository (answers_for Upload.STATE_CHUNKING 42) with
                 | Err _ => Internal
                 | Ok None => NotFound
                 | Ok (Some _) => FailedPrecondition
                 end.
Proof.
  assert (Hnot : forall repo,
             repository (answers_for Upload.STATE_CHUNKING 42)
             = Ok (Some repo) ->
             Upload.IngestionStatus repo <> Upload.STATE_READY).
  { intros repo [= <-]. discriminate. }
  split; [exact Hnot|].
  exact (Start_rejected_unless_ready concat_merge token_of_payload "local"
           true never_fails example_start
           (answers_for Upload.STATE_CHUNKING 42) query_then_cancel EOF
           no_sessions Hnot).
Defined.

Lemma failed_search_ends_stream_witness :
  never_fails (length (@nil (ChatResponse Q))) = None
  /\ lexical lexical_down
     = Err (GoError "ripgrep execution failed: exit status 2")
  /\ chatLoop concat_merge token_of_payload "local" true never_fails
       ((ReqChatMessage example_message, lexical_down) :: query_then_cancel)
       EOF (Some (example_session true)) no_sessions []
     = (Some (StatusError Internal
                ("search failed: lexical search failed: "
                 +:+ error_string
                       (GoError "ripgrep execution failed: exit status 2"))),
        cleanupSession (ID (example_session true)) no_sessions,
        [] ++ [SearchStarted (ID (example_session true))
                 (generateQueryID lexical_down)]).
Proof.
  assert (Hsend : never_fails (length (@nil (ChatResponse Q))) = None)
    by reflexivity.
  assert (Hlex : lexical lexical_down
                 = Err (GoError "ripgrep execution failed: exit status 2"))
    by reflexivity.
  split; [exact Hsend|]. split; [exact Hlex|].
  exact (failed_search_ends_stream concat_merge token_of_payload "local" true
           never_fails example_message lexical_down query_then_cancel EOF
           (example_session true) no_sessions [] _ Hsend Hlex).
Defined.

Definition streamed_result : CompositionResult :=
  {| FullResponse := "ab"; Citations := []; TokenCount := 2 |}.

Lemma ComposeAnswerStream_response_is_tokens_witness :
  true = true
  /\ event_stream all_up
     = Ok (["data: a"; ""; "data: b"; "data: [DONE]"], None)
  /\ Z.of_nat (length ["data: a"; ""; "data: b"; "data: [DONE]"]) < 2 ^ 63
  /\ ComposeAnswerStream token_of_payload true all_up "auth" []
       (fun token =>
          Send never_fails (CompositionToken "session-1" "query-42" token))
       []
     = (Ok streamed_result,
        [CompositionToken "session-1" "query-42" "a";
         CompositionToken "session-1" "query-42" "b"])
  /\ exists tokens,
       [CompositionToken "session-1" "query-42" "a";
        CompositionToken "session-1" "query-42" "b"]
       = [] ++ map (CompositionToken (F := Q) "session-1" "query-42") tokens
       /\ FullResponse streamed_result = joined tokens
       /\ TokenCount streamed_result = Z.of_nat (length tokens)
       /\ Forall (fun token => token <> EmptyString) tokens
       /\ Citations streamed_result
          = extractCitations (F := Q) (joined tokens) [].
Proof.
  assert (Hstream : true = true) by reflexivity.
  assert (Hlines : event_stream all_up
                   = Ok (["data: a"; ""; "data: b"; "data: [DONE]"], None))
    by reflexivity.
  assert (Hbound : Z.of_nat
                     (length ["data: a"; ""; "data: b"; "data: [DONE]"])
                   < 2 ^ 63) by (cbn; lia).
  assert (Hrun : ComposeAnswerStream token_of_payload true all_up "auth" []
                   (fun token =>
                      Send never_fails
                        (CompositionToken "session-1" "query-42" token))
                   []
                 = (Ok streamed_result,
                    [CompositionToken "session-1" "query-42" "a";
                     CompositionToken "session-1" "query-42" "b"]))
    by reflexivity.
  repeat (split; [assumption|]).
  exact (ComposeAnswerStream_response_is_tokens token_of_payload true
           never_fails "session-1" "query-42" all_up "auth" [] _ _ [] _
           streamed_result Hstream Hlines Hbound Hrun).
Defined.

End SessionFacts.

(** ** Accepting uploads *)

Module UploadProperties.

Import Upload UploadServer GoStringsFacts FmtFacts.

Section Handlers.

Variable DefaultTenant : string.

(** The streaming upload is idempotent: when a job is stored under the
    tenant and the idempotency key of the first message, [UploadRepository]
    answers with that job and starts no pipeline; the stored statuses and
    repositories are as before. *)
Theorem UploadRepository_returns_existing_job
    (firstReq : UploadRepositoryRequest) (w : World)
    (existing : CachedUploadStatus) :
  redis_up w = true ->
  FirstIdempotencyKey firstReq <> "" ->
  upload_status w
    !! uploadStatusKey
         (if String.eqb (FirstTenantId firstReq) "" then DefaultTenant
          else FirstTenantId firstReq)
         (FirstIdempotencyKey firstReq)
  = Some existing ->
  exists w',
    UploadRepository DefaultTenant (Ok firstReq) w
    = (Ok {| UploadId := UploadID existing;
             ResponseRepositoryId := CachedRepositoryID existing;
             ResponseAcceptedAt := CreatedAt existing;
             ResponseStatus := Status existing |}, w')
    /\ pipelines w' = pipelines w
    /\ upload_status w' = upload_status w
    /\ repo_meta w' = repo_meta w.
Proof.
  intros Hup Hkey Hstored. unfold UploadRepository.
  unfold generateRepositoryID, tick.
  apply String.eqb_neq in Hkey. rewrite Hkey.
  unfold Upload.GetUploadStatus. cbn [redis_up upload_status].
  rewrite Hup, Hstored. eexists. repeat split.
Qed.

(** [UploadGitRepository] starts a pipeline only when it accepts the
    upload: when it returns an error, the error is INVALID_ARGUMENT or
    INTERNAL, no pipeline was started and nothing was stored. *)
Theorem UploadGitRepository_error_starts_nothing
    (req : UploadGitRepositoryRequest) (w w' : World) (e : error) :
  UploadGitRepository DefaultTenant req w = (Err e, w') ->
  pipelines w' = pipelines w
  /\ upload_status w' = upload_status w
  /\ repo_meta w' = repo_meta w
  /\ (Chat.error_code (Some e) = Some InvalidArgument
      \/ Chat.error_code (Some e) = Some Internal).
Proof.
  unfold UploadGitRepository, generateRepositoryID, generateUploadID, tick.
  destruct (String.eqb (IdempotencyKey req) "");
    (destruct (GitRepo req) as [gitRepo|];
     [destruct (String.eqb (Url gitRepo) "")|]);
    try (intros [= <- <-]; repeat split; left; reflexivity).
  all: unfold CreateRepositoryIndex, tick, SetUploadStatus;
    cbn [redis_up upload_status repo_meta pipelines now];
    destruct (redis_up w); [discriminate|];
    intros [= <- <-]; repeat split; right; reflexivity.
Qed.

(** After [UploadGitRepository] accepted an upload, and until the pipeline
    it started writes a status of its own, the status query for the upload
    id of its answer, by the same tenant, finds the job: PENDING, no
    progress, no error message, and the repository id of the answer. *)
Theorem accepted_upload_is_pending (req : UploadGitRepositoryRequest)
    (w w' : World) (resp : UploadRepositoryResponse) :
  UploadGitRepository DefaultTenant req w = (Ok resp, w') ->
  GetUploadStatus DefaultTenant
    {| StatusTenantId := TenantId req; StatusUploadId := UploadId resp |} w'
  = Ok {| StatusOfUploadId := UploadId resp;
          StatusOfRepositoryId := ResponseRepositoryId resp;
          StatusOfState := STATE_PENDING;
          StatusOfProgress := 0;
          StatusOfErrorMessage := "" |}.
Proof.
  unfold UploadGitRepository, generateRepositoryID, generateUploadID, tick.
  unfold GetUploadStatus, Upload.GetUploadStatus.
  cbn [StatusTenantId StatusUploadId].
  destruct (String.eqb (IdempotencyKey req) "");
    (destruct (GitRepo req) as [gitRepo|]; [|discriminate]);
    (destruct (String.eqb (Url gitRepo) ""); [discriminate|]).
  all: unfold CreateRepositoryIndex, tick, SetUploadStatus, spawn,
         SetRepositoryMetadata;
    cbn [redis_up upload_status repo_meta pipelines now UploadID];
    destruct (redis_up w) eqn:Hup; [|discriminate];
    cbn [redis_up upload_status repo_meta pipelines now snd];
    rewrite ?Hup; cbn [snd redis_up upload_status];
    intros [= <- <-];
    cbn [redis_up upload_status UploadId ResponseRepositoryId];
    rewrite ?Hup, lookup_insert_eq; reflexivity.
Qed.

(** *** The name of a repository *)

Definition slash_free (s : string) : bool :=
  all_chars (fun c => negb (Ascii.eqb c "/"%char)) s.

Lemma after_last_slash_cases url : forall cur,
  (slash_free url = true /\ after_last_slash cur url = cur)
  \/ (exists name, after_last_slash cur url = Some name
                   /\ slash_free name = true).
Proof.
  induction url as [|c rest IH]; intros cur; cbn [after_last_slash].
  - left. split; reflexivity.
  - unfold slash_free in *. cbn [all_chars].
    destruct (Ascii.eqb c "/"%char); cbn [negb andb].
    + right. destruct (IH (Some rest)) as [[Hfree ->]|Hname];
        [exists rest; split; [reflexivity|exact Hfree]|exact Hname].
    + apply IH.
Qed.

Lemma after_last_slash_free name : forall cur,
  slash_free name = true -> after_last_slash cur name = cur.
Proof.
  unfold slash_free. induction name as [|c name IH]; intros cur Hfree;
    [reflexivity|].
  cbn [all_chars] in Hfree. apply andb_prop in Hfree as [Hc Hfree].
  cbn [after_last_slash]. apply negb_true_iff in Hc. rewrite Hc.
  apply IH. exact Hfree.
Qed.

Lemma after_last_slash_app base name : forall cur,
  slash_free name = true ->
  after_last_slash cur (base +:+ "/" +:+ name) = Some name.
Proof.
  intros cur Hfree. revert cur.
  induction base as [|c base IH]; intros cur.
  - rewrite append_empty.
    change ("/" +:+ name) with (String "/"%char name).
    cbn [after_last_slash]. change (Ascii.eqb "/" "/") with true.
    cbv iota. apply after_last_slash_free. exact Hfree.
  - rewrite append_cons. cbn [after_last_slash].
    destruct (Ascii.eqb c "/"%char); apply IH.
Qed.

Lemma sdrop_keeps_slash base name : forall n,
  (n <= String.length base)%nat ->
  slash_free (sdrop n (base +:+ String "/"%char name)) = false.
Proof.
  unfold slash_free.
  induction base as [|c base IH]; intros n Hn; cbn [String.length] in Hn.
  - replace n with 0%nat by lia. reflexivity.
  - rewrite append_cons. destruct n as [|n]; cbn [sdrop].
    + cbn [all_chars]. specialize (IH 0%nat ltac:(lia)). cbn [sdrop] in IH.
      rewrite IH. apply andb_false_r.
    + apply IH. lia.
Qed.

(** [extractRepositoryName] always returns a name: it is never empty and
    holds no slash, whatever the URL. *)
Theorem extractRepositoryName_is_a_name (gitUrl : string) :
  extractRepositoryName gitUrl <> EmptyString
  /\ slash_free (extractRepositoryName gitUrl) = true.
Proof.
  unfold extractRepositoryName.
  match goal with
  | |- context [after_last_slash None ?url] =>
    destruct (after_last_slash_cases url None)
      as [[_ ->]|(name & -> & Hfree)]
  end.
  - split; [discriminate|reflexivity].
  - destruct (String.eqb_spec name "") as [->|Hne].
    + split; [discriminate|reflexivity].
    + split; assumption.
Qed.

(** For a URL that ends in a slash and a name, with or without the suffix
    [.git], [extractRepositoryName] returns the name. Only one suffix is
    removed, and a name that is itself [...git] loses it. *)
Theorem extractRepositoryName_last_element (base name : string) :
  name <> EmptyString ->
  slash_free name = true ->
  extractRepositoryName (base +:+ "/" +:+ name +:+ ".git") = name
  /\ ((forall stem, name <> stem +:+ ".git") ->
      extractRepositoryName (base +:+ "/" +:+ name) = name).
Proof.
  intros Hne Hfree. split.
  - unfold extractRepositoryName.
    replace (base +:+ "/" +:+ name +:+ ".git")
      with ((base +:+ "/" +:+ name) +:+ ".git")
      by (rewrite !append_assoc; reflexivity).
    rewrite length_append. cbn [String.length].
    replace (String.length (base +:+ "/" +:+ name) + 4 - 4)%nat
      with (String.length (base +:+ "/" +:+ name)) by lia.
    rewrite sdrop_length_app, stake_length_app.
    assert (Hlen : (4 <? String.length (base +:+ "/" +:+ name) + 4)%nat
                   = true).
    { apply Nat.ltb_lt. rewrite !length_append. cbn [String.length].
      destruct name; [congruence|cbn [String.length]; lia]. }
    rewrite Hlen. cbn [andb String.eqb Ascii.eqb Bool.eqb].
    rewrite after_last_slash_app by exact Hfree.
    destruct (String.eqb_spec name ""); [congruence|reflexivity].
  - intros Hstem. unfold extractRepositoryName.
    set (url := base +:+ "/" +:+ name).
    destruct ((4 <? String.length url)%nat
              && String.eqb (sdrop (String.length url - 4) url) ".git")
      eqn:Hgit.
    + exfalso. apply andb_prop in Hgit as [Hlen Hsuffix].
      apply Nat.ltb_lt in Hlen. apply String.eqb_eq in Hsuffix.
      (* the suffix [.git] of the URL lies within [name] or spans the slash *)
      destruct (Nat.le_gt_cases 4 (String.length name)) as [Hlong|Hshort].
      * apply (Hstem (stake (String.length name - 4) name)).
        assert (Hdrop : sdrop (String.length name - 4) name = ".git").
        { rewrite <- Hsuffix. unfold url.
          replace (base +:+ "/" +:+ name) with ((base +:+ "/") +:+ name)
            by (rewrite append_assoc; reflexivity).
          rewrite length_append.
          replace (String.length (base +:+ "/") + String.length name - 4)%nat
            with (String.length (base +:+ "/")
                  + (String.length name - 4))%nat by lia.
          clear. generalize (String.length name - 4)%nat as n.
          induction (base +:+ "/") as [|c s IH]; intros n; [reflexivity|].
          rewrite append_cons. cbn [String.length Nat.add sdrop]. apply IH. }
        rewrite <- Hdrop. clear.
        generalize (String.length name - 4)%nat as n.
        induction name as [|c name IH]; intros [|n]; try reflexivity.
        cbn [stake sdrop]. rewrite append_cons. f_equal. apply IH.
      * (* fewer than 4 bytes after the slash: the suffix holds the slash *)
        assert (Hslash : slash_free (sdrop (String.length url - 4) url)
                         = false).
        { unfold url.
          change (base +:+ "/" +:+ name) with (base +:+ String "/"%char name).
          apply sdrop_keeps_slash. rewrite length_append.
          cbn [String.length]. lia. }
        rewrite Hsuffix in Hslash. discriminate.
    + unfold url. rewrite after_last_slash_app by exact Hfree.
      destruct (String.eqb_spec name ""); [congruence|reflexivity].
Qed.

End Handlers.

(** *** Concrete requests *)

Import UploadFacts.

Definition resubmission : UploadRepositoryRequest := {|
  FirstTenantId := "local"; FirstIdempotencyKey := "k1";
  FirstSource :=
    GitRepositorySource {| Url := "https://host/x/y.git"; Ref := "main" |};
  FirstOptions := None
|}.

Definition first_job : CachedUploadStatus := {|
  UploadID := "k1"; CachedRepositoryID := "repo-1000";
  Status := STATE_PENDING; ProgressPercent := 0; ErrorMessage := "";
  CreatedAt := 1001
|}.

Lemma UploadRepository_returns_existing_job_witness :
  redis_up after_first = true
  /\ FirstIdempotencyKey resubmission <> ""
  /\ upload_status after_first
       !! uploadStatusKey
            (if String.eqb (FirstTenantId resubmission) "" then "local"
             else FirstTenantId resubmission)
            (FirstIdempotencyKey resubmission)
     = Some first_job
  /\ exists w',
       UploadRepository "local" (Ok resubmission) after_first
       = (Ok {| UploadId := UploadID first_job;
                ResponseRepositoryId := CachedRepositoryID first_job;
                ResponseAcceptedAt := CreatedAt first_job;
                ResponseStatus := Status first_job |}, w')
       /\ pipelines w' = pipelines after_first
       /\ upload_status w' = upload_status after_first
       /\ repo_meta w' = repo_meta after_first.
Proof.
  assert (Hup : redis_up after_first = true) by reflexivity.
  assert (Hkey : FirstIdempotencyKey resubmission <> "") by discriminate.
  assert (Hstored : upload_status after_first
                    !! uploadStatusKey
                         (if String.eqb (FirstTenantId resubmission) ""
                          then "local" else FirstTenantId resubmission)
                         (FirstIdempotencyKey resubmission)
                    = Some first_job) by (vm_compute; reflexivity).
  repeat (split; [assumption|]).
  exact (UploadRepository_returns_existing_job "local" resubmission
           after_first first_job Hup Hkey Hstored).
Defined.

Definition no_source : UploadGitRepositoryRequest := {|
  TenantId := "local"; IdempotencyKey := "k2"; GitRepo := None;
  Options := None
|}.

Lemma UploadGitRepository_error_starts_nothing_witness :
  UploadGitRepository "local" no_source after_first
  = (Err (StatusError InvalidArgument "git_repository is required"),
     snd (generateRepositoryID after_first))
  /\ pipelines (snd (generateRepositoryID after_first))
     = pipelines after_first
  /\ upload_status (snd (generateRepositoryID after_first))
     = upload_status after_first
  /\ repo_meta (snd (generateRepositoryID after_first)) = repo_meta after_first
  /\ (Chat.error_code
        (Some (StatusError InvalidArgument "git_repository is required"))
      = Some InvalidArgument
      \/ Chat.error_code
           (Some (StatusError InvalidArgument "git_repository is required"))
         = Some Internal).
Proof.
  assert (Hrun : UploadGitRepository "local" no_source after_first
                 = (Err (StatusError InvalidArgument
                           "git_repository is required"),
                    snd (generateRepositoryID after_first)))
    by reflexivity.
  split; [exact Hrun|].
  exact (UploadGitRepository_error_starts_nothing "local" no_source
           after_first _ _ Hrun).
Defined.

Lemma accepted_upload_is_pending_witness :
  UploadGitRepository "local" example_request empty_world
  = (Ok {| UploadId := "k1"; ResponseRepositoryId := "repo-1000";
           ResponseAcceptedAt := 1001; ResponseStatus := STATE_PENDING |},
     after_first)
  /\ GetUploadStatus "local"
       {| StatusTenantId := TenantId example_request;
          StatusUploadId := "k1" |} after_first
     = Ok {| StatusOfUploadId := "k1";
             StatusOfRepositoryId := "repo-1000";
             StatusOfState := STATE_PENDING;
             StatusOfProgress := 0;
             StatusOfErrorMessage := "" |}.
Proof.
  assert (Hrun : UploadGitRepository "local" example_request empty_world
                 = (Ok {| UploadId := "k1";
                          ResponseRepositoryId := "repo-1000";
                          ResponseAcceptedAt := 1001;
                          ResponseStatus := STATE_PENDING |}, after_first))
    by (vm_compute; reflexivity).
  split; [exact Hrun|].
  exact (accepted_upload_is_pending "local" example_request empty_world
           after_first _ Hrun).
Defined.

Lemma extractRepositoryName_last_element_witness :
  "repo" <> EmptyString
  /\ slash_free "repo" = true
  /\ extractRepositoryName ("https://github.com/user" +:+ "/" +:+ "repo"
                            +:+ ".git")
     = "repo"
  /\ ((forall stem, "repo" <> stem +:+ ".git") ->
      extractRepositoryName ("https://github.com/user" +:+ "/" +:+ "repo")
      = "repo").
Proof.
  assert (Hne : "repo" <> EmptyString) by discriminate.
  assert (Hfree : slash_free "repo" = true) by reflexivity.
  split; [exact Hne|]. split; [exact Hfree|].
  exact (extractRepositoryName_last_element "https://github.com/user" "repo"
           Hne Hfree).
Defined.

End UploadProperties.

(** ** De-duplication of the chunks of one file *)

Module DedupFacts.

Import Proto Merger MergerFacts.

(** Every element of the list stands in [R] to the elements after it. *)
Fixpoint chain {A} (R : A -> A -> Prop) (l : list A) : Prop :=
  match l with
  | [] => True
  | x :: rest => List.Forall (R x) rest /\ chain R rest
  end.

Lemma chain_snoc {A} (R : A -> A -> Prop) (l : list A) (x : A) :
  chain R (l ++ [x]) <-> chain R l /\ List.Forall (fun y => R y x) l.
Proof.
  induction l as [|y l IH]; cbn [chain app].
  - split; [intros _; split; [exact I|constructor]|].
    intros _. split; [constructor|exact I].
  - rewrite IH, List.Forall_app. split.
    + intros ((Hy & Hx) & Hc & Hl). inversion Hx; subst.
      repeat split; auto.
    + intros ((Hy & Hc) & Hl). inversion Hl; subst.
      repeat split; auto.
Qed.

Lemma chain_lookup {A} (R : A -> A -> Prop) (l : list A) :
  chain R l ->
  forall i j x y, (i < j)%nat -> l !! i = Some x -> l !! j = Some y -> R x y.
Proof.
  induction l as [|z l IH]; intros Hc i j x y Hij Hi Hj; [discriminate|].
  destruct Hc as [Hz Hc]. destruct j as [|j]; [lia|]. cbn in Hj.
  destruct i as [|i]; cbn in Hi.
  - injection Hi as <-. rewrite List.Forall_forall in Hz. apply Hz.
    apply list_elem_of_In. eapply list_elem_of_lookup_2. exact Hj.
  - apply (IH Hc i j); auto. lia.
Qed.

Section Dedup.

Context {F : Type}.
Variable gt : F -> F -> bool.

(** A chunk of the file [file] with a non-empty line range. *)
Definition chunk_of (file : string) (c : CodeChunk F) : Prop :=
  FilePath c = file /\ StartLine c <= EndLine c /\ lines_in_range c.

(** More than five lines lie between the end of [x] and the start of [y]. *)
Definition apart (x y : CodeChunk F) : Prop :=
  EndLine x + 5 < StartLine y.

(** [m] spans the lines of [c]. *)
Definition covers (m c : CodeChunk F) : Prop :=
  FilePath m = FilePath c
  /\ StartLine m <= StartLine c /\ EndLine c <= EndLine m.

(** *** Sorting *)

Definition ascending (l : list (CodeChunk F)) : Prop :=
  chain (fun x y => StartLine x <= StartLine y) l.

Lemma insertByStart_perm c (l : list (CodeChunk F)) :
  insertByStart c l ≡ₚ c :: l.
Proof.
  induction l as [|d l IH]; cbn [insertByStart]; [reflexivity|].
  destruct (StartLine c <? StartLine d); [reflexivity|].
  rewrite IH. apply Permutation_swap.
Qed.

Lemma insertByStart_ascending c (l : list (CodeChunk F)) :
  ascending l -> ascending (insertByStart c l).
Proof.
  unfold ascending. induction l as [|d l IH]; cbn [insertByStart chain].
  - intros _. split; [constructor|exact I].
  - intros [Hd Hl]. destruct (Z.ltb_spec (StartLine c) (StartLine d)).
    + cbn [chain]. repeat split; auto.
      constructor; [lia|].
      eapply List.Forall_impl; [|exact Hd]. cbn. intros. lia.
    + cbn [chain]. split; [|auto].
      apply List.Forall_forall. intros x Hx.
      apply list_elem_of_In in Hx. rewrite insertByStart_perm in Hx.
      apply elem_of_cons in Hx as [->|Hx]; [lia|].
      rewrite List.Forall_forall in Hd. apply Hd.
      apply list_elem_of_In. exact Hx.
Qed.

Lemma sortByStart_spec (chunks : list (CodeChunk F)) :
  sortByStart chunks ≡ₚ chunks /\ ascending (sortByStart chunks).
Proof.
  unfold sortByStart.
  assert (H : forall acc, ascending acc ->
            fold_left (fun sorted c => insertByStart c sorted) chunks acc
            ≡ₚ acc ++ chunks
            /\ ascending
                 (fold_left (fun sorted c => insertByStart c sorted)
                    chunks acc)).
  { induction chunks as [|c chunks IH]; intros acc Hacc; cbn [fold_left].
    - rewrite app_nil_r. auto.
    - destruct (IH (insertByStart c acc)) as [Hp Ha];
        [apply insertByStart_ascending; exact Hacc|].
      split; [|exact Ha]. rewrite Hp, insertByStart_perm.
      cbn [app]. apply Permutation_middle. }
  destruct (H []) as [Hp Ha]; [exact I|]. auto.
Qed.

(** *** One turn of the loop *)

Lemma hasOverlap_sorted file (x c : CodeChunk F) :
  chunk_of file x -> chunk_of file c -> StartLine x <= StartLine c ->
  hasOverlap x c = (StartLine c - 5 <=? EndLine x).
Proof.
  intros (Hfx & Hx & Hrx) (Hfc & Hc & Hrc) Hle. unfold hasOverlap.
  rewrite Hfx, Hfc, String.eqb_refl. cbn [negb].
  unfold lines_in_range, int32_range in *.
  rewrite !wrap32_id by (unfold int32_range; lia).
  rewrite Z.geb_leb.
  replace (StartLine x <=? EndLine c + 5) with true
    by (symmetry; apply Z.leb_le; lia).
  apply andb_true_r.
Qed.

Lemma mergeIntoLast_none file (d : list (CodeChunk F)) (c : CodeChunk F) :
  List.Forall (chunk_of file) d -> chunk_of file c ->
  List.Forall (fun x => StartLine x <= StartLine c) d ->
  List.Forall (fun x => apart x c) d ->
  mergeIntoLast gt d c = None.
Proof.
  intros Hd Hc Hle Hap. induction d as [|x d IH]; [reflexivity|].
  inversion Hd; inversion Hle; inversion Hap; subst.
  cbn [mergeIntoLast]. rewrite IH by assumption.
  rewrite (hasOverlap_sorted file) by assumption.
  unfold apart in *. destruct (Z.leb_spec (StartLine c - 5) (EndLine x));
    [lia|reflexivity].
Qed.

Lemma mergeIntoLast_last (init : list (CodeChunk F)) (l c : CodeChunk F) :
  hasOverlap l c = true ->
  mergeIntoLast gt (init ++ [l]) c
  = Some (init ++ [mergeOverlappingChunks gt l c]).
Proof.
  intros Hov. induction init as [|x init IH]; cbn [app mergeIntoLast].
  - rewrite Hov. reflexivity.
  - rewrite IH. reflexivity.
Qed.

Lemma merged_lines (x c : CodeChunk F) :
  FilePath (mergeOverlappingChunks gt x c) = FilePath x
  /\ StartLine (mergeOverlappingChunks gt x c)
     = Z.min (StartLine x) (StartLine c)
  /\ EndLine (mergeOverlappingChunks gt x c)
     = Z.max (EndLine x) (EndLine c).
Proof.
  unfold mergeOverlappingChunks. cbn.
  destruct (Z.ltb_spec (StartLine c) (StartLine x));
    destruct (Z.gtb_spec (EndLine c) (EndLine x)); repeat split; lia.
Qed.

(** What the loop keeps: the chunks kept so far are chunks of the file,
    each more than five lines before the next, and none starts after
    [bound]. *)
Definition kept (file : string) (bound : Z) (d : list (CodeChunk F)) : Prop :=
  List.Forall (chunk_of file) d /\ chain apart d
  /\ List.Forall (fun x => StartLine x <= bound) d.

Definition keep_or_merge (deduplicated : list (CodeChunk F)) (chunk : CodeChunk
  F)
  : list (CodeChunk F) :=
  match mergeIntoLast gt deduplicated chunk with
  | Some deduplicated' => deduplicated'
  | None => deduplicated ++ [copyChunk chunk]
  end.

Lemma copyChunk_id (c : CodeChunk F) : copyChunk c = c.
Proof. destruct c. reflexivity. Qed.

Lemma step_kept file (d : list (CodeChunk F)) (c : CodeChunk F) :
  kept file (StartLine c) d -> chunk_of file c ->
  kept file (StartLine c) (keep_or_merge d c).
Proof.
  intros (Hd & Hchain & Hle) Hc. unfold keep_or_merge.
  destruct d as [|l init _] using rev_ind.
  - cbn. rewrite copyChunk_id. repeat split; try constructor; auto. lia.
  - apply List.Forall_app in Hd as [Hinit Hl]. inversion Hl; subst.
    apply List.Forall_app in Hle as [Hinit_le Hl_le]. inversion Hl_le; subst.
    apply chain_snoc in Hchain as [Hchain Hbefore].
    match goal with H : chunk_of file l |- _ => rename H into Hlc end.
    match goal with H : StartLine l <= _ |- _ => rename H into Hlle end.
    pose proof (hasOverlap_sorted file l c Hlc Hc Hlle) as Hov.
    destruct (Z.leb_spec (StartLine c - 5) (EndLine l)) as [Hnear|Hfar].
    + rewrite mergeIntoLast_last by exact Hov.
      destruct (merged_lines l c) as (Hf & Hs & He).
      destruct Hlc as (Hfl & Hl1 & Hl2). destruct Hc as (Hfc & Hc1 & Hc2).
      unfold lines_in_range, int32_range in *.
      repeat split.
      * apply List.Forall_app. split; [exact Hinit|]. constructor;
        [|constructor].
        unfold chunk_of, lines_in_range, int32_range.
        rewrite Hf, Hs, He. repeat split; try lia. exact Hfl.
      * apply chain_snoc. split; [exact Hchain|].
        eapply List.Forall_impl; [|exact Hbefore]. unfold apart.
        intros y Hy. cbv beta. rewrite Hs. lia.
      * apply List.Forall_app. split; [exact Hinit_le|].
        constructor; [|constructor]. rewrite Hs. lia.
    + assert (Hall : List.Forall (fun x => apart x c) (init ++ [l])).
      { apply List.Forall_app. split.
        - eapply List.Forall_impl; [|exact Hbefore]. unfold apart. cbn.
          intros y Hy. destruct Hlc as (_ & ? & _). lia.
        - constructor; [|constructor]. unfold apart. lia. }
      rewrite (mergeIntoLast_none file); auto.
      * rewrite copyChunk_id. repeat split.
        -- apply List.Forall_app. split; [|constructor; [exact Hc|constructor]].
           apply List.Forall_app. split; [exact Hinit|].
           constructor; [exact Hlc|constructor].
        -- apply chain_snoc. split; [|exact Hall].
           apply chain_snoc. split; assumption.
        -- apply List.Forall_app. split; [|constructor; [lia|constructor]].
           apply List.Forall_app. split; [exact Hinit_le|].
           constructor; [exact Hlle|constructor].
      * apply List.Forall_app. split; [exact Hinit|].
        constructor; [exact Hlc|constructor].
      * apply List.Forall_app. split; [exact Hinit_le|].
        constructor; [exact Hlle|constructor].
Qed.

Lemma fold_kept file (chunks : list (CodeChunk F)) :
  ascending chunks -> List.Forall (chunk_of file) chunks ->
  forall d bound,
    kept file bound d ->
    List.Forall (fun c => bound <= StartLine c) chunks ->
    exists bound', kept file bound' (fold_left keep_or_merge chunks d).
Proof.
  induction chunks as [|c chunks IH]; intros Hasc Hall d bound Hd Hb;
    cbn [fold_left].
  - exists bound. exact Hd.
  - destruct Hasc as [Hc Hasc]. inversion Hall; inversion Hb; subst.
    apply (IH Hasc ltac:(assumption) (keep_or_merge d c) (StartLine c)).
    + apply step_kept; [|assumption].
      destruct Hd as (Hd1 & Hd2 & Hd3). repeat split; auto.
      eapply List.Forall_impl; [|exact Hd3]. cbn. intros. lia.
    + exact Hc.
Qed.

(** *** The lines of the input are kept *)

Lemma covers_refl (c : CodeChunk F) : covers c c.
Proof. unfold covers. repeat split; lia. Qed.

Lemma covers_trans (m' m c : CodeChunk F) :
  covers m' m -> covers m c -> covers m' c.
Proof. unfold covers. intros (? & ? & ?) (? & ? & ?). repeat split; try lia.
  congruence. Qed.

Lemma mergeIntoLast_covers (d d' : list (CodeChunk F)) (c : CodeChunk F) :
  mergeIntoLast gt d c = Some d' ->
  List.Exists (fun m => covers m c) d'
  /\ List.Forall (fun x => List.Exists (fun m => covers m x) d') d.
Proof.
  revert d'. induction d as [|x d IH]; intros d'; cbn [mergeIntoLast];
    [discriminate|].
  destruct (mergeIntoLast gt d c) as [rest'|].
  - intros [= <-]. destruct (IH rest' eq_refl) as [Hc Hd]. split.
    + apply List.Exists_cons_tl. exact Hc.
    + constructor; [apply List.Exists_cons_hd, covers_refl|].
      eapply List.Forall_impl; [|exact Hd]. cbn. intros y Hy.
      apply List.Exists_cons_tl. exact Hy.
  - destruct (hasOverlap x c) eqn:Hov; [|discriminate]. intros [= <-].
    destruct (merged_lines x c) as (Hf & Hs & He).
    assert (Hfile : FilePath x = FilePath c).
    { unfold hasOverlap in Hov.
      destruct (String.eqb_spec (FilePath x) (FilePath c)); [assumption|].
      discriminate. }
    split.
    + apply List.Exists_cons_hd. unfold covers. rewrite Hf, Hs, He.
      repeat split; [exact Hfile|lia|lia].
    + constructor.
      * apply List.Exists_cons_hd. unfold covers. rewrite Hf, Hs, He.
        repeat split; lia.
      * apply List.Forall_forall. intros y Hy. apply List.Exists_cons_tl.
        apply List.Exists_exists. exists y. split; [exact Hy|apply covers_refl].
Qed.

Lemma step_covers (d : list (CodeChunk F)) (c : CodeChunk F) :
  List.Exists (fun m => covers m c) (keep_or_merge d c)
  /\ List.Forall (fun x => List.Exists (fun m => covers m x) (keep_or_merge d
    c)) d.
Proof.
  unfold keep_or_merge. destruct (mergeIntoLast gt d c) as [d'|] eqn:Hm.
  - apply mergeIntoLast_covers. exact Hm.
  - rewrite copyChunk_id. split.
    + apply List.Exists_app. right. apply List.Exists_cons_hd, covers_refl.
    + apply List.Forall_forall. intros y Hy. apply List.Exists_app. left.
      apply List.Exists_exists. exists y. split; [exact Hy|apply covers_refl].
Qed.

Lemma fold_covers (chunks : list (CodeChunk F)) :
  forall d (seen : list (CodeChunk F)),
    List.Forall (fun x => List.Exists (fun m => covers m x) d) seen ->
    List.Forall
      (fun x => List.Exists (fun m => covers m x) (fold_left keep_or_merge
        chunks d))
      (seen ++ chunks).
Proof.
  induction chunks as [|c chunks IH]; intros d seen Hseen; cbn [fold_left].
  - rewrite app_nil_r. exact Hseen.
  - replace (seen ++ c :: chunks) with ((seen ++ [c]) ++ chunks)
      by (rewrite <- app_assoc; reflexivity).
    apply IH. destruct (step_covers d c) as [Hc Hd].
    apply List.Forall_app. split; [|constructor; [exact Hc|constructor]].
    apply List.Forall_forall. intros x Hx.
    rewrite List.Forall_forall in Hseen. specialize (Hseen x Hx).
    apply List.Exists_exists in Hseen as (m & Hm & Hcov).
    rewrite List.Forall_forall in Hd. specialize (Hd m Hm).
    apply List.Exists_exists in Hd as (m' & Hm' & Hcov').
    apply List.Exists_exists. exists m'. split; [exact Hm'|].
    eapply covers_trans; eassumption.
Qed.

(** *** The result of the de-duplication *)

Lemma deduplicateFileChunks_fold (chunks : list (CodeChunk F)) :
  (1 < length chunks)%nat ->
  deduplicateFileChunks gt chunks = fold_left keep_or_merge (sortByStart chunks)
    [].
Proof.
  intros Hlen. unfold deduplicateFileChunks.
  destruct (Nat.leb_spec (length chunks) 1); [lia|reflexivity].
Qed.

(** After the de-duplication of the chunks of one file, no two chunks
    overlap: the chunks are in the order of their lines, and more than
    five lines lie between the end of one and the start of the next. The
    chunks have non-empty line ranges, with line numbers away from the
    limits of [int32]; there are at most 12 of them, the slices that
    [sort.Slice] sorts by insertion. *)
Theorem deduplicated_chunks_do_not_overlap (file : string)
    (chunks : list (CodeChunk F)) :
  (length chunks <= 12)%nat ->
  List.Forall (chunk_of file) chunks ->
  forall i j x y,
    (i < j)%nat ->
    deduplicateFileChunks gt chunks !! i = Some x ->
    deduplicateFileChunks gt chunks !! j = Some y ->
    EndLine x + 5 < StartLine y
    /\ hasOverlap x y = false /\ hasOverlap y x = false.
Proof.
  intros _ Hall i j x y Hij Hi Hj.
  destruct (Nat.le_gt_cases (length chunks) 1) as [Hshort|Hlong].
  { exfalso. unfold deduplicateFileChunks in Hi, Hj.
    destruct (Nat.leb_spec (length chunks) 1); [|lia].
    apply lookup_lt_Some in Hj. lia. }
  rewrite deduplicateFileChunks_fold in Hi, Hj by exact Hlong.
  destruct (sortByStart_spec chunks) as [Hperm Hasc].
  assert (Hsorted : List.Forall (chunk_of file) (sortByStart chunks)).
  { apply List.Forall_forall. intros c Hc. apply list_elem_of_In in Hc.
    rewrite Hperm in Hc. rewrite List.Forall_forall in Hall. apply Hall.
    apply list_elem_of_In. exact Hc. }
  destruct (fold_kept file (sortByStart chunks) Hasc Hsorted [] (- 2 ^ 31))
    as (bound & Hkept & Hchain & _).
  { repeat split; constructor. }
  { eapply List.Forall_impl; [|exact Hsorted]. cbn.
    intros c (_ & _ & Hr). unfold lines_in_range, int32_range in Hr. lia. }
  pose proof (chain_lookup _ _ Hchain i j x y Hij Hi Hj) as Hapart.
  unfold apart in Hapart.
  rewrite List.Forall_forall in Hkept.
  assert (Hx : chunk_of file x).
  { apply Hkept, list_elem_of_In. eapply list_elem_of_lookup_2. exact Hi. }
  assert (Hy : chunk_of file y).
  { apply Hkept, list_elem_of_In. eapply list_elem_of_lookup_2. exact Hj. }
  destruct Hx as (Hfx & Hx1 & Hx2). destruct Hy as (Hfy & Hy1 & Hy2).
  unfold lines_in_range, int32_range in *.
  split; [exact Hapart|]. unfold hasOverlap.
  rewrite Hfx, Hfy, String.eqb_refl. cbn [negb].
  rewrite !wrap32_id by (unfold int32_range; lia).
  rewrite !Z.geb_leb. split.
  - replace (StartLine y - 5 <=? EndLine x) with false; [reflexivity|].
    symmetry. apply Z.leb_gt. lia.
  - replace (StartLine y <=? EndLine x + 5) with false;
      [apply andb_false_r|]. symmetry. apply Z.leb_gt. lia.
Qed.

(** The de-duplication loses no line: every chunk given to it lies within
    the line range of a chunk of the same file in the result. *)
Theorem deduplicated_chunks_cover_the_input (chunks : list (CodeChunk F))
    (c : CodeChunk F) :
  (length chunks <= 12)%nat ->
  In c chunks ->
  exists m,
    In m (deduplicateFileChunks gt chunks)
    /\ FilePath m = FilePath c
    /\ StartLine m <= StartLine c /\ EndLine c <= EndLine m.
Proof.
  intros _ Hc.
  destruct (Nat.le_gt_cases (length chunks) 1) as [Hshort|Hlong].
  { exists c. unfold deduplicateFileChunks.
    destruct (Nat.leb_spec (length chunks) 1); [|lia].
    repeat split; auto; lia. }
  rewrite deduplicateFileChunks_fold by exact Hlong.
  destruct (sortByStart_spec chunks) as [Hperm _].
  pose proof (fold_covers (sortByStart chunks) [] [] (List.Forall_nil _))
    as Hcov.
  cbn [app] in Hcov. rewrite List.Forall_forall in Hcov.
  assert (Hin : In c (sortByStart chunks)).
  { apply list_elem_of_In. rewrite Hperm. apply list_elem_of_In. exact Hc. }
  specialize (Hcov c Hin). apply List.Exists_exists in Hcov as (m & Hm & Hcm).
  exists m. split; [exact Hm|exact Hcm].
Qed.

End Dedup.

(** Three hits in [auth.go]: lines 40-60, and the two hits of lines 10-30
    and 12-28. *)
Definition three_hits : list (CodeChunk Q) :=
  [example_chunk 40 60 "func logout() {}" (1 # 4) SEARCH_SOURCE_LEXICAL;
   lexical_hit; semantic_hit].

Lemma deduplicated_chunks_do_not_overlap_witness :
  (length three_hits <= 12)%nat
  /\ List.Forall (chunk_of "auth.go") three_hits
  /\ (0 < 1)%nat
  /\ deduplicateFileChunks Qgt three_hits !! 0%nat = Some merged_hit
  /\ deduplicateFileChunks Qgt three_hits !! 1%nat
     = Some (example_chunk 40 60 "func logout() {}" (1 # 4)
               SEARCH_SOURCE_LEXICAL)
  /\ EndLine merged_hit + 5
     < StartLine (example_chunk 40 60 "func logout() {}" (1 # 4)
                    SEARCH_SOURCE_LEXICAL)
  /\ hasOverlap merged_hit
       (example_chunk 40 60 "func logout() {}" (1 # 4) SEARCH_SOURCE_LEXICAL)
     = false
  /\ hasOverlap
       (example_chunk 40 60 "func logout() {}" (1 # 4) SEARCH_SOURCE_LEXICAL)
       merged_hit
     = false.
Proof.
  assert (Hlen : (length three_hits <= 12)%nat) by (cbn; lia).
  assert (Hall : List.Forall (chunk_of "auth.go") three_hits).
  { repeat constructor; cbn; unfold int32_range; lia. }
  assert (Hlt : (0 < 1)%nat) by lia.
  assert (H0 : deduplicateFileChunks Qgt three_hits !! 0%nat = Some merged_hit)
    by (vm_compute; reflexivity).
  assert (H1 : deduplicateFileChunks Qgt three_hits !! 1%nat
               = Some (example_chunk 40 60 "func logout() {}" (1 # 4)
                         SEARCH_SOURCE_LEXICAL))
    by (vm_compute; reflexivity).
  repeat (split; [assumption|]).
  exact (deduplicated_chunks_do_not_overlap Qgt "auth.go" three_hits Hlen
           Hall 0%nat 1%nat _ _ Hlt H0 H1).
Defined.

Lemma deduplicated_chunks_cover_the_input_witness :
  (length three_hits <= 12)%nat
  /\ In semantic_hit three_hits
  /\ exists m,
       In m (deduplicateFileChunks Qgt three_hits)
       /\ FilePath m = FilePath semantic_hit
       /\ StartLine m <= StartLine semantic_hit
       /\ EndLine semantic_hit <= EndLine m.
Proof.
  assert (Hlen : (length three_hits <= 12)%nat) by (cbn; lia).
  assert (Hin : In semantic_hit three_hits) by (cbn; auto).
  split; [exact Hlen|]. split; [exact Hin|].
  exact (deduplicated_chunks_cover_the_input Qgt three_hits semantic_hit
           Hlen Hin).
Defined.

End DedupFacts.

(** ** Normalization keeps the ranking *)

Module NormalizationFacts.

Import Proto Merger MergerFacts.

Local Open Scope R_scope.






End NormalizationFacts.

(** ** The chunker on any options *)

Module ChunkerFacts.

Import Ingest GoStringsFacts IngestFacts.

Section Chunks.

Variable lines : list string.
Variable fileInfo : FileInfo.
Variable options : ChunkOptions.

Hypothesis len_small : Z.of_nat (length lines) < 2 ^ 62.

(** The lines [first], ..., [last] of the file, numbered from 1. *)
Definition lines_between (first last : Z) : list string :=
  take (Z.to_nat (last - first + 1)) (drop (Z.to_nat (first - 1)) lines).

(** The chunk is a chunk of the file: its line numbers name lines of the
    file, its content is these lines, and its other fields follow from the
    content and the file. *)
Definition chunk_of_file (c : FileChunk) : Prop :=
  1 <= StartLine c /\ StartLine c <= EndLine c
  /\ EndLine c <= Z.of_nat (length lines)
  /\ Content c = Join (lines_between (StartLine c) (EndLine c)) newline
  /\ TrimSpace_is_empty (Content c) = false
  /\ ChunkSizeBytes c = Z.of_nat (String.length (Content c))
  /\ Hash c = hashContent (Content c)
  /\ FilePath c = Path fileInfo
  /\ ChunkLanguage c = Language fileInfo
  /\ RepositoryID c = EmptyString.

Lemma chunkLoop_chunks_of_file fuel :
  forall i chunks result,
  List.Forall chunk_of_file chunks ->
  chunkLoop fuel lines fileInfo options i chunks = Return (Ok result) ->
  List.Forall chunk_of_file result.
Proof.
  induction fuel as [|fuel IH]; intros i chunks result Hacc; [discriminate|].
  cbn [chunkLoop]. cbv zeta.
  destruct (negb (i <? Z.of_nat (length lines))) eqn:Hi;
    [intros [= <-]; exact Hacc|].
  apply negb_false_iff, Z.ltb_lt in Hi.
  set (endIdx := if wrap64 (i + ChunkSize options) >? Z.of_nat (length lines)
                 then Z.of_nat (length lines)
                 else wrap64 (i + ChunkSize options)).
  destruct ((wrap64 (endIdx - i) <? Z.quot (ChunkSize options) 10)
            && (i >? 0)); [intros [= <-]; exact Hacc|].
  destruct (slice lines i endIdx) as [chunkLines|] eqn:Hslice;
    [|discriminate].
  unfold slice in Hslice.
  destruct ((0 <=? i) && (i <=? endIdx)
            && (endIdx <=? Z.of_nat (length lines))) eqn:Hbounds;
    [|discriminate].
  injection Hslice as <-.
  apply andb_prop in Hbounds as [Hbounds Hend].
  apply andb_prop in Hbounds as [H0 Hle].
  apply Z.leb_le in H0, Hle, Hend.
  destruct (TrimSpace_is_empty _) eqn:Hblank; [apply IH; exact Hacc|].
  assert (Hlt : i < endIdx).
  { destruct (Z.eq_dec i endIdx) as [Heq|]; [|lia].
    replace (endIdx - i) with 0 in Hblank by lia.
    change (Z.to_nat 0) with 0%nat in Hblank. rewrite take_0 in Hblank.
    change (Join [] newline) with EmptyString in Hblank.
    rewrite blank_empty in Hblank. discriminate. }
  assert (Hnew : List.Forall chunk_of_file
    (chunks ++
     [{| ID := generateChunkID (Path fileInfo) (wrap64 (i + 1))
                 (wrap64 (wrap64 (endIdx + 1) - 1));
         RepositoryID := "";
         FilePath := Path fileInfo;
         StartLine := wrap64 (i + 1);
         EndLine := wrap64 (wrap64 (endIdx + 1) - 1);
         Content :=
           Join (take (Z.to_nat (endIdx - i)) (drop (Z.to_nat i) lines))
             newline;
         ChunkLanguage := Language fileInfo;
         ChunkSizeBytes :=
           Z.of_nat
             (String.length
                (Join (take (Z.to_nat (endIdx - i)) (drop (Z.to_nat i) lines))
                   newline));
         Hash :=
           hashContent
             (Join (take (Z.to_nat (endIdx - i)) (drop (Z.to_nat i) lines))
                newline) |}])).
  { apply List.Forall_app. split; [exact Hacc|].
    constructor; [|constructor].
    unfold chunk_of_file. cbn [StartLine EndLine Content ChunkSizeBytes Hash
                                FilePath ChunkLanguage RepositoryID].
    rewrite (wrap64_id (i + 1)) by (unfold int64_range; lia).
    rewrite (wrap64_id (endIdx + 1)) by (unfold int64_range; lia).
    rewrite (wrap64_id (endIdx + 1 - 1)) by (unfold int64_range; lia).
    unfold lines_between.
    replace (endIdx + 1 - 1 - (i + 1) + 1) with (endIdx - i) by lia.
    replace (i + 1 - 1) with i by lia.
    repeat split; try lia. exact Hblank. }
  destruct (endIdx >=? Z.of_nat (length lines)).
  - intros [= <-]. exact Hnew.
  - apply IH. exact Hnew.
Qed.

(** Whatever the options, every chunk that [chunkFile] returns is a chunk
    of the file: its line numbers lie within the file, its content is
    exactly the lines they name, joined by newlines, and is not blank; its
    size and hash are those of the content. *)
Theorem chunkFile_chunks_of_file (fuel : nat) (filePath : string)
    (chunks : list FileChunk) :
  chunkFile fuel (Ok lines) filePath fileInfo options = Return (Ok chunks) ->
  List.Forall chunk_of_file chunks.
Proof.
  unfold chunkFile. apply chunkLoop_chunks_of_file. constructor.
Qed.

End Chunks.

(** *** Options for which the loop does not advance *)

Section Steps.

Variable lines : list string.
Variable fileInfo : FileInfo.
Variable options : ChunkOptions.

Hypothesis size_pos : 0 < ChunkSize options.
Hypothesis longer : ChunkSize options < Z.of_nat (length lines).
Hypothesis len_small : Z.of_nat (length lines) < 2 ^ 62.

Lemma first_window_continues fuel chunks :
  exists chunks',
    chunkLoop (S fuel) lines fileInfo options 0 chunks
    = chunkLoop fuel lines fileInfo options
        (wrap64 (0 + wrap64 (ChunkSize options - ChunkOverlap options)))
        chunks'.
Proof.
  cbn [chunkLoop]. cbv zeta.
  assert (Hlt : (0 <? Z.of_nat (length lines)) = true) by lia.
  rewrite Hlt. cbn [negb].
  rewrite (wrap64_id (0 + ChunkSize options)) by (unfold int64_range; lia).
  rewrite Z.add_0_l.
  assert (Hgt : (ChunkSize options >? Z.of_nat (length lines)) = false) by lia.
  rewrite Hgt. change (0 >? 0) with false. rewrite andb_false_r.
  unfold slice.
  assert (Hb : (0 <=? 0) && (0 <=? ChunkSize options)
               && (ChunkSize options <=? Z.of_nat (length lines)) = true)
    by lia.
  rewrite Hb.
  assert (Hge : (ChunkSize options >=? Z.of_nat (length lines)) = false)
    by lia.
  rewrite Hge.
  destruct (TrimSpace_is_empty _); eexists; reflexivity.
Qed.

(** With an overlap equal to the chunk size the window never moves: on a
    file longer than one window [chunkFile] does not return, however many
    turns of its loop are allowed. *)
Theorem chunkFile_zero_step_never_returns (fuel : nat) (filePath : string) :
  ChunkOverlap options = ChunkSize options ->
  chunkFile fuel (Ok lines) filePath fileInfo options = OutOfFuel.
Proof.
  intros Hstep. unfold chunkFile. generalize (@nil FileChunk) as chunks.
  induction fuel as [|fuel IH]; intros chunks; [reflexivity|].
  destruct (first_window_continues fuel chunks) as [chunks' ->].
  rewrite Hstep, Z.sub_diag. change (wrap64 (0 + wrap64 0)) with 0.
  apply IH.
Qed.

(** With an overlap greater than the chunk size the window moves
    backwards: on a file longer than one window the second turn of the
    loop slices the lines from a negative index, and [chunkFile] panics. *)
Theorem chunkFile_negative_step_panics (fuel : nat) (filePath : string) :
  ChunkSize options < ChunkOverlap options < 2 ^ 62 ->
  (2 <= fuel)%nat ->
  chunkFile fuel (Ok lines) filePath fileInfo options = Panic.
Proof.
  intros Hstep Hfuel. unfold chunkFile.
  destruct fuel as [|[|fuel]]; [lia|lia|].
  destruct (first_window_continues (S fuel) []) as [chunks' ->].
  rewrite (wrap64_id (ChunkSize options - ChunkOverlap options))
    by (unfold int64_range; lia).
  rewrite Z.add_0_l.
  rewrite (wrap64_id (ChunkSize options - ChunkOverlap options))
    by (unfold int64_range; lia).
  set (i := ChunkSize options - ChunkOverlap options).
  assert (Hi : - 2 ^ 62 < i < 0) by (unfold i; lia).
  cbn [chunkLoop]. cbv zeta.
  assert (Hlt : (i <? Z.of_nat (length lines)) = true) by lia.
  rewrite Hlt. cbn [negb].
  assert (Hpos : (i >? 0) = false) by lia.
  rewrite Hpos, andb_false_r.
  unfold slice.
  assert (Hneg : (0 <=? i) = false) by lia.
  rewrite Hneg. reflexivity.
Qed.

End Steps.

Lemma chunkFile_chunks_of_file_witness :
  Z.of_nat (length short_file) < 2 ^ 62
  /\ chunkFile 17 (Ok short_file) "/work/a.go" example_file
       (example_options 15 0)
     = Return (Ok short_file_chunks)
  /\ List.Forall (chunk_of_file short_file example_file) short_file_chunks.
Proof.
  assert (Hlen : Z.of_nat (length short_file) < 2 ^ 62) by (cbn; lia).
  assert (Hrun : chunkFile 17 (Ok short_file) "/work/a.go" example_file
                   (example_options 15 0)
                 = Return (Ok short_file_chunks))
    by (vm_compute; reflexivity).
  split; [exact Hlen|]. split; [exact Hrun|].
  exact (chunkFile_chunks_of_file short_file example_file
           (example_options 15 0) Hlen 17 "/work/a.go" short_file_chunks
           Hrun).
Defined.

Lemma chunkFile_zero_step_never_returns_witness :
  0 < ChunkSize (example_options 15 15)
  /\ ChunkSize (example_options 15 15) < Z.of_nat (length short_file)
  /\ Z.of_nat (length short_file) < 2 ^ 62
  /\ ChunkOverlap (example_options 15 15) = ChunkSize (example_options 15 15)
  /\ chunkFile 1000 (Ok short_file) "/work/a.go" example_file
       (example_options 15 15)
     = OutOfFuel.
Proof.
  assert (Hsize : 0 < ChunkSize (example_options 15 15)) by (cbn; lia).
  assert (Hlong : ChunkSize (example_options 15 15)
                  < Z.of_nat (length short_file)) by (cbn; lia).
  assert (Hlen : Z.of_nat (length short_file) < 2 ^ 62) by (cbn; lia).
  assert (Hstep : ChunkOverlap (example_options 15 15)
                  = ChunkSize (example_options 15 15)) by reflexivity.
  repeat (split; [assumption|]).
  exact (chunkFile_zero_step_never_returns short_file example_file
           (example_options 15 15) Hsize Hlong Hlen 1000 "/work/a.go" Hstep).
Defined.

Lemma chunkFile_negative_step_panics_witness :
  0 < ChunkSize (example_options 15 20)
  /\ ChunkSize (example_options 15 20) < Z.of_nat (length short_file)
  /\ Z.of_nat (length short_file) < 2 ^ 62
  /\ ChunkSize (example_options 15 20) < ChunkOverlap (example_options 15 20)
     < 2 ^ 62
  /\ (2 <= 17)%nat
  /\ chunkFile 17 (Ok short_file) "/work/a.go" example_file
       (example_options 15 20)
     = Panic.
Proof.
  assert (Hsize : 0 < ChunkSize (example_options 15 20)) by (cbn; lia).
  assert (Hlong : ChunkSize (example_options 15 20)
                  < Z.of_nat (length short_file)) by (cbn; lia).
  assert (Hlen : Z.of_nat (length short_file) < 2 ^ 62) by (cbn; lia).
  assert (Hstep : ChunkSize (example_options 15 20)
                  < ChunkOverlap (example_options 15 20) < 2 ^ 62)
    by (cbn; lia).
  assert (Hfuel : (2 <= 17)%nat) by lia.
  repeat (split; [assumption|]).
  exact (chunkFile_negative_step_panics short_file example_file
           (example_options 15 20) Hsize Hlong Hlen 17 "/work/a.go" Hstep
           Hfuel).
Defined.

End ChunkerFacts.

(** ** Reading the results of a semantic search *)

Module SemanticFacts.

Import Proto Semantic GoStringsFacts FmtFacts.

Definition hyphen_free (s : string) : bool :=
  all_chars (fun c => negb (Ascii.eqb c "-"%char)) s.

Lemma RemoveHyphens_hyphen_free s : hyphen_free (RemoveHyphens s) = true.
Proof.
  unfold hyphen_free. induction s as [|c s IH]; [reflexivity|].
  cbn [RemoveHyphens]. destruct (Ascii.eqb c "-"%char) eqn:Hc; [exact IH|].
  cbn [all_chars]. rewrite Hc, IH. reflexivity.
Qed.

Lemma RemoveHyphens_id s : hyphen_free s = true -> RemoveHyphens s = s.
Proof.
  unfold hyphen_free. induction s as [|c s IH]; [reflexivity|].
  cbn [all_chars RemoveHyphens]. intros H. apply andb_prop in H as [Hc Hs].
  apply negb_true_iff in Hc. rewrite Hc, IH by exact Hs. reflexivity.
Qed.

(** The class name of a repository is never its id. *)
Lemma toWeaviateClassName_differs repoID :
  Ingest.toWeaviateClassName repoID <> repoID.
Proof.
  unfold Ingest.toWeaviateClassName. intros H.
  assert (Hprefix : HasPrefix repoID "repo-" = false).
  { rewrite <- H. reflexivity. }
  unfold TrimPrefix in H. rewrite Hprefix in H.
  assert (Hfree : hyphen_free repoID = true).
  { rewrite <- H. unfold hyphen_free.
    change ("Repo" +:+ RemoveHyphens repoID)
      with (String "R" (String "e" (String "p" (String "o"
              (RemoveHyphens repoID))))).
    cbn [all_chars]. apply (RemoveHyphens_hyphen_free repoID). }
  rewrite RemoveHyphens_id in H by exact Hfree.
  apply (f_equal String.length) in H. rewrite length_append in H.
  cbn [String.length] in H. lia.
Qed.

Section Client.

Context {F N : Type}.
Variable int32_of : N -> Z.
Variable float32_of : N -> F.
Variable zero : F.
Variable show_errors : list string -> string.
Variable run_query :
  string -> list F -> Z -> gmap string Ingest.any -> result (GraphQLResponse N).

(** [SearchSemantic] asks Weaviate for the class of the repository and
    then looks for the results under the repository id. An answer that
    holds its results under the name of the class that was asked for, and
    under no other key, is read as "no results": the search returns no
    chunk and no error, whatever the answer holds. *)
Theorem SearchSemantic_reads_the_wrong_key (repoID : string)
    (queryVector : list F) (limit : Z) (filters : gmap string Ingest.any)
    (response : GraphQLResponse N) (data : gmap string (value N)) :
  run_query (Ingest.toWeaviateClassName repoID) queryVector limit filters
  = Ok response ->
  Errors response = [] ->
  Data response !! "Get" = Some (VObject data) ->
  (forall key, is_Some (data !! key) ->
               key = Ingest.toWeaviateClassName repoID) ->
  SearchSemantic int32_of float32_of zero show_errors run_query repoID
    queryVector limit filters
  = Ok [].
Proof.
  intros Hrun Herrors Hget Hkeys. unfold SearchSemantic, parseSearchResults.
  rewrite Hrun, Herrors, Hget.
  destruct (data !! repoID) as [v|] eqn:Hrepo; [|reflexivity].
  exfalso. apply (toWeaviateClassName_differs repoID).
  symmetry. apply Hkeys. rewrite Hrepo. eauto.
Qed.

(** Every chunk that [parseSearchResults] returns belongs to the
    repository asked for and is marked as a semantic result, and there is
    at most one chunk per item of the answer; an answer with GraphQL
    errors gives an error. *)
Theorem parseSearchResults_chunks (response : GraphQLResponse N)
    (repoID : string) (chunks : list (CodeChunk F)) :
  parseSearchResults int32_of float32_of zero show_errors response repoID
  = Ok chunks ->
  Errors response = []
  /\ List.Forall (fun chunk => RepositoryId chunk = repoID
                               /\ Source chunk = SEARCH_SOURCE_SEMANTIC)
       chunks
  /\ (chunks = []
      \/ exists data classData,
           Data response !! "Get" = Some (VObject data)
           /\ data !! repoID = Some (VArray classData)
           /\ (length chunks <= length classData)%nat).
Proof.
  unfold parseSearchResults.
  destruct (Errors response); [|discriminate].
  destruct (Data response !! "Get") as [[| | | | |data]|] eqn:Hget;
    try discriminate.
  destruct (data !! repoID) as [[| | | |classData|]|] eqn:Hclass;
    try (intros [= <-]; repeat split; [constructor|left; reflexivity]).
  intros [= <-]. split; [reflexivity|]. split.
  - clear. induction classData as [|item rest IH]; [constructor|].
    cbn [flat_map]. apply List.Forall_app. split; [|exact IH].
    destruct item; constructor; [split; reflexivity|constructor].
  - right. exists data, classData.
    split; [reflexivity|]. split; [exact Hclass|].
    clear. induction classData as [|item rest IH]; [reflexivity|].
    cbn [flat_map]. rewrite length_app. destruct item; cbn [length]; lia.
Qed.

End Client.

(** An answer of Weaviate for the class [Repo1000], with one object and one
    item that is not an object, and the same items under the repository
    id. [float64] and [float32] are carried by [Q]. *)
Definition found_item : value Q :=
  VObject {[ "file_path" := VString "auth.go";
             "start_line" := VNumber (10 # 1)%Q;
             "end_line" := VNumber (30 # 1)%Q;
             "_additional" := VObject {[ "certainty" := VNumber (9 # 10)%Q ]}
               ]}.

Definition answer (key : string) : GraphQLResponse Q := {|
  Data := {[ "Get" := VObject {[ key := VArray [found_item; VNull] ]} ]};
  Errors := []
|}.

Definition truncate (x : Q) : Z := (Qnum x / Z.pos (Qden x))%Z.

Definition answers_class (className : string) (queryVector : list Q)
    (limit : Z) (filters : gmap string Ingest.any)
  : result (GraphQLResponse Q) :=
  Ok (answer className).

Lemma SearchSemantic_reads_the_wrong_key_witness :
  answers_class (Ingest.toWeaviateClassName "repo-1000") [1 # 2]%Q 10 ∅
  = Ok (answer "Repo1000")
  /\ Errors (answer "Repo1000") = []
  /\ Data (answer "Repo1000") !! "Get"
     = Some (VObject {[ "Repo1000" := VArray [found_item; VNull] ]})
  /\ (forall key,
        is_Some (({[ "Repo1000" := VArray [found_item; VNull] ]}
                  : gmap string (value Q)) !! key) ->
        key = Ingest.toWeaviateClassName "repo-1000")
  /\ SearchSemantic truncate (fun x => x) 0%Q (fun _ => "") answers_class
       "repo-1000" [1 # 2]%Q 10 ∅
     = Ok [].
Proof.
  assert (Hrun : answers_class (Ingest.toWeaviateClassName "repo-1000")
                   [1 # 2]%Q 10 ∅
                 = Ok (answer "Repo1000")) by reflexivity.
  assert (Herrors : Errors (answer "Repo1000") = []) by reflexivity.
  assert (Hget : Data (answer "Repo1000") !! "Get"
                 = Some (VObject {[ "Repo1000" := VArray [found_item; VNull]
                   ]}))
    by reflexivity.
  assert (Hkeys : forall key,
             is_Some (({[ "Repo1000" := VArray [found_item; VNull] ]}
                       : gmap string (value Q)) !! key) ->
             key = Ingest.toWeaviateClassName "repo-1000").
  { intros key [v Hv]. apply lookup_singleton_Some in Hv as [<- _].
    reflexivity. }
  repeat (split; [assumption|]).
  exact (SearchSemantic_reads_the_wrong_key truncate (fun x => x) 0%Q
           (fun _ => "") answers_class "repo-1000" [1 # 2]%Q 10 ∅
           (answer "Repo1000") _ Hrun Herrors Hget Hkeys).
Defined.

Definition found_chunk : CodeChunk Q := {|
  RepositoryId := "repo-1000"; FilePath := "auth.go"; StartLine := 10;
  EndLine := 30; Content := ""; Language := ""; Symbol := "";
  Score := (9 # 10)%Q; Source := SEARCH_SOURCE_SEMANTIC
|}.

Lemma parseSearchResults_chunks_witness :
  parseSearchResults truncate (fun x => x) 0%Q (fun _ => "")
    (answer "repo-1000") "repo-1000"
  = Ok [found_chunk]
  /\ Errors (answer "repo-1000") = []
  /\ List.Forall (fun chunk => RepositoryId chunk = "repo-1000"
                               /\ Source chunk = SEARCH_SOURCE_SEMANTIC)
       [found_chunk]
  /\ ([found_chunk] = []
      \/ exists data classData,
           Data (answer "repo-1000") !! "Get" = Some (VObject data)
           /\ data !! "repo-1000" = Some (VArray classData)
           /\ (length [found_chunk] <= length classData)%nat).
Proof.
  assert (Hrun : parseSearchResults truncate (fun x => x) 0%Q (fun _ => "")
                   (answer "repo-1000") "repo-1000"
                 = Ok [found_chunk]) by reflexivity.
  split; [exact Hrun|].
  exact (parseSearchResults_chunks truncate (fun x => x) 0%Q (fun _ => "")
           (answer "repo-1000") "repo-1000" [found_chunk] Hrun).
Defined.

End SemanticFacts.

(** ** Asking for a repository *)

Module RepositoryServerFacts.

Import Upload RepositoryServer.

Section Handlers.

Variable DefaultTenant : string.

Lemma GetRepository_not_terminal (req : GetRepositoryRequest)
    (w : World) (repository : Repository) :
  redis_up w = true ->
  repo_meta w
    !! repositoryMetadataKey
         (if String.eqb (GetTenantId req) "" then DefaultTenant
          else GetTenantId req)
         (GetRepositoryId req)
  = Some repository ->
  RepositoryId repository = GetRepositoryId req ->
  IngestionStatus repository <> STATE_READY ->
  IngestionStatus repository <> STATE_FAILED ->
  exists w',
    GetRepository DefaultTenant req w
    = (Ok (withStatus repository STATE_READY), w')
    /\ GetRepositoryMetadata
         (if String.eqb (GetTenantId req) "" then DefaultTenant
          else GetTenantId req)
         (GetRepositoryId req) w'
       = Ok (Some (withStatus repository STATE_READY))
    /\ pipelines w' = pipelines w
    /\ upload_status w' = upload_status w.
Proof.
  intros Hup Hstored Hid Hready Hfailed.
  unfold GetRepository, GetRepositoryMetadata. rewrite Hup, Hstored.
  assert (Hstate : negb (is_state (IngestionStatus repository) STATE_READY)
                   && negb (is_state (IngestionStatus repository)
                              STATE_FAILED) = true)
    by (destruct (IngestionStatus repository); try reflexivity; congruence).
  rewrite Hstate. cbn [GetIndexStatus].
  unfold SetRepositoryMetadata. rewrite Hup.
  cbn [snd redis_up repo_meta pipelines upload_status withStatus RepositoryId].
  eexists. split; [reflexivity|].
  cbn [redis_up repo_meta pipelines upload_status].
  rewrite ?Hup, Hid, lookup_insert_eq. repeat split.
Qed.

(** [GetRepository] on a repository that is neither READY nor FAILED
    answers that it is READY and stores that: from then on the cache holds
    the repository as READY, although no pipeline has run and no status of
    an upload has changed. *)
Theorem GetRepository_marks_repository_ready (req : GetRepositoryRequest)
    (w : World) (repository : Repository) :
  redis_up w = true ->
  repo_meta w
    !! repositoryMetadataKey
         (if String.eqb (GetTenantId req) "" then DefaultTenant
          else GetTenantId req)
         (GetRepositoryId req)
  = Some repository ->
  RepositoryId repository = GetRepositoryId req ->
  IngestionStatus repository <> STATE_READY ->
  IngestionStatus repository <> STATE_FAILED ->
  exists w',
    GetRepository DefaultTenant req w
    = (Ok (withStatus repository STATE_READY), w')
    /\ GetRepositoryMetadata
         (if String.eqb (GetTenantId req) "" then DefaultTenant
          else GetTenantId req)
         (GetRepositoryId req) w'
       = Ok (Some (withStatus repository STATE_READY))
    /\ pipelines w' = pipelines w
    /\ upload_status w' = upload_status w.
Proof. apply GetRepository_not_terminal. Qed.

(** So a chat can be started on a repository that was only just accepted:
    after [UploadGitRepository] accepted an upload, one call of
    [GetRepository] for its repository makes [handleChatStart] accept a
    Start for it. *)
Theorem Start_accepted_after_GetRepository {F : Type}
    (req : UploadGitRepositoryRequest) (resp : UploadRepositoryResponse)
    (w w1 w2 : World) (answer : result Repository) (a : Chat.Answers F)
    (start : Chat.ChatStart) (st : Chat.ServerState) :
  UploadGitRepository DefaultTenant req w = (Ok resp, w1) ->
  GetRepository DefaultTenant
    {| GetTenantId := TenantId req;
       GetRepositoryId := ResponseRepositoryId resp |} w1
  = (answer, w2) ->
  Chat.StartTenantId start = TenantId req ->
  Chat.StartRepositoryId start = ResponseRepositoryId resp ->
  Chat.repository a
  = GetRepositoryMetadata
      (if String.eqb (Chat.StartTenantId start) "" then DefaultTenant
       else Chat.StartTenantId start)
      (Chat.StartRepositoryId start) w2 ->
  pipelines w2 = pipelines w1
  /\ exists session st',
       Chat.handleChatStart DefaultTenant a start st = (Ok session, st').
Proof.
  intros Hupload Hget Htenant Hrepository Hanswer.
  rewrite Htenant, Hrepository in Hanswer.
  assert (Hstored :
    redis_up w1 = true
    /\ exists repository,
         repo_meta w1
           !! repositoryMetadataKey
                (if String.eqb (TenantId req) "" then DefaultTenant
                 else TenantId req)
                (ResponseRepositoryId resp)
         = Some repository
         /\ RepositoryId repository = ResponseRepositoryId resp
         /\ IngestionStatus repository = STATE_PENDING).
  { revert Hupload.
    unfold UploadGitRepository, generateRepositoryID, generateUploadID, tick.
    destruct (String.eqb (IdempotencyKey req) "");
      (destruct (GitRepo req) as [gitRepo|]; [|discriminate]);
      (destruct (String.eqb (Url gitRepo) ""); [discriminate|]).
    all: unfold CreateRepositoryIndex, tick, SetUploadStatus, spawn,
           SetRepositoryMetadata;
      cbn [redis_up upload_status repo_meta pipelines now];
      destruct (redis_up w) eqn:Hup; [|discriminate];
      cbn [redis_up upload_status repo_meta pipelines now snd];
      rewrite ?Hup; cbn [snd redis_up repo_meta RepositoryId];
      intros [= <- <-]; cbn [redis_up repo_meta ResponseRepositoryId];
      (split; [first [exact Hup|reflexivity]|]); eexists;
      (split; [apply lookup_insert_eq|]); split; reflexivity. }
  destruct Hstored as (Hup & repository & Hrepo & Hid & Hstate).
  destruct (GetRepository_not_terminal
              {| GetTenantId := TenantId req;
                 GetRepositoryId := ResponseRepositoryId resp |}
              w1 repository Hup Hrepo Hid)
    as (w' & Hrun & Hmeta & Hpipes & _);
    [rewrite Hstate; discriminate|rewrite Hstate; discriminate|].
  rewrite Hrun in Hget. injection Hget as <- <-.
  split; [exact Hpipes|].
  cbn [GetTenantId GetRepositoryId] in Hmeta. rewrite Hmeta in Hanswer.
  unfold Chat.handleChatStart. rewrite Hanswer. cbn [IngestionStatus
    withStatus].
  eexists _, _. reflexivity.
Qed.

End Handlers.

(** *** Concrete requests *)

Import UploadFacts.

Definition accepted_repository : GetRepositoryRequest :=
  {| GetTenantId := "local"; GetRepositoryId := "repo-1000" |}.

Definition pending_repository : Repository := {|
  RepositoryId := "repo-1000"; Name := "y";
  Description := "Repository cloned from https://host/x/y.git";
  Source := GitUrl "https://host/x/y.git" "main";
  IngestionStatus := STATE_PENDING; RepoCreatedAt := 1001
|}.

Definition after_get : World :=
  snd (GetRepository "local" accepted_repository after_first).

Lemma GetRepository_marks_repository_ready_witness :
  redis_up after_first = true
  /\ repo_meta after_first
       !! repositoryMetadataKey
            (if String.eqb (GetTenantId accepted_repository) "" then "local"
             else GetTenantId accepted_repository)
            (GetRepositoryId accepted_repository)
     = Some pending_repository
  /\ RepositoryId pending_repository = GetRepositoryId accepted_repository
  /\ IngestionStatus pending_repository <> STATE_READY
  /\ IngestionStatus pending_repository <> STATE_FAILED
  /\ exists w',
       GetRepository "local" accepted_repository after_first
       = (Ok (withStatus pending_repository STATE_READY), w')
       /\ GetRepositoryMetadata
            (if String.eqb (GetTenantId accepted_repository) "" then "local"
             else GetTenantId accepted_repository)
            (GetRepositoryId accepted_repository) w'
          = Ok (Some (withStatus pending_repository STATE_READY))
       /\ pipelines w' = pipelines after_first
       /\ upload_status w' = upload_status after_first.
Proof.
  assert (Hup : redis_up after_first = true) by reflexivity.
  assert (Hstored : repo_meta after_first
                    !! repositoryMetadataKey
                         (if String.eqb (GetTenantId accepted_repository) ""
                          then "local" else GetTenantId accepted_repository)
                         (GetRepositoryId accepted_repository)
                    = Some pending_repository) by (vm_compute; reflexivity).
  assert (Hid : RepositoryId pending_repository
                = GetRepositoryId accepted_repository) by reflexivity.
  assert (Hready : IngestionStatus pending_repository <> STATE_READY)
    by discriminate.
  assert (Hfailed : IngestionStatus pending_repository <> STATE_FAILED)
    by discriminate.
  repeat (split; [assumption|]).
  exact (GetRepository_marks_repository_ready "local" accepted_repository
           after_first pending_repository Hup Hstored Hid Hready Hfailed).
Defined.

(** The answers of the collaborators of the chat server when the cache is
    in the state that [GetRepository] left. *)
Definition answers_after_get : Chat.Answers Q := {|
  Chat.repository := GetRepositoryMetadata "local" "repo-1000" after_get;
  Chat.clock := 2000;
  Chat.lexical := Ok []; Chat.embeddings := Ok [];
  Chat.semantic := fun _ => Ok []; Chat.completion := Ok [];
  Chat.event_stream := Ok ([], None); Chat.compositionMs := 0
|}.

Definition start_accepted : Chat.ChatStart :=
  {| Chat.StartRepositoryId := "repo-1000";
     Chat.StartTenantId := "local"; Chat.StartOptions := None |}.

Lemma Start_accepted_after_GetRepository_witness :
  UploadGitRepository "local" example_request empty_world
  = (Ok {| UploadId := "k1"; ResponseRepositoryId := "repo-1000";
           ResponseAcceptedAt := 1001; ResponseStatus := STATE_PENDING |},
     after_first)
  /\ GetRepository "local"
       {| GetTenantId := TenantId example_request;
          GetRepositoryId := "repo-1000" |} after_first
     = (Ok (withStatus pending_repository STATE_READY), after_get)
  /\ Chat.StartTenantId start_accepted = TenantId example_request
  /\ Chat.StartRepositoryId start_accepted = "repo-1000"
  /\ Chat.repository answers_after_get
     = GetRepositoryMetadata
         (if String.eqb (Chat.StartTenantId start_accepted) "" then "local"
          else Chat.StartTenantId start_accepted)
         (Chat.StartRepositoryId start_accepted) after_get
  /\ pipelines after_get = pipelines after_first
  /\ exists session st',
       Chat.handleChatStart "local" answers_after_get start_accepted
         ChatFacts.no_sessions
       = (Ok session, st').
Proof.
  assert (Hupload : UploadGitRepository "local" example_request empty_world
                    = (Ok {| UploadId := "k1";
                             ResponseRepositoryId := "repo-1000";
                             ResponseAcceptedAt := 1001;
                             ResponseStatus := STATE_PENDING |}, after_first))
    by (vm_compute; reflexivity).
  assert (Hget : GetRepository "local"
                   {| GetTenantId := TenantId example_request;
                      GetRepositoryId := "repo-1000" |} after_first
                 = (Ok (withStatus pending_repository STATE_READY),
                    after_get)) by (vm_compute; reflexivity).
  assert (Htenant : Chat.StartTenantId start_accepted
                    = TenantId example_request) by reflexivity.
  assert (Hrepository : Chat.StartRepositoryId start_accepted = "repo-1000")
    by reflexivity.
  assert (Hanswer : Chat.repository answers_after_get
                    = GetRepositoryMetadata
                        (if String.eqb (Chat.StartTenantId start_accepted) ""
                         then "local" else Chat.StartTenantId start_accepted)
                        (Chat.StartRepositoryId start_accepted) after_get)
    by reflexivity.
  split; [exact Hupload|]. split; [exact Hget|]. split; [exact Htenant|].
  split; [exact Hrepository|]. split; [exact Hanswer|].
  exact (Start_accepted_after_GetRepository "local" example_request _
           empty_world after_first after_get _ answers_after_get
           start_accepted ChatFacts.no_sessions Hupload Hget Htenant
           Hrepository Hanswer).
Defined.

End RepositoryServerFacts.

(** ** The ingestion pipeline *)

Module ProcessorFacts.

Import Ingest Weaviate Upload Processor.
Import GoStringsFacts IngestFacts ChunkerFacts WeaviateFacts.

Lemma chunkLoop_no_repository fuel lines fileInfo options :
  forall i chunks result,
  Forall (fun c => RepositoryID c = EmptyString) chunks ->
  chunkLoop fuel lines fileInfo options i chunks = Return (Ok result) ->
  Forall (fun c => RepositoryID c = EmptyString) result.
Proof.
  induction fuel as [|fuel IH]; intros i chunks result Hacc; [discriminate|].
  cbn [chunkLoop]. cbv zeta.
  repeat match goal with
         | |- context [if ?b then _ else _] => destruct b
         | |- context [match slice ?l ?a ?b with _ => _ end] =>
           destruct (slice l a b)
         | |- Return (Ok _) = Return (Ok _) -> _ =>
           intros [= <-]; try assumption
         | |- chunkLoop _ _ _ _ _ _ = _ -> _ =>
           apply IH; try assumption
         | |- Panic = _ -> _ => discriminate
         end.
  all: apply Forall_app; split; [assumption|];
    constructor; [reflexivity | constructor].
Qed.

Section Files.

Variable filepath_Join : string -> string -> string.
Variable compiles : string -> bool.
Variable MatchString : string -> string -> bool.
Variable scan : string -> result (list string).
Variable fuel : nat.

(** The file passes the filters of [ChunkFiles]: no exclude pattern matches
    its path, an include pattern does if there is one, it is not larger
    than a positive size limit, and it is a text file. *)
Definition passes (options : ChunkOptions) (fileInfo : FileInfo) : bool :=
  negb (matchesPatterns MatchString (Path fileInfo)
          (compilePatterns compiles (ExcludePatterns options)))
  && match compilePatterns compiles (IncludePatterns options) with
     | [] => true
     | includes => matchesPatterns MatchString (Path fileInfo) includes
     end
  && negb ((MaxFileSize options >? 0) && (Size fileInfo >? MaxFileSize options))
  && negb (IsBinary fileInfo) && IsText fileInfo.

(** The chunk comes from a file of the list that passes the filters and
    could be read. *)
Definition chunk_of_files (repositoryPath : string) (options : ChunkOptions)
    (files : list FileInfo) (c : FileChunk) : Prop :=
  exists fileInfo lines,
    In fileInfo files
    /\ passes options fileInfo = true
    /\ scan (filepath_Join repositoryPath (Path fileInfo)) = Ok lines
    /\ chunk_of_file lines fileInfo c.

Lemma chunkEach_chunks_of_files repositoryPath options all :
  (forall fileInfo lines,
     In fileInfo all ->
     scan (filepath_Join repositoryPath (Path fileInfo)) = Ok lines ->
     Z.of_nat (length lines) < 2 ^ 62) ->
  forall files allChunks chunks,
  (forall fileInfo, In fileInfo files -> In fileInfo all) ->
  Forall (chunk_of_files repositoryPath options all) allChunks ->
  chunkEach filepath_Join MatchString scan fuel repositoryPath options
    (compilePatterns compiles (ExcludePatterns options))
    (compilePatterns compiles (IncludePatterns options)) files allChunks
  = Return (Ok chunks) ->
  Forall (chunk_of_files repositoryPath options all) chunks.
Proof.
  intros Hsmall files.
  induction files as [|fileInfo files IH]; intros allChunks chunks Hsub Hacc.
  { intros [= <-]. exact Hacc. }
  assert (Hrest : forall f, In f files -> In f all)
    by (intros f Hf; apply Hsub; right; exact Hf).
  cbn [chunkEach]. cbv zeta.
  destruct (matchesPatterns MatchString (Path fileInfo)
              (compilePatterns compiles (ExcludePatterns options))) eqn:Hex;
    [apply IH; assumption|].
  destruct ((0 <? length (compilePatterns compiles (IncludePatterns
    options)))%nat
            && negb (matchesPatterns MatchString (Path fileInfo)
                       (compilePatterns compiles (IncludePatterns options))))
    eqn:Hin; [apply IH; assumption|].
  destruct ((MaxFileSize options >? 0)
            && (Size fileInfo >? MaxFileSize options)) eqn:Hsize;
    [apply IH; assumption|].
  destruct (IsBinary fileInfo || negb (IsText fileInfo)) eqn:Htext;
    [apply IH; assumption|].
  apply orb_false_elim in Htext as [Hbin Htext].
  apply negb_false_iff in Htext.
  assert (Hpass : passes options fileInfo = true).
  { unfold passes. rewrite Hex, Hsize, Hbin, Htext. cbn [negb andb].
    rewrite !andb_true_r.
    destruct (compilePatterns compiles (IncludePatterns options)) eqn:Hinc;
      [reflexivity|].
    cbn [length] in Hin. change (0 <? S _)%nat with true in Hin.
    cbn [andb] in Hin. apply negb_false_iff in Hin. exact Hin. }
  destruct (scan (filepath_Join repositoryPath (Path fileInfo)))
    as [lines|e] eqn:Hscan; cbn [chunkFile]; [|apply IH; assumption].
  destruct (chunkLoop fuel lines fileInfo options 0 []) as [[new|e]| |]
    eqn:Hloop; try discriminate; [|apply IH; assumption].
  apply IH; [assumption|].
  apply Forall_app. split; [exact Hacc|].
  assert (Hlen : Z.of_nat (length lines) < 2 ^ 62)
    by (apply (Hsmall fileInfo); [apply Hsub; left; reflexivity|exact Hscan]).
  pose proof (chunkLoop_chunks_of_file lines fileInfo options Hlen fuel 0 []
                new (List.Forall_nil _) Hloop) as Hnew.
  eapply Forall_impl; [exact Hnew|].
  intros c Hc. exists fileInfo, lines.
  split; [apply Hsub; left; reflexivity|]. auto.
Qed.

(** Every chunk that [ChunkFiles] returns comes from a file of the extract
    result that passes the filters (not excluded, included if there are
    include patterns, within the size limit, text) and could be read, and
    is a chunk of that file: its lines lie within the file and its content
    is these lines. *)
Theorem ChunkFiles_chunks_of_files (extractResult : ExtractResult)
    (options : ChunkOptions) (chunks : list FileChunk) :
  (forall fileInfo lines,
     In fileInfo (Files extractResult) ->
     scan (filepath_Join (RepositoryPath extractResult) (Path fileInfo))
     = Ok lines ->
     Z.of_nat (length lines) < 2 ^ 62) ->
  ChunkFiles filepath_Join compiles MatchString scan fuel extractResult options
  = Return (Ok chunks) ->
  Forall (chunk_of_files (RepositoryPath extractResult) options
            (Files extractResult)) chunks.
Proof.
  intros Hsmall Hrun. unfold ChunkFiles in Hrun.
  eapply chunkEach_chunks_of_files; [exact Hsmall| |constructor|exact Hrun].
  auto.
Qed.

Lemma chunkEach_no_repository repositoryPath options excludes includes :
  forall files allChunks chunks,
  Forall (fun c => RepositoryID c = EmptyString) allChunks ->
  chunkEach filepath_Join MatchString scan fuel repositoryPath options
    excludes includes files allChunks = Return (Ok chunks) ->
  Forall (fun c => RepositoryID c = EmptyString) chunks.
Proof.
  induction files as [|fileInfo files IH]; intros allChunks chunks Hacc.
  { intros [= <-]. exact Hacc. }
  cbn [chunkEach]. cbv zeta.
  repeat match goal with
         | |- context [if ?b then _ else _] => destruct b
         | |- chunkEach _ _ _ _ _ _ _ _ _ _ = _ -> _ =>
           apply IH; try assumption
         end.
  destruct (chunkFile _ _ _ _ _) as [[new|e]| |] eqn:Hfile;
    try discriminate; [|apply IH; assumption].
  apply IH. apply Forall_app. split; [exact Hacc|].
  unfold chunkFile in Hfile. destruct (scan _); [|discriminate].
  eapply chunkLoop_no_repository; [constructor|exact Hfile].
Qed.

End Files.

Section Embeddings.

Context {float32 : Type}.

Variable GetDefaultModel : string.
Variable embeddingClient :
  list string -> string -> result (list (list float32)).
Variable clock : nat -> Z.

(** When [GenerateEmbeddings] succeeds on chunks, the embedding client gave
    exactly one vector per chunk, and the result holds one embedded chunk
    per chunk, in order: the chunk at an index, with the repository
    ["repo-id"] if it had none, the vector at the same index, and the
    model name [text-embedding-3-small] whatever model was asked for. *)
Theorem GenerateEmbeddings_pairs (chunks : list FileChunk)
    (embedded : list (EmbeddedChunk float32)) :
  chunks <> [] ->
  GenerateEmbeddings GetDefaultModel embeddingClient clock chunks
  = Ok embedded ->
  exists embeddings,
    embeddingClient (map embeddingText (map withRepositoryID chunks))
      GetDefaultModel = Ok embeddings
    /\ length embeddings = length chunks
    /\ length embedded = length chunks
    /\ forall i chunk,
         chunks !! i = Some chunk ->
         exists vector,
           embeddings !! i = Some vector
           /\ embedded !! i
              = Some {| Chunk := withRepositoryID chunk;
                        Embedding := vector;
                        EmbeddingModel := "text-embedding-3-small";
                        Ingest.CreatedAt := clock i |}.
Proof.
  intros Hne. unfold GenerateEmbeddings.
  destruct chunks as [|c0 cs] eqn:Hchunks; [congruence|]. rewrite <- Hchunks.
  clear Hchunks Hne c0 cs.
  destruct (embeddingClient _ _) as [embeddings|e]; [|discriminate].
  destruct (length embeddings =? length (map withRepositoryID chunks))%nat
    eqn:Hlen; [|discriminate].
  cbn [negb]. intros [= <-].
  apply Nat.eqb_eq in Hlen. rewrite length_map in Hlen.
  exists embeddings. split; [reflexivity|]. split; [exact Hlen|].
  split.
  { rewrite length_imap, length_zip_with, length_map. lia. }
  intros i chunk Hi.
  destruct (embeddings !! i) as [vector|] eqn:Hv.
  2:{ apply lookup_ge_None in Hv. apply lookup_lt_Some in Hi. lia. }
  exists vector. split; [reflexivity|].
  rewrite list_lookup_imap.
  assert (Hz : zip (map withRepositoryID chunks) embeddings !! i
               = Some (withRepositoryID chunk, vector)).
  { apply lookup_zip_Some. rewrite list_lookup_fmap, Hi. auto. }
  rewrite Hz. reflexivity.
Qed.

End Embeddings.

Section Pipeline.

Context {float32 : Type}.

Variable ExtractRepository : RepositorySource -> string -> result ExtractResult.
Variable filepath_Join : string -> string -> string.
Variable filepath_Base : string -> string.
Variable filepath_Ext : string -> string.
Variable workDir : string.
Variable compiles : string -> bool.
Variable MatchString : string -> string -> bool.
Variable scan : string -> result (list string).
Variable fuel : nat.
Variable GetDefaultModel : string.
Variable embeddingClient :
  list string -> string -> result (list (list float32)).
Variable clock : nat -> Z.

(** The pipeline with Weaviate as its vector store. *)
Let run := processRepository (W := Weaviate.Server float32)
  ExtractRepository filepath_Join filepath_Base filepath_Ext workDir compiles
  MatchString scan fuel GetDefaultModel embeddingClient clock.

Lemma updateJobStatus_rest {W} (job : IngestionJob) (b : Backends W) :
  store (updateJobStatus job b) = store b
  /\ routing (updateJobStatus job b) = routing b
  /\ repo_meta (cache (updateJobStatus job b)) = repo_meta (cache b)
  /\ redis_up (cache (updateJobStatus job b)) = redis_up (cache b).
Proof.
  unfold updateJobStatus, withCache, SetUploadStatus.
  destruct (redis_up (cache b)) eqn:Hup; cbn; rewrite ?Hup; auto.
Qed.

Lemma updateJobStatus_status {W} (job : IngestionJob) (b : Backends W) :
  redis_up (cache b) = true ->
  upload_status (cache (updateJobStatus job b))
  = <[uploadStatusKey (JobTenantID job) (JobID job) := cachedStatus job ""]>
      (upload_status (cache b)).
Proof.
  intros Hup. unfold updateJobStatus, withCache, SetUploadStatus.
  rewrite Hup. reflexivity.
Qed.

Lemma upsertBatches_reachable steps className :
  forall i (vectors : list (Vector float32)) (s : Server float32),
  reachable s = true ->
  exists s',
    upsertBatches steps className i vectors s = (None, s')
    /\ reachable s' = true.
Proof.
  induction steps as [|steps IH]; intros i vectors s Hup.
  - destruct vectors; eexists; split; try reflexivity; exact Hup.
  - destruct vectors as [|v vs]; [eexists; split; [reflexivity|exact Hup]|].
    cbn [upsertBatches]. cbv zeta.
    cbn [Ingest.UpsertVectors WeaviateClient].
    unfold Weaviate.UpsertVectors. cbn [take]. rewrite Hup. cbn [negb].
    apply IH. reflexivity.
Qed.

Lemma IndexEmbeddings_reachable (repoID : string)
    (chunks : list (EmbeddedChunk float32)) (s : Server float32) :
  reachable s = true ->
  exists s', IndexEmbeddings repoID chunks s = (None, s').
Proof.
  intros Hup. unfold IndexEmbeddings. destruct chunks as [|c cs];
    [eexists; reflexivity|].
  cbn [Ingest.CreateCollection WeaviateClient].
  unfold Weaviate.CreateCollection. rewrite Hup. cbn [negb].
  match goal with
  | |- context [schema s !! ?k] => destruct (schema s !! k)
  end.
  - destruct (upsertBatches_reachable
                (length (map chunk_vector (c :: cs)))
                (toWeaviateClassName repoID) 0
                (map chunk_vector (c :: cs)) s Hup) as (s' & -> & _).
    eexists. reflexivity.
  - match goal with
    | |- context [upsertBatches ?n ?cl ?i ?vs ?s0] =>
      destruct (upsertBatches_reachable n cl i vs s0 eq_refl)
        as (s' & -> & _)
    end.
    eexists. reflexivity.
Qed.

Lemma IndexEmbeddings_objects (repoID : string)
    (chunks : list (EmbeddedChunk float32)) (w w' : Server float32) :
  IndexEmbeddings repoID chunks w = (None, w') ->
  objects w'
  = objects w
    ++ map (stored (toWeaviateClassName repoID)) (map chunk_vector chunks).
Proof.
  unfold IndexEmbeddings. destruct chunks as [|c cs].
  { intros [= <-]. rewrite app_nil_r. reflexivity. }
  destruct (Ingest.CreateCollection _ _ w) as [[e|] w1] eqn:Hcreate;
    [discriminate|].
  intros Hup. apply upsertBatches_ok in Hup; [|reflexivity].
  assert (Hobj : objects w1 = objects w).
  { revert Hcreate. cbn. unfold Weaviate.CreateCollection.
    destruct (negb (reachable w)); [discriminate|].
    destruct (schema w !! _); intros [= <-]; reflexivity. }
  rewrite Hup, Hobj. reflexivity.
Qed.

Lemma GenerateEmbeddings_repository (chunks : list FileChunk)
    (embedded : list (EmbeddedChunk float32)) :
  Forall (fun c => RepositoryID c = EmptyString) chunks ->
  GenerateEmbeddings GetDefaultModel embeddingClient clock chunks
  = Ok embedded ->
  Forall (fun e => RepositoryID (Chunk e) = "repo-id") embedded.
Proof.
  intros Hnone. unfold GenerateEmbeddings.
  destruct chunks as [|c0 cs] eqn:Hchunks; [intros [= <-]; constructor|].
  rewrite <- Hchunks in *. clear Hchunks c0 cs.
  destruct (embeddingClient _ _) as [embeddings|e]; [|discriminate].
  destruct (negb _); [discriminate|]. intros [= <-].
  apply Forall_lookup_2. intros i e. rewrite list_lookup_imap.
  destruct (zip (map withRepositoryID chunks) embeddings !! i)
    as [[c v]|] eqn:Hz; [|discriminate].
  intros [= <-]. cbn [Chunk fst].
  apply lookup_zip_Some in Hz as [Hc _].
  rewrite list_lookup_fmap in Hc.
  destruct (chunks !! i) as [c'|] eqn:Hi; [|discriminate].
  injection Hc as <-.
  rewrite Forall_lookup in Hnone. specialize (Hnone i c' Hi).
  unfold withRepositoryID. rewrite Hnone. reflexivity.
Qed.

(** Whatever repository a job is for, the objects that its pipeline adds
    to the vector store are of the class of the repository and name the
    constant ["repo-id"] as their repository. *)
Theorem indexed_objects_name_repo_id (job job' : IngestionJob)
    (b b' : Backends (Server float32)) :
  run job b = (Return (Ok tt), job', b') ->
  exists new,
    objects (store b') = objects (store b) ++ new
    /\ Forall
         (fun o =>
            ObjClass o = toWeaviateClassName (ReqRepositoryID (Request job))
            /\ ObjProperties o !! "repository_id"
               = Some (AnyString "repo-id")) new.
Proof.
  unfold run, processRepository. cbv zeta.
  destruct (ExtractRepository _ _) as [extractResult|e]; [|discriminate].
  destruct (ChunkFiles _ _ _ _ _ _ _) as [[chunks|e]| |] eqn:Hchunks;
    try discriminate.
  destruct (GenerateEmbeddings _ _ _ chunks) as [embedded|e] eqn:Hembed;
    [|discriminate].
  destruct (IndexEmbeddings _ embedded _) as [[e|] s] eqn:Hindex;
    [discriminate|].
  destruct (SetRepositoryMetadata _ _ _) as [[e|] w]; [discriminate|].
  destruct (SetRepositoryIndex _ _ _ _) as [[e|] b1] eqn:Hroute;
    [discriminate|].
  intros [= _ <-].
  assert (Hstore : store b1 = s).
  { revert Hroute. unfold SetRepositoryIndex.
    destruct (redis_up _); intros [= <-]; reflexivity. }
  rewrite Hstore. apply IndexEmbeddings_objects in Hindex.
  rewrite !(proj1 (updateJobStatus_rest _ _)) in Hindex.
  cbn [Request withState] in Hindex.
  eexists. split; [exact Hindex|].
  unfold ChunkFiles in Hchunks.
  apply chunkEach_no_repository in Hchunks; [|constructor].
  apply (GenerateEmbeddings_repository _ _ Hchunks) in Hembed.
  rewrite map_map. apply Forall_map.
  eapply Forall_impl; [exact Hembed|].
  intros e He. cbn [stored chunk_vector ObjClass ObjProperties Metadata].
  split; [reflexivity|]. rewrite He. reflexivity.
Qed.

Let runAsync := processRepositoryAsync (W := Weaviate.Server float32)
  ExtractRepository filepath_Join filepath_Base filepath_Ext workDir compiles
  MatchString scan fuel GetDefaultModel embeddingClient clock.

Lemma SetUploadStatus_meta tenantID status (w : World) :
  repo_meta (snd (SetUploadStatus tenantID status w)) = repo_meta w.
Proof. unfold SetUploadStatus. destruct (redis_up w); reflexivity. Qed.

Lemma SetUploadStatus_up tenantID status (w : World) :
  redis_up (snd (SetUploadStatus tenantID status w)) = redis_up w.
Proof.
  unfold SetUploadStatus. destruct (redis_up w) eqn:Hup; [reflexivity|exact
    Hup].
Qed.

Ltac through_updates :=
  unfold updateJobStatus, withCache; cbn [cache store routing];
  rewrite ?SetUploadStatus_meta, ?SetUploadStatus_up.

(** With the cache answering, a pipeline that fails has not touched the
    metadata of a repository, and it leaves the job's state, progress and
    identifiers as they were but for the state. *)
Lemma failed_run (job job' : IngestionJob) (b b' : Backends (Server float32))
    (e : error) :
  redis_up (cache b) = true ->
  run job b = (Return (Err e), job', b') ->
  redis_up (cache b') = true
  /\ repo_meta (cache b') = repo_meta (cache b)
  /\ JobID job' = JobID job /\ JobTenantID job' = JobTenantID job
  /\ JobRepositoryID job' = JobRepositoryID job
  /\ JobProgress job' = JobProgress job
  /\ JobCreatedAt job' = JobCreatedAt job.
Proof.
  intros Hup. unfold run, processRepository. cbv zeta.
  destruct (ExtractRepository _ _) as [extractResult|e0].
  2:{ intros [= _ <- <-]. through_updates. auto 10. }
  destruct (ChunkFiles _ _ _ _ _ _ _) as [[chunks|e0]| |] eqn:Hchunks;
    try discriminate.
  2:{ intros [= _ <- <-]. through_updates. auto 10. }
  destruct (GenerateEmbeddings _ _ _ chunks) as [embedded|e0] eqn:Hembed.
  2:{ intros [= _ <- <-]. through_updates. auto 10. }
  destruct (IndexEmbeddings _ embedded _) as [[e0|] s] eqn:Hindex.
  { intros [= _ <- <-]. through_updates. auto 10. }
  unfold SetRepositoryMetadata, SetRepositoryIndex. through_updates.
  rewrite Hup. cbn [cache redis_up]. rewrite ?Hup. discriminate.
Qed.

(** A pipeline that fails while the cache answers is recorded as FAILED,
    with the text of its error, under the upload of the job; the metadata
    of the repository is left as it was, so the repository keeps the state
    that the upload handler stored. *)
Theorem failed_pipeline_keeps_repository_state (job job' : IngestionJob)
    (b b' : Backends (Server float32)) (e : error) :
  redis_up (cache b) = true ->
  run job b = (Return (Err e), job', b') ->
  exists b'',
    runAsync job b = (Return (Ok tt), b'')
    /\ GetUploadStatus (JobTenantID job) (JobID job) (cache b'')
       = Ok (Some {| UploadID := JobID job;
                     CachedRepositoryID := JobRepositoryID job;
                     Status := STATE_FAILED;
                     ProgressPercent := JobProgress job;
                     ErrorMessage := error_string e;
                     Upload.CreatedAt := JobCreatedAt job |})
    /\ repo_meta (cache b'') = repo_meta (cache b).
Proof.
  intros Hup Hrun.
  destruct (failed_run job job' b b' e Hup Hrun)
    as (Hup' & Hmeta & Hid & Htenant & Hrepo & Hprogress & Hcreated).
  unfold runAsync, processRepositoryAsync. fold run. rewrite Hrun.
  eexists. split; [reflexivity|].
  unfold SetUploadStatus, GetUploadStatus, withCache, cachedStatus.
  cbn [JobTenantID JobID withState cache snd]. rewrite Hup'.
  cbn [cache snd redis_up upload_status repo_meta UploadID
       JobRepositoryID JobStatus JobProgress JobCreatedAt withState].
  rewrite ?Hup', Htenant, Hid, Hrepo, Hprogress, Hcreated, lookup_insert_eq.
  split; [reflexivity|exact Hmeta].
Qed.

(** With the windows of 100 lines and the overlap of 10 that the pipeline
    uses, the loop over the files returns. *)
Lemma chunkEach_returns repositoryPath options excludes includes :
  ChunkSize options = 100 -> ChunkOverlap options = 10 ->
  forall files allChunks,
  (forall fileInfo lines,
     In fileInfo files ->
     scan (filepath_Join repositoryPath (Path fileInfo)) = Ok lines ->
     (length lines < fuel)%nat /\ Z.of_nat (length lines) < 2 ^ 61) ->
  exists chunks,
    chunkEach filepath_Join MatchString scan fuel repositoryPath options
      excludes includes files allChunks = Return (Ok chunks).
Proof.
  intros Hsize Hoverlap files.
  induction files as [|fileInfo files IH]; intros allChunks Hfiles.
  { eexists. reflexivity. }
  assert (Hrest : forall f lines,
            In f files ->
            scan (filepath_Join repositoryPath (Path f)) = Ok lines ->
            (length lines < fuel)%nat /\ Z.of_nat (length lines) < 2 ^ 61)
    by (intros f lines Hf; apply Hfiles; right; exact Hf).
  cbn [chunkEach]. cbv zeta.
  repeat match goal with
         | |- context [if ?c then _ else _] =>
           destruct c; [apply IH; exact Hrest|]
         end.
  destruct (scan (filepath_Join repositoryPath (Path fileInfo)))
    as [lines|e] eqn:Hscan; cbn [chunkFile]; [|apply IH; exact Hrest].
  destruct (Hfiles fileInfo lines (or_introl eq_refl) Hscan) as [Hfuel Hlen].
  change 0 with (window_start options 0).
  rewrite (chunkLoop_windows lines fileInfo options);
    [apply IH; exact Hrest|rewrite Hsize; lia|rewrite Hsize, Hoverlap; lia
    |exact Hlen|lia|unfold window_start; lia].
Qed.

Lemma GenerateEmbeddings_succeeds (chunks : list FileChunk) :
  (forall texts, exists embeddings,
     embeddingClient texts GetDefaultModel = Ok embeddings
     /\ length embeddings = length texts) ->
  exists embedded,
    GenerateEmbeddings GetDefaultModel embeddingClient clock chunks
    = Ok embedded.
Proof.
  intros Hclient. unfold GenerateEmbeddings.
  destruct chunks as [|c0 cs] eqn:Hchunks; [eexists; reflexivity|].
  rewrite <- Hchunks. clear Hchunks c0 cs.
  destruct (Hclient (map embeddingText (map withRepositoryID chunks)))
    as (embeddings & -> & Hlen).
  rewrite length_map in Hlen. rewrite Hlen, Nat.eqb_refl. cbn [negb].
  eexists. reflexivity.
Qed.

(** When every stage succeeds (the repository is extracted, its files have
    fewer lines than the bound of the chunker, the embedding client answers
    with one vector per text, Weaviate and the cache answer), the pipeline
    ends with the upload READY at 100 percent and stores the repository as
    READY, with an empty description. *)
Theorem finished_pipeline_marks_repository_ready (job : IngestionJob)
    (b : Backends (Server float32)) (extractResult : ExtractResult) :
  redis_up (cache b) = true ->
  reachable (store b) = true ->
  ExtractRepository (ReqSource (Request job))
    (filepath_Join workDir (ReqRepositoryID (Request job)))
  = Ok extractResult ->
  (forall fileInfo lines,
     In fileInfo (Files extractResult) ->
     scan (filepath_Join (RepositoryPath extractResult) (Path fileInfo))
     = Ok lines ->
     (length lines < fuel)%nat /\ Z.of_nat (length lines) < 2 ^ 61) ->
  (forall texts, exists embeddings,
     embeddingClient texts GetDefaultModel = Ok embeddings
     /\ length embeddings = length texts) ->
  exists b',
    runAsync job b = (Return (Ok tt), b')
    /\ GetUploadStatus (JobTenantID job) (JobID job) (cache b')
       = Ok (Some {| UploadID := JobID job;
                     CachedRepositoryID := JobRepositoryID job;
                     Status := STATE_READY;
                     ProgressPercent := 100;
                     ErrorMessage := "";
                     Upload.CreatedAt := JobCreatedAt job |})
    /\ repo_meta (cache b')
         !! repositoryMetadataKey (ReqTenantID (Request job))
              (ReqRepositoryID (Request job))
       = Some {| RepositoryId := ReqRepositoryID (Request job);
                 Name := Processor.extractRepositoryName filepath_Base
                           filepath_Ext (ReqSource (Request job));
                 Description := "";
                 Source := ReqSource (Request job);
                 IngestionStatus := STATE_READY;
                 RepoCreatedAt := JobCreatedAt job |}.
Proof.
  intros Hup Hreach Hextract Hfiles Hclient.
  unfold runAsync, processRepositoryAsync, processRepository. cbv zeta.
  rewrite Hextract. unfold ChunkFiles. cbn [ChunkSize ChunkOverlap
    ExcludePatterns IncludePatterns].
  match goal with
  | |- context [chunkEach _ _ _ _ ?p ?o ?ex ?inc ?fs ?acc] =>
    destruct (chunkEach_returns p o ex inc eq_refl eq_refl fs acc Hfiles)
      as (chunks & ->)
  end.
  destruct (GenerateEmbeddings_succeeds chunks Hclient) as (embedded & ->).
  match goal with
  | |- context [IndexEmbeddings ?r ?cs ?s0] =>
    destruct (IndexEmbeddings_reachable r cs s0) as (s & ->);
      [through_updates; exact Hreach|]
  end.
  unfold SetRepositoryMetadata, SetRepositoryIndex. through_updates.
  rewrite Hup. cbn [cache redis_up]. rewrite ?Hup.
  eexists. split; [reflexivity|].
  unfold GetUploadStatus, SetUploadStatus.
  cbn [cache redis_up upload_status repo_meta]. through_updates.
  rewrite ?Hup.
  cbn [snd fst upload_status repo_meta redis_up cachedStatus UploadID JobID
       JobTenantID JobRepositoryID JobStatus JobProgress JobCreatedAt
       withState withProgress Request RepositoryId].
  rewrite !lookup_insert_eq. split; reflexivity.
Qed.

End Pipeline.

(** *** A run of the pipeline

    The job that the upload of [example_request] starts, on a repository
    of one file of 16 lines, with an embedding client that answers one
    vector per text. *)

Import UploadFacts.

Definition join_paths (dir name : string) : string := dir +:+ "/" +:+ name.

Definition one_file : ExtractResult := {|
  RepositoryPath := "/work/repo-1000"; CommitSHA := "";
  Files := [example_file]
|}.

Definition extracted (source : RepositorySource) (targetDir : string)
  : result ExtractResult := Ok one_file.

Definition clone_fails (source : RepositorySource) (targetDir : string)
  : result ExtractResult := Err (GoError "git clone failed").

Definition whole_name (path : string) : string := path.

Definition no_extension (path : string) : string := EmptyString.

Definition every_pattern (pattern : string) : bool := true.

Definition no_match (pattern path : string) : bool := false.

Definition reads_short_file (path : string) : result (list string) :=
  Ok short_file.

Definition constant_vectors (texts : list string) (model : string)
  : result (list (list Q)) := Ok (map (fun _ => [1 # 2]%Q) texts).

Definition at_noon (i : nat) : Z := 1700000000.

Definition accepted_job : IngestionJob := {|
  JobID := "k1"; JobRepositoryID := "repo-1000"; JobTenantID := "local";
  JobStatus := STATE_PENDING; JobProgress := 0;
  Request := {| ReqRepositoryID := "repo-1000"; ReqTenantID := "local";
                ReqSource := GitUrl "https://host/x/y.git" "main";
                ReqOptions := None; ReqIdempotencyKey := "k1" |};
  JobCreatedAt := 1001
|}.

(** It is the job that the upload handler started. *)
Example accepted_job_started : pipelines after_first = [accepted_job].
Proof. vm_compute. reflexivity. Qed.

Definition backends : Backends (Server Q) :=
  {| cache := after_first; routing := ∅; store := empty_server |}.

Definition one_file_chunks : list FileChunk :=
  match ChunkFiles join_paths every_pattern no_match reads_short_file 20
          one_file (example_options 100 10) with
  | Return (Ok chunks) => chunks
  | _ => []
  end.

Lemma ChunkFiles_chunks_of_files_witness :
  (forall fileInfo lines,
     In fileInfo (Files one_file) ->
     reads_short_file (join_paths (RepositoryPath one_file) (Path fileInfo))
     = Ok lines ->
     Z.of_nat (length lines) < 2 ^ 62)
  /\ ChunkFiles join_paths every_pattern no_match reads_short_file 20
       one_file (example_options 100 10) = Return (Ok one_file_chunks)
  /\ Forall (chunk_of_files join_paths every_pattern no_match
               reads_short_file (RepositoryPath one_file)
               (example_options 100 10) (Files one_file)) one_file_chunks.
Proof.
  assert (Hsmall : forall fileInfo lines,
            In fileInfo (Files one_file) ->
            reads_short_file
              (join_paths (RepositoryPath one_file) (Path fileInfo))
            = Ok lines ->
            Z.of_nat (length lines) < 2 ^ 62)
    by (intros fileInfo lines _ [= <-]; vm_compute; reflexivity).
  assert (Hrun : ChunkFiles join_paths every_pattern no_match
                   reads_short_file 20 one_file (example_options 100 10)
                 = Return (Ok one_file_chunks)) by (vm_compute; reflexivity).
  split; [exact Hsmall|]. split; [exact Hrun|].
  exact (ChunkFiles_chunks_of_files join_paths every_pattern no_match
           reads_short_file 20 one_file (example_options 100 10)
           one_file_chunks Hsmall Hrun).
Defined.

Definition one_file_embedded : list (EmbeddedChunk Q) :=
  match GenerateEmbeddings "text-embedding-3-large" constant_vectors at_noon
          one_file_chunks with
  | Ok embedded => embedded
  | Err _ => []
  end.

Lemma GenerateEmbeddings_pairs_witness :
  one_file_chunks <> []
  /\ GenerateEmbeddings "text-embedding-3-large" constant_vectors at_noon
       one_file_chunks = Ok one_file_embedded
  /\ exists embeddings,
       constant_vectors
         (map embeddingText (map withRepositoryID one_file_chunks))
         "text-embedding-3-large" = Ok embeddings
       /\ length embeddings = length one_file_chunks
       /\ length one_file_embedded = length one_file_chunks
       /\ forall i chunk,
            one_file_chunks !! i = Some chunk ->
            exists vector,
              embeddings !! i = Some vector
              /\ one_file_embedded !! i
                 = Some {| Chunk := withRepositoryID chunk;
                           Embedding := vector;
                           EmbeddingModel := "text-embedding-3-small";
                           Ingest.CreatedAt := at_noon i |}.
Proof.
  assert (Hne : one_file_chunks <> []) by (vm_compute; discriminate).
  assert (Hrun : GenerateEmbeddings "text-embedding-3-large" constant_vectors
                   at_noon one_file_chunks = Ok one_file_embedded)
    by (vm_compute; reflexivity).
  split; [exact Hne|]. split; [exact Hrun|].
  exact (GenerateEmbeddings_pairs "text-embedding-3-large" constant_vectors
           at_noon one_file_chunks one_file_embedded Hne Hrun).
Defined.

(** The run in which every stage succeeds. *)
Definition finished : outcome unit * IngestionJob * Backends (Server Q) :=
  processRepository extracted join_paths whole_name no_extension "/work"
    every_pattern no_match
    reads_short_file 20 "text-embedding-3-small" constant_vectors at_noon
    accepted_job backends.

Lemma indexed_objects_name_repo_id_witness :
  processRepository extracted join_paths whole_name no_extension "/work"
    every_pattern no_match
    reads_short_file 20 "text-embedding-3-small" constant_vectors at_noon
    accepted_job backends
  = (Return (Ok tt), snd (fst finished), snd finished)
  /\ exists new,
       objects (store (snd finished)) = objects (store backends) ++ new
       /\ Forall
            (fun o =>
               ObjClass o
               = toWeaviateClassName (ReqRepositoryID (Request accepted_job))
               /\ ObjProperties o !! "repository_id"
                  = Some (AnyString "repo-id")) new.
Proof.
  assert (Hrun : processRepository extracted join_paths whole_name no_extension
    "/work"
                   every_pattern no_match reads_short_file 20
                   "text-embedding-3-small" constant_vectors at_noon
                   accepted_job backends
                 = (Return (Ok tt), snd (fst finished), snd finished))
    by (vm_compute; reflexivity).
  split; [exact Hrun|].
  exact (indexed_objects_name_repo_id extracted join_paths whole_name
    no_extension "/work"
           every_pattern no_match reads_short_file 20
           "text-embedding-3-small" constant_vectors at_noon accepted_job
           (snd (fst finished)) backends (snd finished) Hrun).
Defined.

Definition clone_error : error :=
  GoError "failed to extract repository: git clone failed".

(** The run in which the repository cannot be cloned. *)
Definition failed : outcome unit * IngestionJob * Backends (Server Q) :=
  processRepository clone_fails join_paths whole_name no_extension "/work"
    every_pattern
    no_match reads_short_file 20 "text-embedding-3-small" constant_vectors
    at_noon accepted_job backends.

Lemma failed_pipeline_keeps_repository_state_witness :
  redis_up (cache backends) = true
  /\ processRepository clone_fails join_paths whole_name no_extension "/work"
    every_pattern
       no_match reads_short_file 20 "text-embedding-3-small"
       constant_vectors at_noon accepted_job backends
     = (Return (Err clone_error),
        snd (fst failed), snd failed)
  /\ exists b'',
       processRepositoryAsync clone_fails join_paths whole_name no_extension
         "/work"
         every_pattern no_match reads_short_file 20 "text-embedding-3-small"
         constant_vectors at_noon accepted_job backends
       = (Return (Ok tt), b'')
       /\ GetUploadStatus (JobTenantID accepted_job) (JobID accepted_job)
            (cache b'')
          = Ok (Some {| UploadID := JobID accepted_job;
                        CachedRepositoryID := JobRepositoryID accepted_job;
                        Status := STATE_FAILED;
                        ProgressPercent := JobProgress accepted_job;
                        ErrorMessage :=
                          error_string
                            clone_error;
                        Upload.CreatedAt := JobCreatedAt accepted_job |})
       /\ repo_meta (cache b'') = repo_meta (cache backends).
Proof.
  assert (Hup : redis_up (cache backends) = true) by reflexivity.
  assert (Hrun : processRepository clone_fails join_paths whole_name
    no_extension "/work"
                   every_pattern no_match reads_short_file 20
                   "text-embedding-3-small" constant_vectors at_noon
                   accepted_job backends
                 = (Return (Err clone_error),
                    snd (fst failed), snd failed))
    by (vm_compute; reflexivity).
  split; [exact Hup|]. split; [exact Hrun|].
  exact (failed_pipeline_keeps_repository_state clone_fails join_paths
    whole_name no_extension
           "/work" every_pattern no_match reads_short_file 20
           "text-embedding-3-small" constant_vectors at_noon accepted_job
           (snd (fst failed)) backends (snd failed) _ Hup Hrun).
Defined.

Lemma finished_pipeline_marks_repository_ready_witness :
  redis_up (cache backends) = true
  /\ reachable (store backends) = true
  /\ extracted (ReqSource (Request accepted_job))
       (join_paths "/work" (ReqRepositoryID (Request accepted_job)))
     = Ok one_file
  /\ (forall fileInfo lines,
        In fileInfo (Files one_file) ->
        reads_short_file (join_paths (RepositoryPath one_file) (Path fileInfo))
        = Ok lines ->
        (length lines < 20)%nat /\ Z.of_nat (length lines) < 2 ^ 61)
  /\ (forall texts, exists embeddings,
        constant_vectors texts "text-embedding-3-small" = Ok embeddings
        /\ length embeddings = length texts)
  /\ exists b',
       processRepositoryAsync extracted join_paths whole_name no_extension
         "/work"
         every_pattern no_match reads_short_file 20 "text-embedding-3-small"
         constant_vectors at_noon accepted_job backends
       = (Return (Ok tt), b')
       /\ GetUploadStatus (JobTenantID accepted_job) (JobID accepted_job)
            (cache b')
          = Ok (Some {| UploadID := JobID accepted_job;
                        CachedRepositoryID := JobRepositoryID accepted_job;
                        Status := STATE_READY;
                        ProgressPercent := 100;
                        ErrorMessage := "";
                        Upload.CreatedAt := JobCreatedAt accepted_job |})
       /\ repo_meta (cache b')
            !! repositoryMetadataKey (ReqTenantID (Request accepted_job))
                 (ReqRepositoryID (Request accepted_job))
          = Some {| RepositoryId := ReqRepositoryID (Request accepted_job);
                    Name := Processor.extractRepositoryName whole_name
                      no_extension
                              (ReqSource (Request accepted_job));
                    Description := "";
                    Source := ReqSource (Request accepted_job);
                    IngestionStatus := STATE_READY;
                    RepoCreatedAt := JobCreatedAt accepted_job |}.
Proof.
  assert (Hup : redis_up (cache backends) = true) by reflexivity.
  assert (Hreach : reachable (store backends) = true) by reflexivity.
  assert (Hextract : extracted (ReqSource (Request accepted_job))
                       (join_paths "/work"
                          (ReqRepositoryID (Request accepted_job)))
                     = Ok one_file) by reflexivity.
  assert (Hfiles : forall fileInfo lines,
            In fileInfo (Files one_file) ->
            reads_short_file
              (join_paths (RepositoryPath one_file) (Path fileInfo))
            = Ok lines ->
            (length lines < 20)%nat /\ Z.of_nat (length lines) < 2 ^ 61)
    by (intros fileInfo lines _ [= <-]; split;
        [vm_compute; lia | vm_compute; reflexivity]).
  assert (Hclient : forall texts, exists embeddings,
            constant_vectors texts "text-embedding-3-small" = Ok embeddings
            /\ length embeddings = length texts)
    by (intros texts; eexists; split;
        [reflexivity | apply length_map]).
  split; [exact Hup|]. split; [exact Hreach|]. split; [exact Hextract|].
  split; [exact Hfiles|]. split; [exact Hclient|].
  exact (finished_pipeline_marks_repository_ready extracted join_paths
    whole_name no_extension
           "/work" every_pattern no_match reads_short_file 20
           "text-embedding-3-small" constant_vectors at_noon accepted_job
           backends one_file Hup Hreach Hextract Hfiles Hclient).
Defined.

End ProcessorFacts.

(** ** Truncating contents for display *)

Module TruncationFacts.

Import Proto Truncation GoStringsFacts FmtFacts.
Import Ingest (newline).










Section Truncate.

Context {F : Type}.



End Truncate.




End TruncationFacts.

(** ** The keys of the cache *)

Module CacheKeyFacts.

Import Upload GoStringsFacts FmtFacts.

(** No byte of the string is a colon. *)
Fixpoint colon_free (s : string) : Prop :=
  match s with
  | EmptyString => True
  | String c s' => c <> ":"%char /\ colon_free s'
  end.

Lemma colon_free_app x y :
  colon_free x -> colon_free y -> colon_free (x +:+ y).
Proof.
  induction x as [|c x IH]; [auto|]. intros [Hc Hx] Hy.
  rewrite append_cons. split; [exact Hc|auto].
Qed.

Lemma high_byte_no_colon c : (0x80 <= byte c)%N -> c <> ":"%char.
Proof. intros H ->. vm_compute in H. apply H. reflexivity. Qed.

Lemma between_high lo hi b :
  (0x80 <= lo)%N -> between lo hi b = true -> (0x80 <= b)%N.
Proof.
  unfold between. intros Hlo H. apply andb_prop in H as [H _].
  apply N.leb_le in H. lia.
Qed.

(** The bytes of a decoded rune hold a colon only when the rune is the
    colon. *)
Lemma decode_colon s r w :
  s <> EmptyString -> DecodeRuneInString s = (r, w) ->
  r = 58%N \/ colon_free (stake w s).
Proof.
  destruct s as [|c0 t0]; [congruence|]. intros _. unfold DecodeRuneInString.
  destruct (byte c0 <? 128)%N eqn:H0.
  { intros [= <- <-]. cbn [stake].
    destruct (Ascii.eqb c0 ":"%char) eqn:Hc.
    - apply Ascii.eqb_eq in Hc. subst c0. left. reflexivity.
    - apply Ascii.eqb_neq in Hc. right. cbn. auto. }
  apply N.ltb_ge in H0. pose proof (high_byte_no_colon c0 H0) as Hc0.
  right. revert H.
  destruct (first (byte c0)) as [[[sz lo] hi]|] eqn:Hf;
    [|intros [= <- <-]; cbn; auto].
  apply first_lo in Hf.
  destruct t0 as [|c1 t1]; [intros [= <- <-]; cbn; auto|].
  destruct (between lo hi (byte c1)) eqn:H1; cbn [negb];
    [|intros [= <- <-]; cbn; auto].
  apply (between_high _ _ _ Hf), high_byte_no_colon in H1.
  destruct (sz <=? 2)%nat; [intros [= <- <-]; cbn; auto|].
  destruct t1 as [|c2 t2]; [intros [= <- <-]; cbn; auto|].
  destruct (between 128 191 (byte c2)) eqn:H2; cbn [negb];
    [|intros [= <- <-]; cbn; auto].
  apply (between_high 128), high_byte_no_colon in H2; [|lia].
  destruct (sz <=? 3)%nat; [intros [= <- <-]; cbn; auto|].
  destruct t2 as [|c3 t3]; [intros [= <- <-]; cbn; auto|].
  destruct (between 128 191 (byte c3)) eqn:H3; cbn [negb];
    [|intros [= <- <-]; cbn; auto].
  apply (between_high 128), high_byte_no_colon in H3; [|lia].
  intros [= <- <-]. cbn. auto.
Qed.

Lemma runes_colon s : forall r bytes,
  In (r, bytes) (runes s) -> r = 58%N \/ colon_free bytes.
Proof.
  remember (String.length s) as m eqn:Hm.
  revert s Hm. induction m as [m IH] using lt_wf_ind. intros s Hm r bytes.
  destruct s as [|c t]; [intros []|].
  assert (Hne : String c t <> EmptyString) by discriminate.
  destruct (DecodeRuneInString (String c t)) as [r0 w] eqn:Hd.
  rewrite (runes_cons _ _ _ Hne Hd).
  pose proof (decode_width _ _ _ Hne Hd) as Hw.
  intros [[= <- <-]|Hin].
  - apply (decode_colon _ _ _ Hne Hd).
  - apply (IH (String.length (sdrop w (String c t)))) in Hin;
      [exact Hin| |reflexivity].
    rewrite length_sdrop. subst m. lia.
Qed.

(** What [ReplaceAllString] leaves when the class of the expression does
    not hold the colon. *)
Lemma replace_outside_colon_free (allowed : N -> bool) (s : string) :
  allowed 58%N = false -> colon_free (replace_outside allowed s).
Proof.
  intros Hcolon. unfold replace_outside.
  pose proof (runes_colon s) as Hrunes.
  induction (runes s) as [|[r bytes] rs IH]; [exact I|].
  cbn [fold_right fst snd]. apply colon_free_app.
  - destruct (allowed r) eqn:Hr; [|cbn; split; [discriminate|exact I]].
    destruct (Hrunes r bytes (or_introl eq_refl)) as [->|H]; [congruence|].
    exact H.
  - apply IH. intros r' b' Hin. apply Hrunes. right. exact Hin.
Qed.

Lemma sanitizeTenantID_colon_free tenantID :
  colon_free (sanitizeTenantID tenantID).
Proof. apply replace_outside_colon_free. reflexivity. Qed.

(** Two strings of the form [a:b] with colon-free [a] are equal only when
    their parts are. *)
Lemma colon_separates a : forall a' b b',
  colon_free a -> colon_free a' ->
  a +:+ ":" +:+ b = a' +:+ ":" +:+ b' -> a = a' /\ b = b'.
Proof.
  induction a as [|c a IH]; intros a' b b' Ha Ha'.
  - destruct a' as [|c' a']; rewrite ?append_cons, ?append_empty.
    + intros [= ->]. auto.
    + destruct Ha' as [Hc' _]. intros [= H _]. congruence.
  - destruct Ha as [Hc Ha].
    destruct a' as [|c' a']; rewrite ?append_cons, ?append_empty.
    + intros [= H _]. congruence.
    + destruct Ha' as [_ Ha']. intros [= -> H].
      destruct (IH a' b b' Ha Ha' H) as [-> ->]. auto.
Qed.

Lemma append_cancel_l p : forall x y, p +:+ x = p +:+ y -> x = y.
Proof.
  induction p as [|c p IH]; intros x y; rewrite ?append_cons, ?append_empty;
    [auto|].
  intros [= H]. auto.
Qed.

(** Two uploads have the same key exactly when their sanitized tenants and
    their sanitized identifiers are the same. *)
Lemma uploadStatusKey_eq t1 u1 t2 u2 :
  uploadStatusKey t1 u1 = uploadStatusKey t2 u2
  <-> sanitizeTenantID t1 = sanitizeTenantID t2
      /\ sanitizeID u1 = sanitizeID u2.
Proof.
  unfold uploadStatusKey. split.
  - intros H. apply append_cancel_l in H as H'.
    apply colon_separates in H'; auto using sanitizeTenantID_colon_free.
  - intros [-> ->]. reflexivity.
Qed.

(** With the cache answering, the status written for an upload is what is
    read afterwards for every tenant and upload with the same sanitized
    identifiers, also for another tenant; for all others, what is read is
    what it was before. *)
Theorem SetUploadStatus_read_by (tenantID : string)
    (status : CachedUploadStatus) (otherTenant otherUpload : string)
    (w : World) :
  redis_up w = true ->
  GetUploadStatus otherTenant otherUpload
    (snd (SetUploadStatus tenantID status w))
  = if String.eqb (sanitizeTenantID otherTenant) (sanitizeTenantID tenantID)
       && String.eqb (sanitizeID otherUpload) (sanitizeID (UploadID status))
    then Ok (Some status)
    else GetUploadStatus otherTenant otherUpload w.
Proof.
  intros Hup. unfold GetUploadStatus, SetUploadStatus. rewrite Hup.
  cbn [snd redis_up upload_status]. rewrite ?Hup.
  destruct (String.eqb (sanitizeTenantID otherTenant)
              (sanitizeTenantID tenantID)) eqn:Ht;
    [destruct (String.eqb (sanitizeID otherUpload)
                 (sanitizeID (UploadID status))) eqn:Hu|]; cbn [andb].
  - apply String.eqb_eq in Ht, Hu.
    rewrite (proj2 (uploadStatusKey_eq otherTenant otherUpload tenantID
                      (UploadID status)) (conj Ht Hu)).
    rewrite lookup_insert_eq. reflexivity.
  - apply String.eqb_neq in Hu. rewrite lookup_insert_ne; [reflexivity|].
    intros Heq. apply uploadStatusKey_eq in Heq as [_ Heq]. congruence.
  - apply String.eqb_neq in Ht. rewrite lookup_insert_ne; [reflexivity|].
    intros Heq. apply uploadStatusKey_eq in Heq as [Heq _]. congruence.
Qed.

Import UploadFacts.

Definition pending_upload : CachedUploadStatus := {|
  UploadID := "k1"; CachedRepositoryID := "repo-1000";
  Status := STATE_PENDING; ProgressPercent := 0; ErrorMessage := "";
  Upload.CreatedAt := 1001
|}.

(** The status that tenant [a.b] writes is read by tenant [a_b]. *)
Lemma SetUploadStatus_read_by_witness :
  redis_up empty_world = true
  /\ GetUploadStatus "a_b" "k1"
       (snd (SetUploadStatus "a.b" pending_upload empty_world))
     = if String.eqb (sanitizeTenantID "a_b") (sanitizeTenantID "a.b")
          && String.eqb (sanitizeID "k1") (sanitizeID (UploadID pending_upload))
       then Ok (Some pending_upload)
       else GetUploadStatus "a_b" "k1" empty_world.
Proof.
  assert (Hup : redis_up empty_world = true) by reflexivity.
  split; [exact Hup|].
  exact (SetUploadStatus_read_by "a.b" pending_upload "a_b" "k1" empty_world
           Hup).
Defined.

Example other_tenant_reads_status :
  GetUploadStatus "a_b" "k1"
    (snd (SetUploadStatus "a.b" pending_upload empty_world))
  = Ok (Some pending_upload).
Proof. vm_compute. reflexivity. Qed.

End CacheKeyFacts.

(** ** The batches of [IndexEmbeddings] *)

Module IndexingFacts.

Import Ingest.

Section Recorder.

Context {float32 : Type}.

(** The calls that a vector client gets. *)
Inductive call : Type :=
  | CreateCollectionCall (name : string) (dimensions : Z)
  | UpsertVectorsCall (name : string) (vectors : list (Vector float32))
  | DeleteCollectionCall (name : string).

(** A vector client that records its calls in order and fails at none. *)
#[local] Instance recorder : VectorClient float32 (list call) := {|
  CreateCollection name dimensions log :=
    (None, log ++ [CreateCollectionCall name dimensions]);
  UpsertVectors name vectors log :=
    (None, log ++ [UpsertVectorsCall name vectors]);
  DeleteCollection name log := (None, log ++ [DeleteCollectionCall name])
|}.

Lemma upsertBatches_recorded steps className :
  forall i (vectors : list (Vector float32)) (log : list call),
  (length vectors <= steps)%nat ->
  exists batches,
    upsertBatches steps className i vectors log
    = (None, log ++ map (UpsertVectorsCall className) batches)
    /\ concat batches = vectors
    /\ Forall (fun batch => (0 < length batch <= 100)%nat) batches.
Proof.
  induction steps as [|steps IH]; intros i vectors log Hlen.
  - destruct vectors; [|simpl in Hlen; lia].
    exists []. cbn. rewrite app_nil_r. auto.
  - destruct vectors as [|v vs].
    { exists []. cbn. rewrite app_nil_r. auto. }
    cbn [upsertBatches]. cbv zeta. cbn [UpsertVectors recorder].
    destruct (IH (i + 100) (drop 100 (v :: vs))
                (log ++ [UpsertVectorsCall className (take 100 (v :: vs))]))
      as (batches & Hrun & Hall & Hsize).
    { rewrite length_drop. cbn [length] in *. lia. }
    exists (take 100 (v :: vs) :: batches).
    rewrite Hrun. cbn [map concat]. rewrite <- app_assoc. cbn [app].
    split; [reflexivity|]. split.
    + rewrite Hall. apply take_drop.
    + constructor; [|exact Hsize].
      rewrite length_take. cbn [length]. lia.
Qed.

(** [IndexEmbeddings] creates the collection of the repository, with the
    dimension of the first embedding, and then passes the vectors of all
    chunks to the client, in order and each once, in batches of at least
    one and at most 100 vectors. *)
Theorem IndexEmbeddings_batches (repoID : string)
    (chunk : EmbeddedChunk float32) (chunks : list (EmbeddedChunk float32))
    (log : list call) :
  exists batches,
    IndexEmbeddings repoID (chunk :: chunks) log
    = (None,
       log
       ++ CreateCollectionCall (toWeaviateClassName repoID)
            (Z.of_nat (length (Embedding chunk)))
          :: map (UpsertVectorsCall (toWeaviateClassName repoID)) batches)
    /\ concat batches = map chunk_vector (chunk :: chunks)
    /\ Forall (fun batch => (0 < length batch <= 100)%nat) batches.
Proof.
  unfold IndexEmbeddings. cbn [CreateCollection recorder].
  destruct (upsertBatches_recorded
              (length (map chunk_vector (chunk :: chunks)))
              (toWeaviateClassName repoID) 0
              (map chunk_vector (chunk :: chunks))
              (log ++ [CreateCollectionCall (toWeaviateClassName repoID)
                         (Z.of_nat (length (Embedding chunk)))]))
    as (batches & Hrun & Hall & Hsize); [reflexivity|].
  exists batches. rewrite Hrun, <- app_assoc. auto.
Qed.

End Recorder.

End IndexingFacts.

(** ** A repository through the cache *)

Module RepositoryCacheFacts.

Import RepositoryCache.

Section Cache.

Context {IngestionStatus RepositoryStats : Type}.

(** What a repository needs to come back from its cached form: both its
    timestamps are set, and its source, if it has one, names a Git URL or
    an uploaded file that is not empty. *)
Definition survives (repo : Repository IngestionStatus RepositoryStats)
  : Prop :=
  CreatedAt repo <> None /\ UpdatedAt repo <> None
  /\ match RepoSource repo with
     | None => True
     | Some source =>
       match Source source with
       | Some (RepositorySource_GitUrl url) => url <> EmptyString
       | Some (RepositorySource_UploadedFilename name) => name <> EmptyString
       | None => False
       end
     end.

(** Converting a repository to its cached form and back gives the
    repository again exactly when its timestamps are set and its source is
    absent or names a non-empty Git URL or uploaded file; a source with an
    empty URL or file name, or without either, does not come back. *)
Theorem cached_repository_round_trip
    (repo : Repository IngestionStatus RepositoryStats) :
  fromCachedRepo (toCachedRepo repo) = repo <-> survives repo.
Proof.
  destruct repo as [id name description source status stats created updated].
  unfold survives, fromCachedRepo, toCachedRepo, timestamppb_New, AsTime.
  cbn [RepositoryId Name Description RepoSource RepoIngestionStatus Stats
       CreatedAt UpdatedAt CachedRepositoryID CachedName CachedDescription
       GitURL UploadedFile CachedRef CachedCommitSha CachedIngestionStatus
       CachedStats CachedCreatedAt CachedUpdatedAt].
  split.
  - intros H. injection H as Hsource Hcreated Hupdated.
    split; [congruence|]. split; [congruence|].
    destruct source as [[[[url|file]|] ref sha]|]; cbn [Source] in *;
      [| | |exact I].
    + intros ->. discriminate.
    + intros ->. discriminate.
    + discriminate.
  - intros (Hcreated & Hupdated & Hsource).
    destruct created as [created|]; [|congruence].
    destruct updated as [updated|]; [|congruence].
    f_equal.
    destruct source as [[[[url|file]|] ref sha]|]; cbn [Source Ref CommitSha]
      in *; [| |contradiction|reflexivity].
    + apply String.eqb_neq in Hsource. rewrite Hsource. reflexivity.
    + apply String.eqb_neq in Hsource. rewrite Hsource. reflexivity.
Qed.

End Cache.

End RepositoryCacheFacts.
